(** * RealTimeMarketDataLoader: the windowed, paced acquisition pipeline

    A shallow embedding of [src/main/python/RealTimeMarketDataLoader.py]:
    [fetch_historical_data_chunk], [fetch_historical_data] and
    [process_symbols_in_batches], over a small model of the pieces of
    [datetime] and [pandas] they use.  The outside world (market data
    provider, file system, wall clock) is an oracle; every interaction with
    it is recorded in a trace of events.  A Python [str] is the string of
    the bytes of its UTF-8 encoding. *)

From Stdlib Require Import ZArith List String Ascii Bool Lia.
From Stdlib Require Import Sorted Permutation DecimalString.
Import ListNotations.
Open Scope string_scope.
Open Scope list_scope.
Open Scope Z_scope.

(* ===================================================================== *)
(** ** Exceptions *)

(** A Python exception that [except Exception] catches: its class name and
    [str(e)]. *)
Record Exn : Type := mkExn { exn_class : string; exn_str : string }.

(** Result of a pure library operation that may raise. *)
Inductive Res (A : Type) : Type :=
| Ok (a : A)
| Err (e : Exn).
Arguments Ok {A} a.
Arguments Err {A} e.

Definition res_bind {A B} (r : Res A) (k : A -> Res B) : Res B :=
  match r with
  | Ok a => k a
  | Err e => Err e
  end.

Fixpoint res_map {A B} (f : A -> Res B) (l : list A) : Res (list B) :=
  match l with
  | [] => Ok []
  | x :: xs =>
      res_bind (f x) (fun y => res_bind (res_map f xs) (fun ys => Ok (y :: ys)))
  end.

(* ===================================================================== *)
(** ** datetime *)

Module Datetime.

(** A [datetime] is its wall-clock reading in microseconds since
    1970-01-01T00:00 of its own zone: arithmetic with a [timedelta] and
    comparison of two values of one zone are integer operations.  A
    [date] is a day number since 1970-01-01. *)
Definition datetime := Z.
Definition date := Z.

Definition us_per_day : Z := 86400000000.
Definition us_per_second : Z := 1000000.

(** [timedelta(days=n)] *)
Definition timedelta (days : Z) : Z := days * us_per_day.

(** [datetime.min] and [datetime.max]: 0001-01-01T00:00:00 and
    9999-12-31T23:59:59.999999. *)
Definition datetime_min : datetime := -719162 * us_per_day.
Definition datetime_max : datetime := 2932897 * us_per_day - 1.

Definition OverflowError (msg : string) : Exn := mkExn "OverflowError" msg.

(** [t + d] for a [timedelta] [d] ([t - d] is [t + (-d)]): the sum, or
    [OverflowError] when it is not a [datetime]. *)
Definition add_timedelta (t : datetime) (d : Z) : Res datetime :=
  if (datetime_min <=? t + d) && (t + d <=? datetime_max) then Ok (t + d)
  else Err (OverflowError "date value out of range").

(** [datetime.now()] reads the system clock, which the interpreter keeps
    as a signed 64-bit count of nanoseconds since 1970-01-01T00:00 UTC:
    whatever the zone, its readings lie within 106752 days of 1970-01-01
    (from 1677 to 2262). *)
Definition clock_min : datetime := - (106752 * us_per_day).
Definition clock_max : datetime := 106752 * us_per_day.

(** [dt.date()] *)
Definition date_of (t : datetime) : date := t / us_per_day.

(** Day number to proleptic Gregorian (year, month, day). *)
Definition civil_of_days (n : date) : Z * Z * Z :=
  let z := n + 719468 in
  let era := z / 146097 in
  let doe := z - era * 146097 in
  let yoe := (doe - doe / 1460 + doe / 36524 - doe / 146096) / 365 in
  let doy := doe - (365 * yoe + yoe / 4 - yoe / 100) in
  let mp := (5 * doy + 2) / 153 in
  let d := doy - (153 * mp + 2) / 5 + 1 in
  let m := if mp <? 10 then mp + 3 else mp - 9 in
  let y := yoe + era * 400 + (if m <=? 2 then 1 else 0) in
  (y, m, d).

(** [str(n)] for an integer. *)
Definition str_of_Z (n : Z) : string := NilZero.string_of_int (Z.to_int n).

(** The decimal digits of [n], padded with zeros on the left to [width]. *)
Definition zero_pad (width : nat) (n : Z) : string :=
  let s := str_of_Z n in
  (String.concat "" (repeat "0" (width - String.length s)) ++ s)%string.

(** [d.strftime('%Y-%m-%d')], which is also [str(d)] for a [date]. *)
Definition isoformat (n : date) : string :=
  let '(y, m, d) := civil_of_days n in
  (zero_pad 4 y ++ "-" ++ zero_pad 2 m ++ "-" ++ zero_pad 2 d)%string.

(** [t.strftime('%Y-%m-%d')] *)
Definition strftime_ymd (t : datetime) : string := isoformat (date_of t).

End Datetime.

Import Datetime.

(* ===================================================================== *)
(** ** pandas *)

Module Pandas.

(** A cell.  Prices and volumes are carried through untouched by the
    loader, so numbers are kept as opaque integers. *)
Inductive value : Type :=
| VTimestamp (us : Z)
| VDate (d : date)
| VStr (s : string)
| VNum (n : Z)
| VNaN.

(** A frame: the names of its index levels, its column labels, and its
    rows, each row being its index cells and its data cells.  An empty
    [index_names] is the default [RangeIndex].  A label may be carried by
    several columns. *)
Record DataFrame : Type := mkDataFrame {
  index_names : list string;
  columns : list string;
  rows : list (list value * list value)
}.

Definition KeyError (key : string) : Exn := mkExn "KeyError" ("'" ++ key ++ "'")%string.
Definition ValueError (msg : string) : Exn := mkExn "ValueError" msg.
Definition TypeError (msg : string) : Exn := mkExn "TypeError" msg.
Definition InvalidIndexError (msg : string) : Exn := mkExn "InvalidIndexError" msg.

Definition mem (name : string) (l : list string) : bool :=
  existsb (String.eqb name) l.

Fixpoint position (name : string) (l : list string) : option nat :=
  match l with
  | [] => None
  | c :: cs =>
      if String.eqb name c then Some O
      else option_map S (position name cs)
  end.

(** The places of all the columns that carry the label [name]. *)
Fixpoint positions (name : string) (l : list string) : list nat :=
  match l with
  | [] => []
  | c :: cs =>
      (if String.eqb name c then [O] else []) ++ map S (positions name cs)
  end.

(** Some label is carried by two columns: [not columns.is_unique]. *)
Fixpoint has_duplicates (l : list string) : bool :=
  match l with
  | [] => false
  | c :: cs => mem c cs || has_duplicates cs
  end.

Fixpoint labels_eqb (l1 l2 : list string) : bool :=
  match l1, l2 with
  | [], [] => true
  | c1 :: l1', c2 :: l2' => String.eqb c1 c2 && labels_eqb l1' l2'
  | _, _ => false
  end.

(** The place of the one column that carries [name], where the caller
    needs the label to be unambiguous. *)
Definition locate (name : string) (l : list string) : Res nat :=
  match positions name l with
  | [] => Err (KeyError name)
  | [i] => Ok i
  | _ => Err (ValueError ("The column label '" ++ name ++ "' is not unique.")%string)
  end.

(** [df.empty]: some axis has List.length zero. *)
Definition empty (df : DataFrame) : bool :=
  (Nat.eqb (List.length (columns df)) 0 || Nat.eqb (List.length (rows df)) 0)%bool.

(** The index levels [rev_names], last level first, inserted one by one
    in front of the columns [cols]. *)
Fixpoint insert_levels (rev_names cols : list string) : Res (list string) :=
  match rev_names with
  | [] => Ok cols
  | n :: ns =>
      if mem n cols
      then Err (ValueError ("cannot insert " ++ n ++ ", already exists")%string)
      else insert_levels ns (n :: cols)
  end.

(** [df.reset_index()]: the index levels become the leading columns,
    inserted from the last level to the first; the default index becomes
    a column [index] (or [level_0]). *)
Definition reset_index (df : DataFrame) : Res DataFrame :=
  match index_names df with
  | [] =>
      let name := if mem "index" (columns df) then "level_0" else "index" in
      if mem name (columns df)
      then Err (ValueError ("cannot insert " ++ name ++ ", already exists")%string)
      else Ok {| index_names := [];
                 columns := name :: columns df;
                 rows := map (fun ir => ([], VNum (Z.of_nat (fst ir)) :: snd (snd ir)))
                             (combine (seq 0 (List.length (rows df))) (rows df)) |}
  | names =>
      res_bind (insert_levels (rev names) (columns df)) (fun cols =>
      Ok {| index_names := [];
            columns := cols;
            rows := map (fun r => ([], fst r ++ snd r)) (rows df) |})
  end.

(** [df[name]]: the cells of every column that carries the label; one
    column is a Series, several are a frame. *)
Definition get_column (name : string) (df : DataFrame)
  : Res (list (list value)) :=
  match positions name (columns df) with
  | [] => Err (KeyError name)
  | places => Ok (map (fun i => map (fun r => nth i (snd r) VNaN) (rows df)) places)
  end.

(** Cells are read with [nth _ _ VNaN]: a cell that a row does not list is
    NaN.  Writing cell [i] keeps that reading for the cells before it. *)
Definition set_cell (i : nat) (v : value) (cells : list value) : list value :=
  firstn i (cells ++ repeat VNaN i) ++ v :: skipn (S i) cells.

Definition set_cells (places : list nat) (v : value) (cells : list value)
  : list value :=
  fold_right (fun i cs => set_cell i v cs) cells places.

(** [df[name] = vals]: overwrite every column that carries the label, or
    append a column when none does. *)
Definition set_column (name : string) (vals : list value) (df : DataFrame)
  : Res DataFrame :=
  if Nat.eqb (List.length vals) (List.length (rows df)) then
    match positions name (columns df) with
    | [] =>
        Ok {| index_names := index_names df;
              columns := columns df ++ [name];
              rows := map (fun rv => (fst (fst rv),
                                      set_cell (List.length (columns df)) (snd rv)
                                               (snd (fst rv))))
                          (combine (rows df) vals) |}
    | places =>
        Ok {| index_names := index_names df;
              columns := columns df;
              rows := map (fun rv => (fst (fst rv),
                                      set_cells places (snd rv) (snd (fst rv))))
                          (combine (rows df) vals) |}
    end
  else Err (ValueError "Length of values does not match length of index").

Fixpoint assoc (name : string) (m : list (string * string)) : option string :=
  match m with
  | [] => None
  | (k, v) :: m' => if String.eqb name k then Some v else assoc name m'
  end.

(** [df.rename(columns=mapping)] *)
Definition rename (mapping : list (string * string)) (df : DataFrame) : DataFrame :=
  {| index_names := index_names df;
     columns := map (fun c => match assoc c mapping with
                              | Some c' => c'
                              | None => c
                              end) (columns df);
     rows := rows df |}.

(** The columns of [cols] that carry the label [name], for a selection:
    the label and their places. *)
Definition carriers (cols : list string) (name : string)
  : Res (string * list nat) :=
  match positions name cols with
  | [] => Err (KeyError name)
  | places => Ok (name, places)
  end.

(** [df[[n1, ..., nk]]]: for each label in turn, every column that
    carries it. *)
Definition select (names : list string) (df : DataFrame) : Res DataFrame :=
  res_bind (res_map (carriers (columns df)) names) (fun groups =>
  Ok {| index_names := index_names df;
        columns := flat_map (fun g => map (fun _ => fst g) (snd g)) groups;
        rows := map (fun r => (fst r, map (fun i => nth i (snd r) VNaN)
                                          (flat_map snd groups)))
                    (rows df) |}).

(** Column labels of the frames of a [concat], in order of first
    appearance. *)
Definition add_labels (acc cols : list string) : list string :=
  fold_left (fun a c => if mem c a then a else a ++ [c]) cols acc.

Definition union_labels (dfs : list DataFrame) : list string :=
  fold_left (fun acc df => add_labels acc (columns df)) dfs [].

(** One row laid out on the labels [target]; a missing cell is NaN. *)
Definition reindex (source target : list string) (cells : list value)
  : list value :=
  map (fun c => match position c source with
                | Some i => nth i cells VNaN
                | None => VNaN
                end) target.

(** [pd.concat(dfs, ignore_index=True)]: frames with the same column
    labels are stacked as they are; otherwise every frame is laid out on
    the union of the labels, which a frame that carries a label twice
    does not allow. *)
Definition concat (dfs : list DataFrame) : Res DataFrame :=
  match dfs with
  | [] => Err (ValueError "No objects to concatenate")
  | df0 :: rest =>
      if forallb (fun df => labels_eqb (columns df) (columns df0)) rest then
        Ok {| index_names := [];
              columns := columns df0;
              rows := flat_map (fun df => map (fun r => ([], snd r)) (rows df))
                               dfs |}
      else if existsb (fun df => has_duplicates (columns df)) dfs then
        Err (InvalidIndexError
               "Reindexing only valid with uniquely valued Index objects")
      else
        let labels := union_labels dfs in
        Ok {| index_names := [];
              columns := labels;
              rows := flat_map (fun df =>
                        map (fun r => ([], reindex (columns df) labels (snd r)))
                            (rows df)) dfs |}
  end.

(** The sort key of a cell of a date column. *)
Definition date_key (v : value) : Res Z :=
  match v with
  | VDate d => Ok d
  | _ => Err (TypeError "'<' not supported between instances")
  end.

Fixpoint insert_by_key {A} (x : Z * A) (l : list (Z * A)) : list (Z * A) :=
  match l with
  | [] => [x]
  | y :: ys => if fst x <? fst y then x :: y :: ys else y :: insert_by_key x ys
  end.

Definition sort_by_key {A} (l : list (Z * A)) : list (Z * A) :=
  fold_right insert_by_key [] l.

(** The rows of [df] paired with their key in column [by]. *)
Definition keyed_rows (by_ : string) (df : DataFrame)
  : Res (list (Z * (list value * list value))) :=
  res_bind (locate by_ (columns df)) (fun i =>
  res_map (fun r => res_bind (date_key (nth i (snd r) VNaN)) (fun k => Ok (k, r)))
          (rows df)).

(** [df.sort_values(by)] for a column of dates (the only use the loader
    makes of it); the relative order of rows with equal keys is not
    relied upon. *)
Definition sort_values (by_ : string) (df : DataFrame) : Res DataFrame :=
  res_bind (keyed_rows by_ df) (fun krs =>
  Ok {| index_names := index_names df;
        columns := columns df;
        rows := map snd (sort_by_key krs) |}).

(** [df[name].min()] and [df[name].max()] for a non-empty column of dates
    (the loader takes them of a frame it has sorted by that column, whose
    label is therefore unambiguous). *)
Definition column_min (name : string) (df : DataFrame) : Res Z :=
  res_bind (keyed_rows name df) (fun krs =>
  match map fst krs with
  | [] => Err (ValueError "min of an empty column")
  | k :: ks => Ok (fold_left Z.min ks k)
  end).

Definition column_max (name : string) (df : DataFrame) : Res Z :=
  res_bind (keyed_rows name df) (fun krs =>
  match map fst krs with
  | [] => Err (ValueError "max of an empty column")
  | k :: ks => Ok (fold_left Z.max ks k)
  end).

(** What [df.to_csv(path, index=False)] puts in the file: the header and
    the data cells of every row, in order. *)
Definition csv_content (df : DataFrame) : list string * list (list value) :=
  (columns df, map snd (rows df)).

End Pandas.

Import Pandas.

(* ===================================================================== *)
(** ** The outside world *)

(** The keyword arguments a [StockBarsRequest] is built from. *)
Inductive TimeFrameUnit : Type := Minute | Hour | Day | Week | Month.

Inductive Arg : Type :=
| ArgStr (s : string)
| ArgTimeFrame (amount : Z) (unit : TimeFrameUnit)
| ArgDatetime (t : datetime)
| ArgInt (n : Z).

Definition Kwargs : Type := list (string * Arg).

Fixpoint kwarg (name : string) (kw : Kwargs) : option Arg :=
  match kw with
  | [] => None
  | (k, v) :: kw' => if String.eqb name k then Some v else kwarg name kw'
  end.

(** What [get_stock_bars(req).df] does: raise, or evaluate to a frame (or
    [None]). *)
Inductive ProviderReply : Type :=
| Raises (e : Exn)
| Replies (df : option DataFrame).

(** One interaction with the outside world. *)
Inductive Event : Type :=
| EGetStockBars (req : Kwargs)
| EPrint (line : string)
| ESleep (seconds : Z)
| ENow (t : datetime)
| EMakedirs (path : string)
| EToCsv (path : string) (content : list string * list (list value)).

Definition Trace : Type := list Event.

(** Everything the loader calls but does not define.  Each oracle sees the
    trace of what happened before the call, so it may answer differently
    from one call to the next. *)
Record Env : Type := mkEnv {
  (** [stock_historical_data_client.get_stock_bars(req).df] *)
  get_stock_bars : Trace -> Kwargs -> ProviderReply;
  (** [pd.to_datetime] on one cell *)
  pd_to_datetime : value -> Res datetime;
  (** [datetime.now(ZoneInfo("America/New_York"))] *)
  datetime_now : Trace -> datetime;
  (** [os.makedirs(path, exist_ok=True)]: [Some e] when it raises [e] *)
  os_makedirs : Trace -> string -> option Exn;
  (** [df.to_csv(path, index=False)]: [Some e] when it raises [e] *)
  df_to_csv : Trace -> string -> list string * list (list value) -> option Exn;
  (** the readings of the clock are readings of a system clock *)
  clock_in_range : forall tr, clock_min <= datetime_now tr <= clock_max
}.

(* ===================================================================== *)
(** ** Computations: a trace, an exception, or no more fuel *)

Inductive Outcome (A : Type) : Type :=
| Return (a : A)
| Raise (e : Exn)
| OutOfFuel.
Arguments Return {A} a.
Arguments Raise {A} e.
Arguments OutOfFuel {A}.

Definition M (A : Type) : Type := Trace -> Outcome A * Trace.

Definition ret {A} (a : A) : M A := fun tr => (Return a, tr).

Definition bind {A B} (m : M A) (k : A -> M B) : M B :=
  fun tr =>
    match m tr with
    | (Return a, tr') => k a tr'
    | (Raise e, tr') => (Raise e, tr')
    | (OutOfFuel, tr') => (OutOfFuel, tr')
    end.

Definition out_of_fuel {A} : M A := fun tr => (OutOfFuel, tr).

Definition lift {A} (r : Res A) : M A :=
  fun tr =>
    match r with
    | Ok a => (Return a, tr)
    | Err e => (Raise e, tr)
    end.

(** [try: body except Exception as e: handler(e)] *)
Definition try_except {A} (body : M A) (handler : Exn -> M A) : M A :=
  fun tr =>
    match body tr with
    | (Raise e, tr') => handler e tr'
    | other => other
    end.

Declare Scope monad_scope.
Delimit Scope monad_scope with monad.
Notation "x <- c ;; k" := (bind c (fun x => k))
  (at level 61, c at next level, right associativity) : monad_scope.
Notation "c ;; k" := (bind c (fun _ => k))
  (at level 61, right associativity) : monad_scope.
Open Scope monad_scope.

Fixpoint for_each {A} (l : list A) (body : A -> M unit) : M unit :=
  match l with
  | [] => ret tt
  | x :: xs => body x ;; for_each xs body
  end.

(** [range(start, stop, step)] *)
Definition py_range (start stop step : Z) : Res (list Z) :=
  if step =? 0 then Err (ValueError "range() arg 3 must not be zero")
  else
    let n := if 0 <? step
             then (stop - start + step - 1) / step
             else (start - stop - step - 1) / (- step) in
    Ok (map (fun k => start + Z.of_nat k * step) (seq 0 (Z.to_nat n))).

(** [l[a:b]] *)
Definition slice {A} (l : list A) (a b : Z) : list A :=
  let len := Z.of_nat (List.length l) in
  let norm := fun x => if x <? 0 then Z.max 0 (x + len) else Z.min x len in
  firstn (Z.to_nat (norm b - norm a)) (skipn (Z.to_nat (norm a)) l).

(* ===================================================================== *)
(** ** The loader *)

Section Loader.

Variable env : Env.

Definition call_get_stock_bars (req : Kwargs) : M (option DataFrame) :=
  fun tr =>
    match get_stock_bars env tr req with
    | Raises e => (Raise e, tr ++ [EGetStockBars req])
    | Replies df => (Return df, tr ++ [EGetStockBars req])
    end.

Definition print (line : string) : M unit :=
  fun tr => (Return tt, tr ++ [EPrint line]).

Definition sleep (seconds : Z) : M unit :=
  fun tr => (Return tt, tr ++ [ESleep seconds]).

Definition now : M datetime :=
  fun tr => let t := datetime_now env tr in (Return t, tr ++ [ENow t]).

Definition makedirs (path : string) : M unit :=
  fun tr =>
    match os_makedirs env tr path with
    | Some e => (Raise e, tr ++ [EMakedirs path])
    | None => (Return tt, tr ++ [EMakedirs path])
    end.

Definition to_csv (path : string) (df : DataFrame) : M unit :=
  fun tr =>
    match df_to_csv env tr path (csv_content df) with
    | Some e => (Raise e, tr ++ [EToCsv path (csv_content df)])
    | None => (Return tt, tr ++ [EToCsv path (csv_content df)])
    end.

Definition canonical_columns : list string :=
  ["Date"; "Symbol"; "Open"; "High"; "Low"; "Close"; "Volume"].

Definition column_renames : list (string * string) :=
  [("symbol", "Symbol"); ("open", "Open"); ("high", "High");
   ("low", "Low"); ("close", "Close"); ("volume", "Volume")].

(** [StockBarsRequest(symbol_or_symbols=symbol, timeframe=TimeFrame(1, Day),
    start=start_date, end_date=end_date, limit=1000)] *)
Definition StockBarsRequest (symbol : string) (start_date end_date : datetime)
  : Kwargs :=
  [("symbol_or_symbols", ArgStr symbol);
   ("timeframe", ArgTimeFrame 1 Day);
   ("start", ArgDatetime start_date);
   ("end_date", ArgDatetime end_date);
   ("limit", ArgInt 1000)].

(** [pd.to_datetime(sel).dt.date] for the selection [sel = df[name]]: the
    dates of a Series; of a frame whose columns all carry one label,
    [pd.to_datetime] makes a [ValueError]. *)
Definition to_dates (sel : list (list value)) : Res (list value) :=
  match sel with
  | [col] =>
      res_map (fun v => res_bind (pd_to_datetime env v)
                                 (fun t => Ok (VDate (date_of t))))
              col
  | _ => Err (ValueError "cannot assemble with duplicate keys")
  end.

(** The formatting steps of [fetch_historical_data_chunk], lines 61-73. *)
Definition format_chunk (df : DataFrame) : Res DataFrame :=
  res_bind (reset_index df) (fun df =>
  res_bind (get_column "timestamp" df) (fun ts =>
  res_bind (to_dates ts) (fun dates =>
  res_bind (set_column "Date" dates df) (fun df =>
  let df := rename column_renames df in
  select canonical_columns df)))).

Definition chunk_diagnostic (symbol : string) (e : Exn) : string :=
  ("Error fetching data chunk for " ++ symbol ++ ": " ++ exn_str e)%string.

Definition fetch_historical_data_chunk
  (symbol : string) (start_date end_date : datetime) : M (option DataFrame) :=
  try_except
    (let req := StockBarsRequest symbol start_date end_date in
     df <- call_get_stock_bars req ;;
     match df with
     | None => ret None
     | Some df =>
         if empty df then ret None
         else
           df <- lift (format_chunk df) ;;
           ret (Some df)
     end)
    (fun e =>
       print (chunk_diagnostic symbol e) ;;
       ret None).

(** The [while current_start < end_date] loop of [fetch_historical_data],
    lines 85-99. *)
Fixpoint fetch_loop (fuel : nat) (symbol : string) (end_date : datetime)
  (current_start : datetime) (all_data : list DataFrame)
  : M (list DataFrame) :=
  if current_start <? end_date then
    match fuel with
    | O => out_of_fuel
    | S fuel' =>
        limit <- lift (add_timedelta current_start (timedelta 1000)) ;;
        let chunk_end := Z.min limit end_date in
        chunk_df <- fetch_historical_data_chunk symbol current_start chunk_end ;;
        let all_data :=
          match chunk_df with
          | Some df => if negb (empty df) then all_data ++ [df] else all_data
          | None => all_data
          end in
        current_start <- lift (add_timedelta chunk_end (timedelta 1)) ;;
        sleep 1 ;;
        fetch_loop fuel' symbol end_date current_start all_data
    end
  else ret all_data.

(** The fuel the loop is run with: a bound of the iterations it makes
    between two instants (see [processing_terminates]). *)
Definition loop_fuel (start_date end_date : datetime) : nat :=
  Z.to_nat ((end_date - start_date) / timedelta 1001 + 1).

Definition fetch_historical_data
  (symbol : string) (start_date end_date : datetime) : M (option DataFrame) :=
  all_data <- fetch_loop (loop_fuel start_date end_date) symbol end_date start_date [] ;;
  match all_data with
  | [] => ret None
  | _ =>
      df <- lift (concat all_data) ;;
      ret (Some df)
  end.

Definition output_dir_name (start_date end_date : datetime) : string :=
  ("market_data_export_" ++ strftime_ymd start_date ++ "_to_"
     ++ strftime_ymd end_date)%string.

Definition output_file_name (output_dir symbol : string) : string :=
  (output_dir ++ "/" ++ symbol ++ "_data.csv")%string.

(** The body of the inner [for symbol in batch] loop. *)
Definition process_symbol (symbol : string) : M unit :=
  end_date <- now ;;
  start_date <- lift (add_timedelta end_date (- timedelta (5 * 365))) ;;
  let output_dir := output_dir_name start_date end_date in
  makedirs output_dir ;;
  df <- fetch_historical_data symbol start_date end_date ;;
  match df with
  | Some df =>
      if negb (empty df) then
        df <- lift (sort_values "Date" df) ;;
        let output_file := output_file_name output_dir symbol in
        to_csv output_file df ;;
        dmin <- lift (column_min "Date" df) ;;
        dmax <- lift (column_max "Date" df) ;;
        print ("Saved data for " ++ symbol ++ " from " ++ isoformat dmin
                 ++ " to " ++ isoformat dmax)%string
      else ret tt
  | None => ret tt
  end ;;
  sleep 1.

Definition batch_banner (symbols : list string) (batch_size i : Z) : string :=
  let len := Z.of_nat (List.length symbols) in
  ("Processing batch " ++ str_of_Z (i / batch_size + 1) ++ " of "
     ++ str_of_Z ((len + batch_size - 1) / batch_size))%string.

Definition process_symbols_in_batches (symbols : list string) (batch_size : Z)
  : M unit :=
  starts <- lift (py_range 0 (Z.of_nat (List.length symbols)) batch_size) ;;
  for_each starts (fun i =>
    let batch := slice symbols i (i + batch_size) in
    print (batch_banner symbols batch_size i) ;;
    for_each batch process_symbol).

End Loader.

(* ===================================================================== *)
(** ** Vocabulary of the properties *)

Arguments timedelta : simpl never.

(** The windows the loop of [fetch_historical_data] goes through when no
    date it computes leaves the range of [datetime]: the
    [(current_start, chunk_end)] pair of each iteration. *)
Fixpoint plan_windows (fuel : nat) (current_start end_date : datetime)
  : list (datetime * datetime) :=
  if current_start <? end_date then
    match fuel with
    | O => []
    | S fuel' =>
        let chunk_end := Z.min (current_start + timedelta 1000) end_date in
        (current_start, chunk_end)
          :: plan_windows fuel' (chunk_end + timedelta 1) end_date
    end
  else [].

Definition windows (start_date end_date : datetime) : list (datetime * datetime) :=
  plan_windows (loop_fuel start_date end_date) start_date end_date.

(** The time bounds a provider call was given, read back from the trace. *)
Definition requested_window (ev : Event) : list (datetime * datetime) :=
  match ev with
  | EGetStockBars kw =>
      match kwarg "start" kw, kwarg "end_date" kw with
      | Some (ArgDatetime s), Some (ArgDatetime e) => [(s, e)]
      | _, _ => []
      end
  | _ => []
  end.

Definition requested_windows (tr : Trace) : list (datetime * datetime) :=
  flat_map requested_window tr.

(** A range whose dates the loop can compute: it starts in the range of
    [datetime] and ends at least 1000 days before the end of it. *)
Definition within_range (start_date end_date : datetime) : Prop :=
  datetime_min <= start_date /\ end_date + timedelta 1000 <= datetime_max.

(** Each window begins exactly one day after the end of the one before. *)
Fixpoint contiguous (ws : list (datetime * datetime)) : Prop :=
  match ws with
  | w1 :: (w2 :: _) as rest => fst w2 = snd w1 + timedelta 1 /\ contiguous rest
  | _ => True
  end.

(** The windows [ws] cover exactly [[start_date, end_date]]. *)
Definition covers_exactly (start_date end_date : datetime)
  (ws : list (datetime * datetime)) : Prop :=
  option_map fst (hd_error ws) = Some start_date /\
  option_map snd (hd_error (rev ws)) = Some end_date /\
  Forall (fun w => snd w - fst w <= timedelta 1000) ws /\
  contiguous ws.

(** What one call of [fetch_historical_data_chunk] returns and the events it
    adds, read off the provider's reply. *)
Definition chunk_outcome (env : Env) (tr : Trace) (symbol : string)
  (start_date end_date : datetime) : option DataFrame * Trace :=
  let req := StockBarsRequest symbol start_date end_date in
  match get_stock_bars env tr req with
  | Raises ex => (None, [EGetStockBars req; EPrint (chunk_diagnostic symbol ex)])
  | Replies None => (None, [EGetStockBars req])
  | Replies (Some df) =>
      if empty df then (None, [EGetStockBars req])
      else
        match format_chunk env df with
        | Ok df' => (Some df', [EGetStockBars req])
        | Err ex => (None, [EGetStockBars req; EPrint (chunk_diagnostic symbol ex)])
        end
  end.

(** The exception raised inside the [try] block of the chunk fetch, if any:
    by the provider call or by the formatting of its reply. *)
Definition raised_in_chunk (env : Env) (tr : Trace) (symbol : string)
  (start_date end_date : datetime) : option Exn :=
  match get_stock_bars env tr (StockBarsRequest symbol start_date end_date) with
  | Raises ex => Some ex
  | Replies None => None
  | Replies (Some df) =>
      if empty df then None
      else match format_chunk env df with
           | Ok _ => None
           | Err ex => Some ex
           end
  end.

(** The chunk results of the windows [ws], fetched in order from [tr], each
    fetch followed by the pacing sleep; and the trace after the last one. *)
Fixpoint run_windows (env : Env) (symbol : string)
  (ws : list (datetime * datetime)) (tr : Trace)
  : list (option DataFrame) * Trace :=
  match ws with
  | [] => ([], tr)
  | (s, e) :: ws' =>
      let (o, tr1) := fetch_historical_data_chunk env symbol s e tr in
      let r := match o with
               | Return r => r
               | _ => None
               end in
      let (rs, tr2) := run_windows env symbol ws' (tr1 ++ [ESleep 1]) in
      (r :: rs, tr2)
  end.

(** A chunk result that brings no rows. *)
Definition no_data (r : option DataFrame) : bool :=
  match r with
  | Some df => empty df
  | None => true
  end.

(** The chunk results that bring rows, in order. *)
Definition kept (rs : list (option DataFrame)) : list DataFrame :=
  flat_map (fun r => match r with
                     | Some df => if negb (empty df) then [df] else []
                     | None => []
                     end) rs.

(** The rows of the frames [dfs] one after the other, under the canonical
    columns. *)
Definition stack (dfs : list DataFrame) : DataFrame :=
  {| index_names := []; columns := canonical_columns; rows := flat_map rows dfs |}.

Definition assemble (dfs : list DataFrame) : option DataFrame :=
  match dfs with
  | [] => None
  | _ => Some (stack dfs)
  end.

(** What the end of [fetch_historical_data] makes of the frames collected:
    [None] of none, else their [pd.concat]. *)
Definition concatenated (dfs : list DataFrame) : Res (option DataFrame) :=
  match dfs with
  | [] => Ok None
  | _ => res_bind (concat dfs) (fun df => Ok (Some df))
  end.

(** A frame in the shape the chunk fetch returns of a provider frame whose
    labels are unambiguous: no index levels, the canonical columns, seven
    cells per row, the first of them a date. *)
Definition canonical_row (r : list value * list value) : Prop :=
  fst r = [] /\ List.length (snd r) = 7%nat /\ exists d, nth 0 (snd r) VNaN = VDate d.

Definition canonical (df : DataFrame) : Prop :=
  index_names df = [] /\ columns df = canonical_columns /\
  Forall canonical_row (rows df).

(** What holds of every frame the chunk fetch returns: no index levels, a
    first column [Date], a date in the first cell of every row. *)
Definition dated_row (r : list value * list value) : Prop :=
  fst r = [] /\ exists d, nth 0 (snd r) VNaN = VDate d.

Definition dated (df : DataFrame) : Prop :=
  index_names df = [] /\ hd_error (columns df) = Some "Date" /\
  Forall dated_row (rows df).

(** Fuel [n] is enough for the loop started at [cs]. *)
Definition enough (n : nat) (cs e : datetime) : Prop :=
  cs < e -> (e - cs) / timedelta 1001 < Z.of_nat n.

(** A column label after [df.rename(columns=column_renames)]. *)
Definition renamed (c : string) : string :=
  match assoc c column_renames with
  | Some c' => c'
  | None => c
  end.

(** A provider frame with unambiguous labels: no two of its labels, index
    levels and columns together, are the same once the columns are
    renamed. *)
Definition plain (df : DataFrame) : Prop :=
  NoDup (map renamed (index_names df ++ columns df)).

(** A provider all of whose frames have unambiguous labels. *)
Definition plain_provider (env : Env) : Prop :=
  forall tr req df, get_stock_bars env tr req = Replies (Some df) -> plain df.

(** The cells of column [name] of a file's content. *)
Definition csv_column (name : string) (content : list string * list (list value))
  : option (list value) :=
  match position name (fst content) with
  | Some i => Some (map (fun cells => nth i cells VNaN) (snd content))
  | None => None
  end.

(** The rows of a file are in ascending order of their [Date] cell. *)
Definition sorted_by_Date (content : list string * list (list value)) : Prop :=
  exists ds, csv_column "Date" content = Some (map VDate ds) /\
             StronglySorted Z.le ds.

(** No two rows of a file have the same [Date] cell. *)
Definition distinct_dates (content : list string * list (list value)) : Prop :=
  exists col, csv_column "Date" content = Some col /\ NoDup col.

(** The events the fetches of the windows [ws] add to [tr]: those of each
    chunk fetch, then the pacing sleep. *)
Fixpoint window_events (env : Env) (symbol : string)
  (ws : list (datetime * datetime)) (tr : Trace) : Trace :=
  match ws with
  | [] => []
  | (s, e) :: ws' =>
      let em := snd (chunk_outcome env tr symbol s e) ++ [ESleep 1] in
      em ++ window_events env symbol ws' (tr ++ em)
  end.

(** The provider calls of a trace. *)
Definition request_of (ev : Event) : list Kwargs :=
  match ev with
  | EGetStockBars req => [req]
  | _ => []
  end.

Definition requests_of (tr : Trace) : list Kwargs := flat_map request_of tr.

(** *** One symbol *)

(** The clock reading, directory and file of the symbol processed from
    trace [tr]. *)
Definition symbol_end (env : Env) (tr : Trace) : datetime := datetime_now env tr.

Definition symbol_start (env : Env) (tr : Trace) : datetime :=
  symbol_end env tr - timedelta (5 * 365).

Definition symbol_dir (env : Env) (tr : Trace) : string :=
  output_dir_name (symbol_start env tr) (symbol_end env tr).

Definition symbol_file (env : Env) (symbol : string) (tr : Trace) : string :=
  output_file_name (symbol_dir env tr) symbol.

(** Reading the clock and creating the directory. *)
Definition symbol_head (env : Env) (tr : Trace) : Trace :=
  [ENow (symbol_end env tr); EMakedirs (symbol_dir env tr)].

(** The events of the symbol's chunk fetches. *)
Definition symbol_fetched (env : Env) (symbol : string) (tr : Trace) : Trace :=
  window_events env symbol (windows (symbol_start env tr) (symbol_end env tr))
                (tr ++ symbol_head env tr).

(** The frames collected for the symbol, and what
    [fetch_historical_data] makes of them. *)
Definition symbol_chunks (env : Env) (symbol : string) (tr : Trace)
  : list DataFrame :=
  kept (fst (run_windows env symbol
               (windows (symbol_start env tr) (symbol_end env tr))
               (tr ++ symbol_head env tr))).

Definition symbol_frame (env : Env) (symbol : string) (tr : Trace)
  : Res (option DataFrame) :=
  concatenated (symbol_chunks env symbol tr).

(** The ways the body of the symbol loop can go, with the outcome and the
    events it adds to [tr]: the directory cannot be made; nothing is
    fetched; [pd.concat] or [sort_values] raises; the file is written; the
    write fails. *)
Inductive symbol_run (env : Env) (symbol : string) (tr : Trace)
  : Outcome unit -> Trace -> Prop :=
| makedirs_failed ex :
    os_makedirs env (tr ++ [ENow (symbol_end env tr)]) (symbol_dir env tr) = Some ex ->
    symbol_run env symbol tr (Raise ex) (symbol_head env tr)
| nothing_fetched :
    os_makedirs env (tr ++ [ENow (symbol_end env tr)]) (symbol_dir env tr) = None ->
    symbol_frame env symbol tr = Ok None ->
    symbol_run env symbol tr (Return tt)
      (symbol_head env tr ++ symbol_fetched env symbol tr ++ [ESleep 1])
| concat_failed ex :
    os_makedirs env (tr ++ [ENow (symbol_end env tr)]) (symbol_dir env tr) = None ->
    symbol_frame env symbol tr = Err ex ->
    symbol_run env symbol tr (Raise ex)
      (symbol_head env tr ++ symbol_fetched env symbol tr)
| sort_failed df ex :
    os_makedirs env (tr ++ [ENow (symbol_end env tr)]) (symbol_dir env tr) = None ->
    symbol_frame env symbol tr = Ok (Some df) ->
    sort_values "Date" df = Err ex ->
    symbol_run env symbol tr (Raise ex)
      (symbol_head env tr ++ symbol_fetched env symbol tr)
| file_written df sorted line :
    os_makedirs env (tr ++ [ENow (symbol_end env tr)]) (symbol_dir env tr) = None ->
    symbol_frame env symbol tr = Ok (Some df) ->
    sort_values "Date" df = Ok sorted ->
    Permutation (rows df) (rows sorted) ->
    sorted_by_Date (csv_content sorted) ->
    df_to_csv env (tr ++ symbol_head env tr ++ symbol_fetched env symbol tr)
      (symbol_file env symbol tr) (csv_content sorted) = None ->
    symbol_run env symbol tr (Return tt)
      (symbol_head env tr ++ symbol_fetched env symbol tr
         ++ [EToCsv (symbol_file env symbol tr) (csv_content sorted);
             EPrint line; ESleep 1])
| write_failed df sorted ex :
    os_makedirs env (tr ++ [ENow (symbol_end env tr)]) (symbol_dir env tr) = None ->
    symbol_frame env symbol tr = Ok (Some df) ->
    sort_values "Date" df = Ok sorted ->
    Permutation (rows df) (rows sorted) ->
    sorted_by_Date (csv_content sorted) ->
    df_to_csv env (tr ++ symbol_head env tr ++ symbol_fetched env symbol tr)
      (symbol_file env symbol tr) (csv_content sorted) = Some ex ->
    symbol_run env symbol tr (Raise ex)
      (symbol_head env tr ++ symbol_fetched env symbol tr
         ++ [EToCsv (symbol_file env symbol tr) (csv_content sorted)]).

(** The export directory and a symbol's file as functions of the calendar
    date of the clock reading. *)
Definition export_dir (today : date) : string :=
  ("market_data_export_" ++ isoformat (today - 5 * 365) ++ "_to_"
     ++ isoformat today)%string.

Definition destination (today : date) (symbol : string) : string :=
  (export_dir today ++ "/" ++ symbol ++ "_data.csv")%string.

(** *** Whole runs *)

(** [m], run from any trace, only appends events, and the outcome and the
    events appended satisfy [P]. *)
Definition sat {A} (m : M A) (P : Trace -> Outcome A -> Trace -> Prop) : Prop :=
  forall tr, exists o em, m tr = (o, tr ++ em) /\ P tr o em.

(** [P] holds of doing nothing and of doing two things in a row. *)
Definition sequential (P : Trace -> Outcome unit -> Trace -> Prop) : Prop :=
  (forall tr, P tr (Return tt) []) /\
  (forall tr em1 o em2,
      P tr (Return tt) em1 -> P (tr ++ em1) o em2 -> P tr o (em1 ++ em2)).

(** The exception with which the environment fails a file-system operation
    attempted after [before]. *)
Definition failed_op (env : Env) (before : Trace) (ev : Event) : option Exn :=
  match ev with
  | EMakedirs path => os_makedirs env before path
  | EToCsv path content => df_to_csv env before path content
  | _ => None
  end.

(** The events [em] added after [before] stop at the first file-system
    operation that fails, and the outcome is then its exception. *)
Fixpoint halts_at_failure (env : Env) (before em : Trace) (o : Outcome unit)
  : Prop :=
  match em with
  | [] => True
  | ev :: em' =>
      match failed_op env before ev with
      | Some ex => em' = [] /\ o = Raise ex
      | None => halts_at_failure env (before ++ [ev]) em' o
      end
  end.

(** Where a run stands with respect to pacing. *)
Inductive Phase : Type :=
| Idle        (* between two symbols *)
| Started     (* clock read *)
| Fetching    (* directory made, or a chunk fetch paced *)
| Requested   (* provider called *)
| Diagnosed   (* chunk failure reported *)
| Written     (* file written *)
| Reported.   (* written file reported *)

(** The events a run may perform in each phase.  A provider call must be
    followed by a one-second sleep, with at most the failure diagnostic in
    between; a symbol ends with a one-second sleep, after its last paced
    fetch or after the report of its file. *)
Definition pacing_step (q : Phase) (ev : Event) : option Phase :=
  match q, ev with
  | Idle, EPrint _ => Some Idle
  | Idle, ENow _ => Some Started
  | Started, EMakedirs _ => Some Fetching
  | Fetching, EGetStockBars _ => Some Requested
  | Requested, EPrint _ => Some Diagnosed
  | Requested, ESleep 1 => Some Fetching
  | Diagnosed, ESleep 1 => Some Fetching
  | Fetching, EToCsv _ _ => Some Written
  | Fetching, ESleep 1 => Some Idle
  | Written, EPrint _ => Some Reported
  | Reported, ESleep 1 => Some Idle
  | _, _ => None
  end.

Fixpoint pacing_run (q : Phase) (tr : Trace) : option Phase :=
  match tr with
  | [] => Some q
  | ev :: tr' =>
      match pacing_step q ev with
      | Some q' => pacing_run q' tr'
      | None => None
      end
  end.

(** The phases a run may end in: a completed run between two symbols, an
    aborted one there, at the operation of the file system that failed, or
    after the last paced fetch of a symbol whose frame cannot be put
    together or sorted. *)
Definition final_phase (o : Outcome unit) (q : Phase) : Prop :=
  match o with
  | Return _ => q = Idle
  | Raise _ => q = Idle \/ q = Fetching \/ q = Written
  | OutOfFuel => False
  end.

(** A written file has its rows in date order, and the canonical header
    when the labels of the provider's frames are unambiguous. *)
Definition csv_ok (env : Env) (ev : Event) : Prop :=
  match ev with
  | EToCsv _ content =>
      sorted_by_Date content /\
      (plain_provider env -> fst content = canonical_columns)
  | _ => True
  end.

(** The kinds of event a chunk fetch and its pacing produce. *)
Definition fetch_event (ev : Event) : Prop :=
  match ev with
  | EGetStockBars _ | EPrint _ | ESleep _ => True
  | _ => False
  end.

(* ===================================================================== *)
(** ** Concrete worlds *)

Module Scenario.

(** One daily bar as the provider lays it out: indexed by symbol and
    timestamp, with two columns the loader does not keep. *)
Definition bar (symbol : string) (day price : Z) : list value * list value :=
  ([VStr symbol; VTimestamp (day * us_per_day + 4 * 3600 * us_per_second)],
   [VNum price; VNum (price + 2); VNum (price - 1); VNum (price + 1);
    VNum 1000; VNum 7; VNum price]).

(** The bars on record for every symbol: 2023-05-23, 2024-10-04,
    2026-09-04 and 2026-11-02. *)
Definition history (symbol : string) : list (list value * list value) :=
  [bar symbol 19500 105; bar symbol 20000 101; bar symbol 20700 101;
   bar symbol 20759 104].

Definition timestamp_of (r : list value * list value) : Z :=
  match fst r with
  | [_; VTimestamp t] => t
  | _ => 0
  end.

Definition bar_columns : list string :=
  ["open"; "high"; "low"; "close"; "volume"; "trade_count"; "vwap"].

(** A provider that answers by its contract: the bars of the symbol from
    the request's [start] to its [end], unbounded on a side the request
    does not give, at most [limit] of them.  (The offset between the
    zones of the bounds and of the bars is left out.) *)
Definition provider (tr : Trace) (req : Kwargs) : ProviderReply :=
  match kwarg "symbol_or_symbols" req with
  | Some (ArgStr symbol) =>
      let after_start := fun r =>
        match kwarg "start" req with
        | Some (ArgDatetime s) => s <=? timestamp_of r
        | _ => true
        end in
      let before_end := fun r =>
        match kwarg "end" req with
        | Some (ArgDatetime e) => timestamp_of r <=? e
        | _ => true
        end in
      let limit :=
        match kwarg "limit" req with
        | Some (ArgInt n) => Z.to_nat n
        | _ => List.length (history symbol)
        end in
      Replies (Some {| index_names := ["symbol"; "timestamp"];
                       columns := bar_columns;
                       rows := firstn limit
                                 (filter (fun r => after_start r && before_end r)
                                         (history symbol)) |})
  | _ => Raises (mkExn "ValidationError" "symbol_or_symbols: field required")
  end.

Definition to_datetime (v : value) : Res datetime :=
  match v with
  | VTimestamp t => Ok t
  | VDate d => Ok (d * us_per_day)
  | _ => Err (TypeError "not convertible to datetime")
  end.

(** A clock that moves only while the loader sleeps, and stops at the
    ends of the range of a system clock. *)
Definition slept (tr : Trace) : Z :=
  fold_right (fun ev acc => match ev with
                            | ESleep n => n + acc
                            | _ => acc
                            end) 0 tr.

Definition clock (t0 : datetime) (tr : Trace) : datetime :=
  Z.max clock_min (Z.min clock_max (t0 + slept tr * us_per_second)).

Definition clock_bounded (t0 : datetime) (tr : Trace)
  : clock_min <= clock t0 tr <= clock_max :=
  conj (Z.le_max_l _ _)
       (Z.max_lub _ _ _ (proj1 (Z.leb_le clock_min clock_max) eq_refl)
                  (Z.le_min_l _ _)).

(** The world started at [t0]: the provider above and a file system that
    never fails. *)
Definition world (t0 : datetime) : Env :=
  {| get_stock_bars := provider;
     pd_to_datetime := to_datetime;
     datetime_now := clock t0;
     os_makedirs := fun _ _ => None;
     df_to_csv := fun _ _ _ => None;
     clock_in_range := clock_bounded t0 |}.

(** 2026-11-03 at 12:00:00 and at 23:59:59. *)
Definition noon : datetime := 20760 * us_per_day + 12 * 3600 * us_per_second.
Definition late_evening : datetime := 20760 * us_per_day + 86399 * us_per_second.

Definition connection_error : Exn := mkExn "ConnectionError" "connection refused".

(** The provider cannot be reached. *)
Definition unreachable : Env :=
  {| get_stock_bars := fun _ _ => Raises connection_error;
     pd_to_datetime := to_datetime;
     datetime_now := clock noon;
     os_makedirs := fun _ _ => None;
     df_to_csv := fun _ _ _ => None;
     clock_in_range := clock_bounded noon |}.

(** The provider has no bars at all. *)
Definition silent : Env :=
  {| get_stock_bars := fun _ _ =>
       Replies (Some {| index_names := ["symbol"; "timestamp"];
                        columns := bar_columns;
                        rows := [] |});
     pd_to_datetime := to_datetime;
     datetime_now := clock noon;
     os_makedirs := fun _ _ => None;
     df_to_csv := fun _ _ _ => None;
     clock_in_range := clock_bounded noon |}.

(** The provider's frame has no [timestamp] level. *)
Definition malformed : Env :=
  {| get_stock_bars := fun _ _ =>
       Replies (Some {| index_names := ["symbol"];
                        columns := bar_columns;
                        rows := [([VStr "TEST"],
                                  [VNum 105; VNum 107; VNum 104; VNum 106;
                                   VNum 1000; VNum 7; VNum 105])] |});
     pd_to_datetime := to_datetime;
     datetime_now := clock noon;
     os_makedirs := fun _ _ => None;
     df_to_csv := fun _ _ _ => None;
     clock_in_range := clock_bounded noon |}.

Definition no_space : Exn := mkExn "OSError" "[Errno 28] No space left on device".

Definition wrote_a_file (tr : Trace) : bool :=
  existsb (fun ev => match ev with
                     | EToCsv _ _ => true
                     | _ => false
                     end) tr.

(** The disk is full once one file has been written. *)
Definition full_disk : Env :=
  {| get_stock_bars := provider;
     pd_to_datetime := to_datetime;
     datetime_now := clock noon;
     os_makedirs := fun _ _ => None;
     df_to_csv := fun tr _ _ => if wrote_a_file tr then Some no_space else None;
     clock_in_range := clock_bounded noon |}.

(** Three runs used below. *)
Definition noon_run : Outcome unit * Trace :=
  process_symbols_in_batches (world noon) ["TEST"] 50 [].

Definition midnight_run : Outcome unit * Trace :=
  process_symbols_in_batches (world late_evening) ["AAPL"; "MSFT"] 50 [].

Definition full_disk_run : Outcome unit * Trace :=
  process_symbols_in_batches full_disk ["AAPL"; "MSFT"; "NVDA"] 50 [].

End Scenario.

(** In the events [em] of a run, a directory or file [ev] is named after
    the calendar date of a clock reading of that run. *)
Definition clocked (em : Trace) (ev : Event) : Prop :=
  match ev with
  | EMakedirs path =>
      exists t, In (ENow t) em /\ path = export_dir (date_of t)
  | EToCsv path _ =>
      exists t symbol, In (ENow t) em /\ path = destination (date_of t) symbol
  | _ => True
  end.

(* ===================================================================== *)
(** ** The symbol source and [main] *)

Module Bs4.

(** A parsed document: tags with their name, the values of their [class]
    attribute and their children, and the strings between them. *)
#[warnings="-register-all"]
Inductive Node : Type :=
| Tag (name : string) (classes : list string) (children : list Node)
| NavigableString (s : string).

(** The nodes below [n], in document order. *)
Fixpoint descendants (n : Node) : list Node :=
  match n with
  | Tag _ _ children => flat_map (fun c => c :: descendants c) children
  | NavigableString _ => []
  end.

Definition is_tag (name : string) (n : Node) : bool :=
  match n with
  | Tag name' _ _ => String.eqb name name'
  | NavigableString _ => false
  end.

Definition has_class (cls : string) (n : Node) : bool :=
  match n with
  | Tag _ classes _ => mem cls classes
  | NavigableString _ => false
  end.

(** [n.find_all(name)] *)
Definition find_all (name : string) (n : Node) : list Node :=
  filter (is_tag name) (descendants n).

(** [n.find(name, {'class': cls})]: the first match, or [None]. *)
Definition find (name cls : string) (n : Node) : option Node :=
  hd_error (filter (fun d => is_tag name d && has_class cls d)%bool (descendants n)).

(** [n.text] *)
Fixpoint text (n : Node) : string :=
  match n with
  | Tag _ _ children => String.concat "" (map text children)
  | NavigableString s => s
  end.

End Bs4.

(** The characters [c.isspace()] holds of, each by the bytes of its UTF-8
    encoding: U+0009 to U+000D, U+001C to U+0020, U+0085, U+00A0, U+1680,
    U+2000 to U+200A, U+2028, U+2029, U+202F, U+205F and U+3000. *)
Definition whitespace : list (list ascii) :=
  map (map ascii_of_nat)
      [[9]; [10]; [11]; [12]; [13]; [28]; [29]; [30]; [31]; [32];
       [194; 133]; [194; 160]; [225; 154; 128];
       [226; 128; 128]; [226; 128; 129]; [226; 128; 130]; [226; 128; 131];
       [226; 128; 132]; [226; 128; 133]; [226; 128; 134]; [226; 128; 135];
       [226; 128; 136]; [226; 128; 137]; [226; 128; 138];
       [226; 128; 168]; [226; 128; 169]; [226; 128; 175]; [226; 129; 159];
       [227; 128; 128]]%nat.

(** [l] without its prefix [p], when it begins with [p]. *)
Fixpoint strip_prefix (p l : list ascii) : option (list ascii) :=
  match p, l with
  | [], _ => Some l
  | a :: p', b :: l' => if Ascii.eqb a b then strip_prefix p' l' else None
  | _ :: _, [] => None
  end.

(** [l] without the character of [chars] it begins with, when it begins
    with one. *)
Fixpoint skip (chars : list (list ascii)) (l : list ascii) : option (list ascii) :=
  match chars with
  | [] => None
  | c :: chars' =>
      match strip_prefix c l with
      | Some l' => Some l'
      | None => skip chars' l
      end
  end.

(** [l] without the characters of [chars] it begins with, at most [fuel]
    of them. *)
Fixpoint lstrip_chars (chars : list (list ascii)) (fuel : nat) (l : list ascii)
  : list ascii :=
  match fuel with
  | O => l
  | S fuel' =>
      match skip chars l with
      | Some l' => lstrip_chars chars fuel' l'
      | None => l
      end
  end.

(** [s.strip()]: [s] without the whitespace at its two ends; the end of
    the string is stripped as the beginning of the string read
    backwards. *)
Definition strip (s : string) : string :=
  let l := list_ascii_of_string s in
  let l := lstrip_chars whitespace (List.length l) l in
  string_of_list_ascii
    (rev (lstrip_chars (map (@rev ascii) whitespace) (List.length l) (rev l))).

(** What [requests.get(url)] does: raise, or return a response whose text
    [BeautifulSoup(response.text, 'html.parser')] parses to [soup]. *)
Inductive HttpReply : Type :=
| GetRaises (e : Exn)
| GetReturns (soup : Bs4.Node).

Record Web : Type := mkWeb { requests_get : string -> HttpReply }.

Definition AttributeError (msg : string) : Exn := mkExn "AttributeError" msg.

Definition sp500_url : string :=
  "https://en.wikipedia.org/wiki/List_of_S%26P_500_companies".

(** The body of the [for row in table.find_all('tr')[1:]] loop: the symbol
    the row adds, if it has a [td]. *)
Definition row_symbol (row : Bs4.Node) : list string :=
  match Bs4.find_all "td" row with
  | [] => []
  | col :: _ => [strip (Bs4.text col)]
  end.

Definition fetch_sp500_symbols (web : Web) : Res (list string) :=
  match requests_get web sp500_url with
  | GetRaises e => Err e
  | GetReturns soup =>
      match Bs4.find "table" "wikitable" soup with
      | None => Err (AttributeError "'NoneType' object has no attribute 'find_all'")
      | Some table => Ok (flat_map row_symbol (tl (Bs4.find_all "tr" table)))
      end
  end.

Definition main (web : Web) (env : Env) : M unit :=
  print "Fetching S&P 500 symbols..." ;;
  symbols <- lift (fetch_sp500_symbols web) ;;
  print ("Found " ++ str_of_Z (Z.of_nat (List.length symbols)) ++ " symbols")%string ;;
  process_symbols_in_batches env symbols 50 ;;
  print "Data export completed!".

(** *** More vocabulary *)

(** The batches of the outer loop of [process_symbols_in_batches]. *)
Definition batches (symbols : list string) (batch_size : Z) : Res (list (list string)) :=
  res_bind (py_range 0 (Z.of_nat (List.length symbols)) batch_size) (fun starts =>
  Ok (map (fun i => slice symbols i (i + batch_size)) starts)).

(** The symbol a provider call asks for. *)
Definition requested_symbol (ev : Event) : list string :=
  match ev with
  | EGetStockBars req =>
      match kwarg "symbol_or_symbols" req with
      | Some (ArgStr s) => [s]
      | _ => []
      end
  | _ => []
  end.

(** The seconds of a sleep. *)
Definition slept_seconds (ev : Event) : list Z :=
  match ev with
  | ESleep n => [n]
  | _ => []
  end.

(** The directory a [makedirs] creates. *)
Definition made_dir (ev : Event) : list string :=
  match ev with
  | EMakedirs path => [path]
  | _ => []
  end.

Definition is_write (ev : Event) : bool :=
  match ev with
  | EToCsv _ _ => true
  | _ => false
  end.

(** A reply of the provider that brings no rows. *)
Definition no_rows (reply : ProviderReply) : Prop :=
  match reply with
  | Raises _ => True
  | Replies None => True
  | Replies (Some df) => empty df = true
  end.

(** A string with no whitespace at either end: it neither begins nor ends
    with a whitespace character. *)
Definition stripped (s : string) : Prop :=
  skip whitespace (list_ascii_of_string s) = None /\
  skip (map (@rev ascii) whitespace) (rev (list_ascii_of_string s)) = None.

(** A row of the provider's frame and the row the chunk fetch makes of it:
    the date of the timestamp, then symbol, open, high, low, close and
    volume as they came; further cells are dropped. *)
Definition normalized (env : Env) (r r' : list value * list value) : Prop :=
  exists sym ts t o h l c v rest,
    r = ([sym; ts], o :: h :: l :: c :: v :: rest) /\
    pd_to_datetime env ts = Ok t /\
    r' = ([], [VDate (date_of t); sym; o; h; l; c; v]).

(** A page for the symbol source: a table that is not the roster, then the
    roster with its header row, two data rows (the symbol of the second
    between a space and a no-break space, a space and a line end) and,
    between them, a row of header cells only. *)
Module Page.

Definition nl : string := String "010"%char "".

(** U+00A0, the space of [&nbsp;]. *)
Definition nbsp : string :=
  String (ascii_of_nat 194) (String (ascii_of_nat 160) "").

Definition cell (tag s : string) : Bs4.Node :=
  Bs4.Tag tag [] [Bs4.NavigableString s].

Definition roster : Bs4.Node :=
  Bs4.Tag "table" ["wikitable"; "sortable"]
    [Bs4.Tag "tbody" []
       [Bs4.Tag "tr" [] [cell "th" "Symbol"; cell "th" "Security"];
        Bs4.Tag "tr" []
          [Bs4.Tag "td" []
             [Bs4.Tag "a" ["external"] [Bs4.NavigableString "MMM"];
              Bs4.NavigableString nl];
           cell "td" "3M"];
        Bs4.Tag "tr" [] [cell "th" "Industrials"];
        Bs4.Tag "tr" [] [cell "td" (" AOS" ++ nbsp ++ " " ++ nl)%string; cell "td" "A. O. Smith"]]].

Definition soup : Bs4.Node :=
  Bs4.Tag "[document]" []
    [Bs4.Tag "html" []
       [Bs4.Tag "body" []
          [Bs4.Tag "table" ["infobox"] [Bs4.Tag "tr" [] [cell "td" "S&P 500"]];
           roster]]].

Definition wikipedia : Web := {| requests_get := fun _ => GetReturns soup |}.

(** The page of an error: no roster on it. *)
Definition not_found : Web :=
  {| requests_get := fun _ =>
       GetReturns (Bs4.Tag "[document]" [] [cell "p" "Not found"]) |}.

End Page.

(** [s] begins with [p]. *)
Fixpoint startswith (s p : string) {struct p} : bool :=
  match p with
  | EmptyString => true
  | String a p' =>
      match s with
      | EmptyString => false
      | String b s' => Ascii.eqb a b && startswith s' p'
      end
  end.

(** The batch banner a printed line is, if it is one. *)
Definition banner_line (ev : Event) : list string :=
  match ev with
  | EPrint line => if startswith line "Processing batch " then [line] else []
  | _ => []
  end.

(* ===================================================================== *)
(** ** The library models on known values *)

Example isoformat_epoch : isoformat 0 = "1970-01-01".
Proof. reflexivity. Qed.

Example isoformat_leap_day : isoformat 19782 = "2024-02-29".
Proof. reflexivity. Qed.

Example isoformat_before_epoch : isoformat (-1) = "1969-12-31".
Proof. reflexivity. Qed.

Example strftime_late_evening :
  strftime_ymd (20760 * us_per_day + 86399 * us_per_second) = "2026-11-03".
Proof. reflexivity. Qed.

Example datetime_min_day : civil_of_days (date_of datetime_min) = (1, 1, 1).
Proof. reflexivity. Qed.

Example datetime_max_day : civil_of_days (date_of datetime_max) = (9999, 12, 31).
Proof. reflexivity. Qed.

Example datetime_max_next : civil_of_days (date_of (datetime_max + 1)) = (10000, 1, 1).
Proof. reflexivity. Qed.

Example clock_range :
  isoformat (date_of clock_min) = "1677-09-21" /\
  isoformat (date_of clock_max) = "2262-04-12".
Proof. split; reflexivity. Qed.

Example add_timedelta_overflow :
  add_timedelta (timedelta 2932000) (timedelta 1000)
  = Err (OverflowError "date value out of range").
Proof. reflexivity. Qed.

Example py_range_batches : py_range 0 120 50 = Ok [0; 50; 100].
Proof. reflexivity. Qed.

Example py_range_negative_step : py_range 0 120 (-50) = Ok [].
Proof. reflexivity. Qed.

Example slice_last_batch : slice [1; 2; 3; 4; 5] 4 6 = [5].
Proof. reflexivity. Qed.

Example loader_windows :
  windows 0 (timedelta (5 * 365))
  = [(0, timedelta 1000); (timedelta 1001, timedelta 1825)].
Proof. reflexivity. Qed.

(* ===================================================================== *)
(** ** Window arithmetic *)

Lemma timedelta_1001 : timedelta 1001 = timedelta 1000 + timedelta 1.
Proof. reflexivity. Qed.

Lemma timedelta_1_pos : 0 < timedelta 1.
Proof. reflexivity. Qed.

Lemma plan_windows_unfold fuel cs e :
  plan_windows fuel cs e =
  if cs <? e then
    match fuel with
    | O => []
    | S fuel' =>
        (cs, Z.min (cs + timedelta 1000) e)
          :: plan_windows fuel' (Z.min (cs + timedelta 1000) e + timedelta 1) e
    end
  else [].
Proof. destruct fuel; reflexivity. Qed.

Lemma enough_loop_fuel s e : enough (loop_fuel s e) s e.
Proof.
  unfold enough, loop_fuel. intros H.
  assert (0 <= (e - s) / timedelta 1001)
    by (apply Z.div_pos; [lia | reflexivity]).
  rewrite Z2Nat.id; lia.
Qed.

Lemma enough_next n cs e :
  cs < e -> enough (S n) cs e ->
  enough n (Z.min (cs + timedelta 1000) e + timedelta 1) e.
Proof.
  unfold enough. intros Hlt Hn Hnext.
  specialize (Hn Hlt).
  pose proof timedelta_1_pos as H1.
  assert (Hmin : Z.min (cs + timedelta 1000) e = cs + timedelta 1000) by lia.
  rewrite Hmin in *.
  replace (e - (cs + timedelta 1000 + timedelta 1))
    with ((e - cs) + (-1) * timedelta 1001) by (rewrite timedelta_1001; ring).
  rewrite Z.div_add by discriminate. lia.
Qed.

Lemma enough_mono n m cs e : (n <= m)%nat -> enough n cs e -> enough m cs e.
Proof. unfold enough. intros Hnm H Hlt. specialize (H Hlt). lia. Qed.

Lemma enough_0 cs e : enough 0 cs e -> e <= cs.
Proof.
  unfold enough. intros H.
  destruct (Z_lt_le_dec cs e) as [Hlt | Hle]; [| exact Hle].
  specialize (H Hlt).
  assert (0 <= (e - cs) / timedelta 1001)
    by (apply Z.div_pos; [lia | reflexivity]).
  lia.
Qed.

(** With enough fuel the planned windows do not depend on the fuel. *)
Lemma plan_windows_enough n :
  forall cs e m, enough n cs e -> (n <= m)%nat ->
  plan_windows m cs e = plan_windows n cs e.
Proof.
  induction n as [| n IH]; intros cs e m Hn Hm.
  - apply enough_0 in Hn.
    rewrite (plan_windows_unfold m), (plan_windows_unfold 0).
    apply Z.ltb_ge in Hn. rewrite Hn. reflexivity.
  - rewrite (plan_windows_unfold m), (plan_windows_unfold (S n)).
    destruct (cs <? e) eqn:Hlt; [| reflexivity].
    apply Z.ltb_lt in Hlt.
    destruct m as [| m]; [lia |].
    f_equal. apply IH; [apply enough_next; assumption | lia].
Qed.

(** Every iteration moves [current_start] forward by more than a day. *)
Lemma next_start_advances cs e :
  cs < e -> cs + timedelta 1 < Z.min (cs + timedelta 1000) e + timedelta 1.
Proof. intros H. assert (0 < timedelta 1000) by reflexivity. lia. Qed.

Lemma plan_windows_first n cs e w ws :
  plan_windows n cs e = w :: ws -> fst w = cs.
Proof.
  rewrite plan_windows_unfold.
  destruct (cs <? e); [| discriminate].
  destruct n; [discriminate |].
  intros H. injection H as <- _. reflexivity.
Qed.

Lemma plan_windows_span n :
  forall cs e, Forall (fun w => snd w - fst w <= timedelta 1000) (plan_windows n cs e).
Proof.
  induction n as [| n IH]; intros cs e; rewrite plan_windows_unfold;
    destruct (cs <? e); constructor.
  - cbn [fst snd]. lia.
  - apply IH.
Qed.

Lemma plan_windows_contiguous n :
  forall cs e, contiguous (plan_windows n cs e).
Proof.
  induction n as [| n IH]; intros cs e; rewrite plan_windows_unfold;
    destruct (cs <? e); try exact I.
  specialize (IH (Z.min (cs + timedelta 1000) e + timedelta 1) e).
  destruct (plan_windows n _ e) as [| w2 rest] eqn:Hrest; [exact I |].
  split; [| exact IH].
  apply plan_windows_first in Hrest. exact Hrest.
Qed.

(** With enough fuel, the last window ends at [end_date] or within the day
    before it: the loop stops as soon as the next start is not before
    [end_date]. *)
Lemma plan_windows_last n :
  forall cs e, enough n cs e -> cs < e ->
  exists w, hd_error (rev (plan_windows n cs e)) = Some w /\
            snd w <= e <= snd w + timedelta 1 /\ (snd w < e -> timedelta 1000 <= snd w - fst w).
Proof.
  induction n as [| n IH]; intros cs e Hn Hlt.
  - apply enough_0 in Hn. lia.
  - rewrite plan_windows_unfold.
    destruct (cs <? e) eqn:Hb; [| apply Z.ltb_ge in Hb; lia].
    set (ce := Z.min (cs + timedelta 1000) e).
    destruct (Z_lt_le_dec (ce + timedelta 1) e) as [Hnext | Hstop].
    + destruct (IH (ce + timedelta 1) e) as (w & Hw & Hbounds);
        [apply enough_next; assumption | exact Hnext |].
      exists w. split; [| exact Hbounds].
      cbn [rev]. destruct (rev (plan_windows n (ce + timedelta 1) e)) as [| x xs];
        [discriminate | exact Hw].
    + exists (cs, ce). split.
      * rewrite (plan_windows_unfold n).
        apply Z.ltb_ge in Hstop. rewrite Hstop. reflexivity.
      * cbn [fst snd]. subst ce. lia.
Qed.
(* ===================================================================== *)
(** ** Facts about the pandas model *)

Lemma res_map_Forall2 {A B} (f : A -> Res B) :
  forall l l', res_map f l = Ok l' -> Forall2 (fun x y => f x = Ok y) l l'.
Proof.
  induction l as [| x xs IH]; intros l' H; simpl in H.
  - injection H as <-. constructor.
  - destruct (f x) as [y |] eqn:Hx; [| discriminate]. simpl in H.
    destruct (res_map f xs) as [ys |] eqn:Hxs; [| discriminate]. simpl in H.
    injection H as <-. constructor; [exact Hx | apply IH; reflexivity].
Qed.

(** *** Labels *)

Lemma mem_In name l : mem name l = true <-> In name l.
Proof.
  unfold mem. rewrite existsb_exists. split.
  - intros (c & Hin & Heq). apply String.eqb_eq in Heq. subst c. exact Hin.
  - intros Hin. exists name. split; [exact Hin | apply String.eqb_refl].
Qed.

Lemma mem_not_In name l : mem name l = false <-> ~ In name l.
Proof.
  rewrite <- mem_In. destruct (mem name l); split; intros H;
    try reflexivity; try discriminate; try (intros H'; discriminate H').
  exfalso. apply H. reflexivity.
Qed.

Lemma positions_In name l i : In i (positions name l) -> nth_error l i = Some name.
Proof.
  revert i. induction l as [| c cs IH]; intros i Hin; [contradiction |].
  cbn [positions] in Hin. apply in_app_or in Hin. destruct Hin as [Hin | Hin].
  - destruct (String.eqb_spec name c) as [-> |]; [| contradiction].
    destruct Hin as [<- | []]. reflexivity.
  - apply in_map_iff in Hin. destruct Hin as (j & <- & Hj).
    cbn [nth_error]. apply IH. exact Hj.
Qed.

Lemma positions_nil name l : positions name l = [] <-> ~ In name l.
Proof.
  induction l as [| c cs IH]; [split; [intros _ [] | reflexivity] |].
  cbn [positions In]. destruct (String.eqb_spec name c) as [-> | Hne].
  - split; [discriminate | intros H; exfalso; apply H; left; reflexivity].
  - cbn [app]. split.
    + intros H. destruct (positions name cs); [| discriminate H].
      intros [Heq | Hin]; [apply Hne; symmetry; exact Heq |].
      apply (proj1 IH); [reflexivity | exact Hin].
    + intros H. rewrite (proj2 IH); [reflexivity |].
      intros Hin. apply H. right. exact Hin.
Qed.

Lemma positions_app name l1 l2 :
  positions name (l1 ++ l2)
  = positions name l1 ++ map (fun i => (List.length l1 + i)%nat) (positions name l2).
Proof.
  induction l1 as [| c cs IH].
  - cbn [app positions List.length]. rewrite map_id. reflexivity.
  - cbn [app positions List.length]. rewrite IH, map_app, map_map, <- app_assoc.
    reflexivity.
Qed.

(** A label that no column carries twice has at most one place. *)
Lemma positions_NoDup name l :
  NoDup l -> (List.length (positions name l) <= 1)%nat.
Proof.
  induction 1 as [| c cs Hnotin _ IH]; [cbn; lia |].
  cbn [positions]. rewrite length_app, length_map.
  destruct (String.eqb_spec name c) as [-> | Hne]; cbn [List.length]; [| lia].
  apply positions_nil in Hnotin. rewrite Hnotin. cbn. lia.
Qed.

Lemma position_positions name l : position name l = hd_error (positions name l).
Proof.
  induction l as [| c cs IH]; [reflexivity |].
  cbn [position positions]. destruct (String.eqb name c); [reflexivity |].
  cbn [app]. rewrite IH. destruct (positions name cs); reflexivity.
Qed.

Lemma positions_head name rest :
  positions name (name :: rest) = O :: map S (positions name rest).
Proof. cbn [positions]. rewrite String.eqb_refl. reflexivity. Qed.

(** A label that heads the columns is located when, and only when, no other
    column carries it: at the first place. *)
Lemma locate_head name rest i :
  locate name (name :: rest) = Ok i -> i = O /\ positions name (name :: rest) = [O].
Proof.
  unfold locate. rewrite positions_head.
  destruct (positions name rest); cbn [map]; [| discriminate].
  intros H. injection H as <-. split; reflexivity.
Qed.

Lemma renamed_Date c : String.eqb "Date" (renamed c) = String.eqb "Date" c.
Proof.
  unfold renamed, column_renames, assoc.
  repeat match goal with
         | |- context [String.eqb c ?s] =>
             destruct (String.eqb_spec c s); [subst c; reflexivity |]
         end.
  reflexivity.
Qed.

Lemma positions_rename_Date cols :
  positions "Date" (map renamed cols) = positions "Date" cols.
Proof.
  induction cols as [| c cs IH]; [reflexivity |].
  cbn [map positions]. rewrite renamed_Date, IH. reflexivity.
Qed.

(** A label that is not the new name of a renamed column is the new label
    of itself only. *)
Lemma renamed_fixed c x :
  renamed c = x -> ~ In x (map snd column_renames) -> c = x.
Proof.
  unfold renamed, column_renames, assoc. cbn [map snd In].
  repeat match goal with
         | |- context [String.eqb c ?s] =>
             destruct (String.eqb_spec c s);
             [intros <- H; exfalso; apply H; tauto |]
         end.
  intros H _. exact H.
Qed.

Lemma not_In_renamed x l :
  ~ In x (map snd column_renames) -> ~ In x l -> ~ In x (map renamed l).
Proof.
  intros Hx Hl Hin. apply in_map_iff in Hin. destruct Hin as (c & Hc & Hin).
  apply renamed_fixed in Hc; [| exact Hx]. subst c. exact (Hl Hin).
Qed.

Lemma insert_levels_columns rev_names :
  forall cols cs, insert_levels rev_names cols = Ok cs -> cs = rev rev_names ++ cols.
Proof.
  induction rev_names as [| n ns IH]; intros cols cs H; cbn [insert_levels] in H.
  - injection H as <-. reflexivity.
  - destruct (mem n cols); [discriminate |].
    apply IH in H. subst cs. cbn [rev]. rewrite <- app_assoc. reflexivity.
Qed.

(** *** Cells *)

Lemma nth_set_cell i v cells : nth i (set_cell i v cells) VNaN = v.
Proof.
  unfold set_cell.
  assert (Hlen : List.length (firstn i (cells ++ repeat VNaN i)) = i).
  { rewrite length_firstn, length_app, repeat_length. lia. }
  rewrite <- Hlen at 1. apply nth_middle.
Qed.

Lemma nth_padded k i cells :
  nth k (cells ++ repeat VNaN i) VNaN = nth k cells VNaN.
Proof.
  destruct (Nat.lt_ge_cases k (List.length cells)) as [Hlt | Hge].
  - apply app_nth1. exact Hlt.
  - rewrite app_nth2 by exact Hge. rewrite (nth_overflow cells) by exact Hge.
    destruct (Nat.lt_ge_cases (k - List.length cells) i) as [Hin | Hout].
    + apply nth_repeat_lt. exact Hin.
    + apply nth_overflow. rewrite repeat_length. exact Hout.
Qed.

Lemma nth_set_cell_other k i v cells :
  k <> i -> nth k (set_cell i v cells) VNaN = nth k cells VNaN.
Proof.
  intros Hne. unfold set_cell.
  assert (Hlen : List.length (firstn i (cells ++ repeat VNaN i)) = i).
  { rewrite length_firstn, length_app, repeat_length. lia. }
  destruct (Nat.lt_ge_cases k i) as [Hlt | Hge].
  - rewrite app_nth1 by lia. rewrite nth_firstn.
    replace (k <? i)%nat with true by (symmetry; apply Nat.ltb_lt; exact Hlt).
    apply nth_padded.
  - rewrite app_nth2 by lia. rewrite Hlen.
    destruct (k - i)%nat as [| m] eqn:Hk; [lia |].
    cbn [nth]. rewrite nth_skipn. f_equal. lia.
Qed.

Lemma nth_set_cells places v cells i :
  In i places -> nth i (set_cells places v cells) VNaN = v.
Proof.
  induction places as [| j js IH]; [contradiction |].
  cbn [set_cells fold_right]. fold (set_cells js v cells).
  destruct (Nat.eq_dec i j) as [-> | Hne]; [intros _; apply nth_set_cell |].
  intros [Heq | Hin]; [exfalso; apply Hne; symmetry; exact Heq |].
  rewrite nth_set_cell_other by exact Hne. apply IH. exact Hin.
Qed.

(** *** The steps of the formatting *)

Lemma reset_index_shape df df1 :
  reset_index df = Ok df1 ->
  index_names df1 = [] /\ Forall (fun r => fst r = []) (rows df1) /\
  List.length (rows df1) = List.length (rows df).
Proof.
  unfold reset_index. intros H.
  destruct (index_names df) as [| n ns].
  - destruct (mem _ (columns df)); [discriminate |].
    injection H as <-. cbn [index_names rows]. repeat split.
    + apply Forall_forall. intros r Hr. apply in_map_iff in Hr.
      destruct Hr as (x & <- & _). reflexivity.
    + rewrite length_map, length_combine, length_seq. lia.
  - destruct (insert_levels _ (columns df)); [| discriminate].
    cbn [res_bind] in H.
    injection H as <-. cbn [index_names rows]. repeat split.
    + apply Forall_forall. intros r Hr. apply in_map_iff in Hr.
      destruct Hr as (x & <- & _). reflexivity.
    + apply length_map.
Qed.

(** Resetting the index of a frame with unambiguous labels leaves them
    so. *)
Lemma reset_index_plain df df1 :
  plain df -> reset_index df = Ok df1 -> NoDup (map renamed (columns df1)).
Proof.
  unfold plain, reset_index. intros Hplain H.
  destruct (index_names df) as [| n ns] eqn:Hix.
  - cbn [app] in Hplain.
    destruct (mem (if mem "index" (columns df) then "level_0" else "index")
                  (columns df)) eqn:Hmem; [discriminate |].
    injection H as <-. cbn [columns map]. constructor; [| exact Hplain].
    apply mem_not_In in Hmem.
    destruct (mem "index" (columns df)); cbn;
      (apply not_In_renamed; [| exact Hmem]);
      cbn; intros H; repeat (destruct H as [H | H]; try discriminate H); exact H.
  - destruct (insert_levels (rev (n :: ns)) (columns df)) as [cs |] eqn:Hins;
      [| discriminate].
    cbn [res_bind] in H. injection H as <-. cbn [columns].
    apply insert_levels_columns in Hins. rewrite rev_involutive in Hins.
    subst cs. exact Hplain.
Qed.

Lemma to_dates_shape env sel dates :
  to_dates env sel = Ok dates ->
  exists col, sel = [col] /\
  List.length dates = List.length col /\
  Forall (fun v => exists d, v = VDate d) dates.
Proof.
  unfold to_dates. destruct sel as [| col [| col2 sel]]; try discriminate.
  intros H. exists col. split; [reflexivity |].
  apply res_map_Forall2 in H.
  induction H as [| x y xs ys Hxy _ [IHlen IHall]].
  - split; [reflexivity | constructor].
  - split; [simpl; congruence |].
    constructor; [| exact IHall].
    destruct (pd_to_datetime env x) as [t |]; [| discriminate].
    cbn [res_bind] in Hxy. injection Hxy as <-. eexists. reflexivity.
Qed.

Lemma Forall_combine_r {A B} (P : B -> Prop) (l : list A) (l' : list B) :
  Forall P l' -> Forall (fun ab => P (snd ab)) (combine l l').
Proof.
  intros H. apply Forall_forall. intros [a b] Hin.
  apply in_combine_r in Hin. rewrite Forall_forall in H. apply H. exact Hin.
Qed.

Lemma Forall_combine_l {A B} (P : A -> Prop) (l : list A) (l' : list B) :
  Forall P l -> Forall (fun ab => P (fst ab)) (combine l l').
Proof.
  intros H. apply Forall_forall. intros [a b] Hin.
  apply in_combine_l in Hin. rewrite Forall_forall in H. apply H. exact Hin.
Qed.

(** After [df['Date'] = dates] some column carries [Date], and every one
    that does holds a date in every row. *)
Lemma set_column_Date_shape dates df1 df2 :
  set_column "Date" dates df1 = Ok df2 ->
  Forall (fun v => exists d, v = VDate d) dates ->
  Forall (fun r => fst r = []) (rows df1) ->
  index_names df2 = index_names df1 /\
  List.length (rows df2) = List.length (rows df1) /\
  positions "Date" (columns df2) <> [] /\
  Forall (fun r => fst r = [] /\
                   forall j, In j (positions "Date" (columns df2)) ->
                             exists d, nth j (snd r) VNaN = VDate d)
         (rows df2).
Proof.
  unfold set_column. intros H Hdates Hrows.
  destruct (Nat.eqb (List.length dates) (List.length (rows df1))) eqn:Hlen;
    [| discriminate].
  apply Nat.eqb_eq in Hlen.
  pose proof (Forall_combine_r _ (rows df1) dates Hdates) as Hr.
  pose proof (Forall_combine_l _ (rows df1) dates Hrows) as Hl.
  destruct (positions "Date" (columns df1)) as [| i places] eqn:Hpos;
    injection H as <-; cbn [index_names columns rows];
    (split; [reflexivity |]);
    (split; [rewrite length_map, length_combine; lia |]).
  - rewrite positions_app, Hpos. cbn [app positions map]. split; [discriminate |].
    apply Forall_map. rewrite Forall_forall in *. intros rv Hin. cbn [fst snd].
    split; [apply Hl; exact Hin |].
    intros j [<- | []]. rewrite Nat.add_0_r.
    destruct (Hr rv Hin) as (d & Hd). exists d. rewrite nth_set_cell. exact Hd.
  - rewrite Hpos. split; [discriminate |].
    apply Forall_map. rewrite Forall_forall in *. intros rv Hin. cbn [fst snd].
    split; [apply Hl; exact Hin |].
    intros j Hj. destruct (Hr rv Hin) as (d & Hd). exists d.
    change (nth j (set_cells (i :: places) (snd rv) (snd (fst rv))) VNaN = VDate d).
    rewrite nth_set_cells by exact Hj. exact Hd.
Qed.

Lemma set_column_Date_plain dates df1 df2 :
  set_column "Date" dates df1 = Ok df2 ->
  NoDup (map renamed (columns df1)) -> NoDup (map renamed (columns df2)).
Proof.
  unfold set_column. intros H Hnodup.
  destruct (Nat.eqb (List.length dates) (List.length (rows df1))); [| discriminate].
  destruct (positions "Date" (columns df1)) as [| i places] eqn:Hpos;
    injection H as <-; cbn [columns]; [| exact Hnodup].
  rewrite map_app. cbn [map].
  apply NoDup_app_remove_l with (l := []). cbn [app].
  apply Permutation_NoDup with (l := "Date" :: map renamed (columns df1));
    [apply Permutation_cons_append |].
  constructor; [| exact Hnodup].
  apply positions_nil in Hpos. apply not_In_renamed; [| exact Hpos].
  cbn. intros H. repeat (destruct H as [H | H]; try discriminate H). exact H.
Qed.

(** The groups of a selection of the canonical columns. *)
Lemma carriers_canonical cols groups :
  res_map (carriers cols) canonical_columns = Ok groups ->
  exists p0 p1 p2 p3 p4 p5 p6,
    groups = [("Date", p0); ("Symbol", p1); ("Open", p2); ("High", p3);
              ("Low", p4); ("Close", p5); ("Volume", p6)] /\
    p0 = positions "Date" cols /\ p0 <> [] /\ p1 <> [] /\ p2 <> [] /\
    p3 <> [] /\ p4 <> [] /\ p5 <> [] /\ p6 <> [] /\
    (NoDup cols ->
     (List.length p0 = 1 /\ List.length p1 = 1 /\ List.length p2 = 1 /\
      List.length p3 = 1 /\ List.length p4 = 1 /\ List.length p5 = 1 /\
      List.length p6 = 1)%nat).
Proof.
  unfold canonical_columns, carriers. cbn [res_map].
  intros H.
  destruct (positions "Date" cols) as [| ? ?] eqn:Hp0;
    cbn [res_bind] in H; [discriminate H |].
  destruct (positions "Symbol" cols) as [| ? ?] eqn:Hp1;
    cbn [res_bind] in H; [discriminate H |].
  destruct (positions "Open" cols) as [| ? ?] eqn:Hp2;
    cbn [res_bind] in H; [discriminate H |].
  destruct (positions "High" cols) as [| ? ?] eqn:Hp3;
    cbn [res_bind] in H; [discriminate H |].
  destruct (positions "Low" cols) as [| ? ?] eqn:Hp4;
    cbn [res_bind] in H; [discriminate H |].
  destruct (positions "Close" cols) as [| ? ?] eqn:Hp5;
    cbn [res_bind] in H; [discriminate H |].
  destruct (positions "Volume" cols) as [| ? ?] eqn:Hp6;
    cbn [res_bind] in H; [discriminate H |].
  injection H as <-.
  do 7 eexists. split; [reflexivity |]. split; [reflexivity |].
  repeat (split; [discriminate |]).
  intros Hnodup.
  repeat match goal with
         | Hp : positions ?n cols = _ |- _ =>
             let Hl := fresh "Hl" in
             pose proof (positions_NoDup n cols Hnodup) as Hl;
             rewrite Hp in Hl; clear Hp
         end.
  cbn [List.length] in *. repeat split; lia.
Qed.

(** What a selection of the canonical columns is like: its first column
    is [Date] and holds dates. *)
Lemma select_canonical_shape df3 df4 :
  select canonical_columns df3 = Ok df4 ->
  Forall (fun r => fst r = [] /\
                   forall j, In j (positions "Date" (columns df3)) ->
                             exists d, nth j (snd r) VNaN = VDate d)
         (rows df3) ->
  index_names df4 = index_names df3 /\
  List.length (rows df4) = List.length (rows df3) /\
  hd_error (columns df4) = Some "Date" /\
  Forall dated_row (rows df4) /\
  (NoDup (columns df3) ->
   columns df4 = canonical_columns /\ Forall canonical_row (rows df4)).
Proof.
  unfold select. intros H Hrows.
  destruct (res_map _ canonical_columns) as [groups |] eqn:Hg; [| discriminate].
  cbn [res_bind] in H. injection H as <-. cbn [index_names columns rows].
  destruct (carriers_canonical _ _ Hg)
    as (p0 & p1 & p2 & p3 & p4 & p5 & p6 & -> & Hp0 & Hn0 & Hn1 & Hn2 & Hn3
        & Hn4 & Hn5 & Hn6 & Hone).
  split; [reflexivity |]. split; [apply length_map |].
  destruct p0 as [| i0 p0']; [contradiction |].
  split; [reflexivity |]. split.
  - apply Forall_map. rewrite Forall_forall in *. intros r Hin.
    destruct (Hrows r Hin) as (Hfst & Hdate).
    split; [exact Hfst |]. cbn [fst snd flat_map app map nth].
    apply Hdate. rewrite <- Hp0. left. reflexivity.
  - intros Hnodup. destruct (Hone Hnodup) as (H0 & H1 & H2 & H3 & H4 & H5 & H6).
    destruct p0' as [| ? ?]; [| discriminate H0].
    destruct p1 as [| i1 [| ? ?]]; try discriminate H1.
    destruct p2 as [| i2 [| ? ?]]; try discriminate H2.
    destruct p3 as [| i3 [| ? ?]]; try discriminate H3.
    destruct p4 as [| i4 [| ? ?]]; try discriminate H4.
    destruct p5 as [| i5 [| ? ?]]; try discriminate H5.
    destruct p6 as [| i6 [| ? ?]]; try discriminate H6.
    split; [reflexivity |].
    apply Forall_map. rewrite Forall_forall in *. intros r Hin.
    destruct (Hrows r Hin) as (Hfst & Hdate).
    split; [exact Hfst |]. split; [reflexivity |].
    cbn [fst snd flat_map app map nth].
    apply Hdate. rewrite <- Hp0. left. reflexivity.
Qed.

(** A frame the formatting returns has no index levels, a first column
    [Date] that holds dates, and as many rows as the provider's frame; of
    a frame with unambiguous labels it is in the canonical shape. *)
Lemma format_chunk_shape env df df' :
  format_chunk env df = Ok df' ->
  dated df' /\ List.length (rows df') = List.length (rows df) /\
  (plain df -> canonical df').
Proof.
  unfold format_chunk. intros H.
  destruct (reset_index df) as [df1 |] eqn:H1; [| discriminate]. cbn [res_bind] in H.
  destruct (get_column "timestamp" df1) as [ts |] eqn:Hts; [| discriminate].
  cbn [res_bind] in H.
  destruct (to_dates env ts) as [dates |] eqn:Hd; [| discriminate].
  cbn [res_bind] in H.
  destruct (set_column "Date" dates df1) as [df2 |] eqn:H2; [| discriminate].
  cbn [res_bind] in H.
  pose proof (reset_index_shape _ _ H1) as (Hix1 & Hrows1 & Hlen1).
  apply to_dates_shape in Hd. destruct Hd as (col & _ & _ & Hdates).
  destruct (set_column_Date_shape _ _ _ H2 Hdates Hrows1)
    as (Hix2 & Hlen2 & Hpos & Hrows2).
  assert (Hrows3 : Forall (fun r => fst r = [] /\
                     forall j, In j (positions "Date"
                                       (columns (rename column_renames df2))) ->
                               exists d, nth j (snd r) VNaN = VDate d)
                          (rows (rename column_renames df2))).
  { cbn [rename columns rows]. fold renamed.
    change (fun c => renamed c) with renamed.
    rewrite positions_rename_Date. exact Hrows2. }
  destruct (select_canonical_shape _ _ H Hrows3)
    as (Hix4 & Hlen4 & Hhd & Hdated & Hplain).
  cbn [rename index_names rows columns] in *.
  split; [| split].
  - split; [congruence |]. split; assumption.
  - congruence.
  - intros Hp.
    assert (Hnodup : NoDup (map renamed (columns df2))).
    { eapply set_column_Date_plain; [exact H2 |].
      eapply reset_index_plain; eassumption. }
    destruct (Hplain Hnodup) as [Hcols Hcanon].
    split; [congruence |]. split; assumption.
Qed.

(** *** Concatenation *)

Lemma labels_eqb_eq l1 l2 : labels_eqb l1 l2 = true <-> l1 = l2.
Proof.
  revert l2. induction l1 as [| c1 l1 IH]; intros [| c2 l2]; cbn [labels_eqb];
    try (split; [reflexivity || discriminate | reflexivity || discriminate]).
  rewrite andb_true_iff, String.eqb_eq, IH. split.
  - intros [-> ->]. reflexivity.
  - intros H. injection H as -> ->. split; reflexivity.
Qed.

Lemma dated_rows_stacked dfs :
  Forall dated dfs ->
  flat_map (fun df => map (fun r : list value * list value => (@nil value, snd r))
                          (rows df)) dfs
  = flat_map rows dfs.
Proof.
  induction 1 as [| df dfs (_ & _ & Hrows) _ IH]; [reflexivity |].
  cbn [flat_map]. rewrite IH. f_equal.
  rewrite <- (map_id (rows df)) at 2.
  apply map_ext_in. intros [ix cells] Hin.
  rewrite Forall_forall in Hrows. destruct (Hrows _ Hin) as (Hix & _).
  cbn [fst snd] in *. subst ix. reflexivity.
Qed.

Lemma canonical_dated df : canonical df -> dated df.
Proof.
  intros (Hix & Hcols & Hrows). split; [exact Hix |].
  split; [rewrite Hcols; reflexivity |].
  eapply Forall_impl; [| exact Hrows]. intros r (Hf & _ & Hd). split; assumption.
Qed.

(** Concatenating frames of the canonical shape stacks their rows. *)
Lemma concat_canonical dfs :
  dfs <> [] -> Forall canonical dfs -> concat dfs = Ok (stack dfs).
Proof.
  intros Hne Hall. destruct dfs as [| df0 rest]; [contradiction |].
  unfold concat.
  assert (Hsame : forallb (fun df => labels_eqb (columns df) (columns df0)) rest = true).
  { apply forallb_forall. intros df Hin. apply labels_eqb_eq.
    rewrite Forall_forall in Hall.
    destruct (Hall df0 (or_introl eq_refl)) as (_ & -> & _).
    destruct (Hall df (or_intror Hin)) as (_ & -> & _). reflexivity. }
  rewrite Hsame.
  rewrite dated_rows_stacked
    by (eapply Forall_impl; [| exact Hall]; intros; apply canonical_dated; assumption).
  unfold stack. inversion Hall as [| ? ? (_ & Hcols & _) _]; subst.
  rewrite Hcols. reflexivity.
Qed.

Lemma stack_canonical dfs : Forall canonical dfs -> canonical (stack dfs).
Proof.
  intros H. unfold canonical, stack. cbn [index_names columns rows].
  split; [reflexivity |]. split; [reflexivity |].
  induction H as [| df dfs (_ & _ & Hrows) _ IH]; [constructor |].
  cbn [flat_map]. apply Forall_app. split; assumption.
Qed.

Lemma add_labels_head c acc cols :
  hd_error acc = Some c -> hd_error (add_labels acc cols) = Some c.
Proof.
  unfold add_labels. revert acc.
  induction cols as [| x cols IH]; intros acc H; [exact H |].
  cbn [fold_left]. apply IH.
  destruct (mem x acc); [exact H |].
  destruct acc; [discriminate H | exact H].
Qed.

Lemma add_labels_first c cols : hd_error (add_labels [] (c :: cols)) = Some c.
Proof.
  unfold add_labels. cbn [fold_left mem existsb app].
  apply (add_labels_head c [c] cols). reflexivity.
Qed.

Lemma union_labels_head dfs : forall acc c,
  hd_error acc = Some c ->
  hd_error (fold_left (fun acc df => add_labels acc (columns df)) dfs acc) = Some c.
Proof.
  induction dfs as [| df dfs IH]; intros acc c H; [exact H |].
  cbn [fold_left]. apply IH. apply add_labels_head. exact H.
Qed.

(** What [pd.concat] returns of frames the chunk fetch returned is such a
    frame again, with as many rows as they have together. *)
Lemma concat_dated dfs df :
  Forall dated dfs -> concat dfs = Ok df ->
  dated df /\ List.length (rows df) = List.length (flat_map rows dfs).
Proof.
  intros Hall. unfold concat.
  destruct dfs as [| df0 rest]; [discriminate |].
  inversion Hall as [| ? ? Hd0 Hrest]; subst.
  destruct (forallb _ rest).
  - intros H. injection H as <-. cbn [index_names columns rows].
    change (map (fun r : list value * list value => (@nil value, snd r)) (rows df0)
              ++ flat_map (fun df => map (fun r : list value * list value =>
                                            (@nil value, snd r)) (rows df)) rest)
      with (flat_map (fun df => map (fun r : list value * list value =>
                                       (@nil value, snd r)) (rows df)) (df0 :: rest)).
    rewrite dated_rows_stacked by exact Hall.
    split; [| reflexivity].
    split; [reflexivity |]. split; [apply Hd0 |].
    clear - Hall. induction Hall as [| d ds (_ & _ & Hr) _ IH]; [constructor |].
    cbn [flat_map]. apply Forall_app. split; assumption.
  - destruct (existsb _ (df0 :: rest)); [discriminate |].
    intros H. injection H as <-. cbn [index_names columns rows].
    assert (Hhead : hd_error (union_labels (df0 :: rest)) = Some "Date").
    { unfold union_labels. cbn [fold_left]. apply union_labels_head.
      destruct Hd0 as (_ & Hhd & _).
      destruct (columns df0) as [| c cs]; [discriminate Hhd |].
      injection Hhd as ->. apply add_labels_first. }
    destruct (union_labels (df0 :: rest)) as [| l labels]; [discriminate Hhead |].
    injection Hhead as ->.
    split.
    + split; [reflexivity |]. split; [reflexivity |]. cbn [rows].
      assert (Hlaid : forall dfs,
                 Forall dated dfs ->
                 Forall dated_row
                   (flat_map (fun df =>
                      map (fun r : list value * list value =>
                             (@nil value, reindex (columns df) ("Date" :: labels) (snd r)))
                          (rows df)) dfs)).
      { clear. induction 1 as [| d ds (_ & Hhd & Hr) _ IH]; [constructor |].
        cbn [flat_map]. apply Forall_app. split; [| exact IH].
        apply Forall_map. eapply Forall_impl; [| exact Hr].
        intros r (_ & dd & Hdd). split; [reflexivity |].
        exists dd. unfold reindex. cbn [snd map nth].
        destruct (columns d) as [| c cs]; [discriminate Hhd |].
        injection Hhd as ->. cbn [position String.eqb Ascii.eqb Bool.eqb].
        exact Hdd. }
      apply (Hlaid (df0 :: rest) Hall).
    + cbn [rows].
      assert (Hlen : forall dfs : list DataFrame,
                 List.length
                   (flat_map (fun df =>
                      map (fun r : list value * list value =>
                             (@nil value, reindex (columns df) ("Date" :: labels) (snd r)))
                          (rows df)) dfs)
                 = List.length (flat_map rows dfs)).
      { clear. induction dfs as [| d ds IH]; [reflexivity |].
        cbn [flat_map]. rewrite !length_app, length_map, IH. reflexivity. }
      apply (Hlen (df0 :: rest)).
Qed.

(** One frame is concatenated as it is. *)
Lemma concat_single df :
  concat [df]
  = Ok {| index_names := [];
          columns := columns df;
          rows := map (fun r => ([], snd r)) (rows df) |}.
Proof. unfold concat. cbn [forallb flat_map]. rewrite app_nil_r. reflexivity. Qed.

(** *** Sorting *)

Lemma insert_by_key_perm {A} (x : Z * A) l :
  Permutation (insert_by_key x l) (x :: l).
Proof.
  induction l as [| y ys IH]; cbn [insert_by_key]; [reflexivity |].
  destruct (fst x <? fst y); [reflexivity |].
  rewrite IH. apply perm_swap.
Qed.

Lemma sort_by_key_perm {A} (l : list (Z * A)) : Permutation (sort_by_key l) l.
Proof.
  induction l as [| x xs IH]; cbn [sort_by_key fold_right]; [reflexivity |].
  rewrite insert_by_key_perm. constructor. exact IH.
Qed.

Lemma insert_by_key_sorted {A} (x : Z * A) l :
  StronglySorted Z.le (map fst l) ->
  StronglySorted Z.le (map fst (insert_by_key x l)).
Proof.
  induction l as [| y ys IH]; cbn [insert_by_key map]; intros H.
  - repeat constructor.
  - inversion H as [| ? ? Hys Hall]; subst.
    destruct (fst x <? fst y) eqn:Hlt; cbn [map].
    + apply Z.ltb_lt in Hlt. constructor; [exact H |].
      constructor; [lia |].
      eapply Forall_impl; [| exact Hall]. cbn beta. intros; lia.
    + apply Z.ltb_ge in Hlt. constructor; [apply IH; exact Hys |].
      assert (Hperm : Permutation (map fst (insert_by_key x ys)) (fst x :: map fst ys))
        by (change (fst x :: map fst ys) with (map fst (x :: ys));
            apply Permutation_map, insert_by_key_perm).
      eapply Permutation_Forall; [symmetry; exact Hperm |].
      constructor; [exact Hlt | exact Hall].
Qed.

Lemma sort_by_key_sorted {A} (l : list (Z * A)) :
  StronglySorted Z.le (map fst (sort_by_key l)).
Proof.
  induction l as [| x xs IH]; cbn [sort_by_key fold_right]; [constructor |].
  apply insert_by_key_sorted. exact IH.
Qed.

(** The keys of the rows of a frame whose first column holds dates. *)
Lemma keyed_rows_first rs :
  Forall dated_row rs ->
  exists krs,
    res_map (fun r => res_bind (date_key (nth 0 (snd r) VNaN)) (fun k => Ok (k, r))) rs
    = Ok krs /\
    map snd krs = rs /\
    Forall (fun kr => nth 0 (snd (snd kr)) VNaN = VDate (fst kr)) krs.
Proof.
  induction 1 as [| r rs (_ & d & Hd) _ (krs & Hk & Hsnd & Hall)].
  - exists []. repeat split; constructor.
  - exists ((d, r) :: krs). cbn [res_map]. rewrite Hd. cbn [date_key res_bind].
    rewrite Hk. cbn [res_bind map snd]. rewrite Hsnd.
    repeat split. constructor; [exact Hd | exact Hall].
Qed.

Lemma locate_position name l i : locate name l = Ok i -> position name l = Some i.
Proof.
  unfold locate. rewrite position_positions.
  destruct (positions name l) as [| j [| k ps]]; try discriminate.
  intros H. injection H as <-. reflexivity.
Qed.

(** In a frame the chunk fetch returned, [Date] is either ambiguous or the
    label of the first column only. *)
Lemma keyed_rows_dated df :
  dated df ->
  (exists ex, locate "Date" (columns df) = Err ex /\ keyed_rows "Date" df = Err ex) \/
  (locate "Date" (columns df) = Ok O /\
   exists krs, keyed_rows "Date" df = Ok krs /\ map snd krs = rows df /\
               Forall (fun kr => nth 0 (snd (snd kr)) VNaN = VDate (fst kr)) krs).
Proof.
  intros (_ & Hhd & Hrows). unfold keyed_rows.
  destruct (columns df) as [| c rest]; [discriminate Hhd |].
  injection Hhd as ->.
  destruct (locate "Date" ("Date" :: rest)) as [i | ex] eqn:Hloc.
  - right. apply locate_head in Hloc. destruct Hloc as [-> _].
    split; [reflexivity |]. cbn [res_bind]. apply keyed_rows_first. exact Hrows.
  - left. exists ex. split; reflexivity.
Qed.

Lemma keyed_rows_canonical df :
  canonical df ->
  exists krs, keyed_rows "Date" df = Ok krs /\ map snd krs = rows df /\
              Forall (fun kr => nth 0 (snd (snd kr)) VNaN = VDate (fst kr)) krs.
Proof.
  intros Hc. pose proof (canonical_dated df Hc) as Hd.
  destruct Hc as (_ & Hcols & _).
  destruct (keyed_rows_dated df Hd) as [(ex & Hloc & _) | (_ & H)]; [| exact H].
  rewrite Hcols in Hloc. discriminate Hloc.
Qed.

(** Sorting by [Date] a frame the chunk fetch returned, when it succeeds,
    rearranges the rows and leaves them in ascending order of date. *)
Lemma sort_values_dated df sorted :
  dated df -> sort_values "Date" df = Ok sorted ->
  dated sorted /\ columns sorted = columns df /\
  locate "Date" (columns sorted) = Ok O /\
  Permutation (rows df) (rows sorted) /\
  sorted_by_Date (csv_content sorted).
Proof.
  intros Hd. unfold sort_values.
  destruct (keyed_rows_dated df Hd) as [(ex & _ & ->) | (Hloc & krs & -> & Hsnd & Hall)];
    [discriminate |].
  cbn [res_bind]. intros H. injection H as <-. cbn [index_names columns rows].
  pose proof (sort_by_key_perm krs) as Hperm.
  destruct Hd as (Hix & Hhd & Hrows).
  assert (Hp : Permutation (rows df) (map snd (sort_by_key krs))).
  { rewrite <- Hsnd. apply Permutation_map. symmetry. exact Hperm. }
  split; [| split; [reflexivity | split; [exact Hloc | split; [exact Hp |]]]].
  - split; [exact Hix |]. split; [exact Hhd |].
    eapply Permutation_Forall; [exact Hp | exact Hrows].
  - exists (map fst (sort_by_key krs)). split; [| apply sort_by_key_sorted].
    unfold csv_column, csv_content. cbn [fst snd columns rows].
    rewrite (locate_position _ _ _ Hloc).
    f_equal. rewrite !map_map. apply map_ext_in. intros kr Hin.
    assert (Hall' : Forall (fun kr => nth 0 (snd (snd kr)) VNaN = VDate (fst kr))
                           (sort_by_key krs))
      by (eapply Permutation_Forall; [symmetry; exact Hperm | exact Hall]).
    rewrite Forall_forall in Hall'. apply Hall'. exact Hin.
Qed.

(** Sorting a canonical frame by [Date] succeeds and leaves it
    canonical. *)
Lemma sort_values_canonical df :
  canonical df ->
  exists df', sort_values "Date" df = Ok df' /\ canonical df' /\
              Permutation (rows df) (rows df') /\
              sorted_by_Date (csv_content df').
Proof.
  intros Hc. destruct (keyed_rows_canonical df Hc) as (krs & Hk & _).
  destruct (sort_values "Date" df) as [sorted | ex] eqn:Hsort;
    [| unfold sort_values in Hsort; rewrite Hk in Hsort; discriminate Hsort].
  exists sorted. split; [reflexivity |].
  destruct (sort_values_dated df sorted (canonical_dated df Hc) Hsort)
    as ((Hix & _) & Hcols & _ & Hp & Hs).
  split; [| split; assumption].
  destruct Hc as (_ & Hc & Hrows).
  split; [exact Hix |]. split; [congruence |].
  eapply Permutation_Forall; [exact Hp | exact Hrows].
Qed.

(** Least and greatest date of a sorted frame: it has them when it has
    rows. *)
Lemma column_min_max_sorted df sorted :
  dated df -> sort_values "Date" df = Ok sorted -> rows sorted <> [] ->
  exists dmin dmax,
    column_min "Date" sorted = Ok dmin /\ column_max "Date" sorted = Ok dmax.
Proof.
  intros Hd Hsort Hne.
  destruct (sort_values_dated df sorted Hd Hsort) as (Hds & _ & Hloc & _ & _).
  destruct (keyed_rows_dated sorted Hds)
    as [(ex & Hloc' & _) | (_ & krs & Hk & Hsnd & _)].
  - rewrite Hloc in Hloc'. discriminate Hloc'.
  - unfold column_min, column_max. rewrite Hk. cbn [res_bind].
    destruct krs as [| kr krs]; [symmetry in Hsnd; contradiction |].
    eexists. eexists. split; reflexivity.
Qed.

(* ===================================================================== *)
(** ** Running the chunk fetch and the window loop *)

(** The chunk fetch always returns, with the value and the events that
    [chunk_outcome] reads off the provider's reply. *)
Lemma chunk_runs env symbol s e tr :
  fetch_historical_data_chunk env symbol s e tr =
  (Return (fst (chunk_outcome env tr symbol s e)),
   tr ++ snd (chunk_outcome env tr symbol s e)).
Proof.
  unfold fetch_historical_data_chunk, chunk_outcome, try_except, bind,
    call_get_stock_bars, print, ret, lift.
  destruct (get_stock_bars env tr (StockBarsRequest symbol s e)) as [ex | [df |]];
    cbn [fst snd].
  - rewrite <- app_assoc. reflexivity.
  - destruct (empty df); [reflexivity |].
    destruct (format_chunk env df); cbn [fst snd]; [reflexivity |].
    rewrite <- app_assoc. reflexivity.
  - reflexivity.
Qed.

(** A frame the chunk fetch returns is not empty. *)
Lemma chunk_outcome_shape env tr symbol s e :
  match fst (chunk_outcome env tr symbol s e) with
  | Some df => dated df /\ empty df = false /\ (plain_provider env -> canonical df)
  | None => True
  end.
Proof.
  unfold chunk_outcome.
  destruct (get_stock_bars env tr _) as [ex | [df |]] eqn:Hreply; cbn [fst];
    try exact I.
  destruct (empty df) eqn:Hempty; cbn [fst]; [exact I |].
  destruct (format_chunk env df) as [df' |] eqn:Hf; cbn [fst]; [| exact I].
  apply format_chunk_shape in Hf. destruct Hf as (Hd & Hlen & Hplain).
  split; [exact Hd |]. split.
  - destruct Hd as (_ & Hhd & _).
    unfold empty in *. rewrite Hlen.
    apply orb_false_iff in Hempty. destruct Hempty as [_ Hrows].
    rewrite Hrows. destruct (columns df'); [discriminate Hhd | reflexivity].
  - intros Hp. apply Hplain. eapply Hp. exact Hreply.
Qed.

Lemma run_windows_cons env symbol s e ws tr :
  run_windows env symbol ((s, e) :: ws) tr =
  (fst (chunk_outcome env tr symbol s e)
     :: fst (run_windows env symbol ws
               (tr ++ snd (chunk_outcome env tr symbol s e) ++ [ESleep 1])),
   snd (run_windows env symbol ws
          (tr ++ snd (chunk_outcome env tr symbol s e) ++ [ESleep 1]))).
Proof.
  cbn [run_windows]. rewrite chunk_runs. rewrite <- app_assoc.
  destruct (run_windows env symbol ws _). reflexivity.
Qed.

Lemma run_windows_trace env symbol ws :
  forall tr, snd (run_windows env symbol ws tr) = tr ++ window_events env symbol ws tr.
Proof.
  induction ws as [| [s e] ws IH]; intros tr.
  - cbn. rewrite app_nil_r. reflexivity.
  - rewrite run_windows_cons. cbn [snd window_events].
    rewrite IH. rewrite <- !app_assoc. reflexivity.
Qed.

Lemma run_windows_length env symbol ws :
  forall tr, List.length (fst (run_windows env symbol ws tr)) = List.length ws.
Proof.
  induction ws as [| [s e] ws IH]; intros tr; [reflexivity |].
  rewrite run_windows_cons. cbn [fst List.length]. rewrite IH. reflexivity.
Qed.

Lemma run_windows_shape env symbol ws :
  forall tr,
  Forall (fun r => match r with
                   | Some df => dated df /\ empty df = false /\
                                (plain_provider env -> canonical df)
                   | None => True
                   end) (fst (run_windows env symbol ws tr)).
Proof.
  induction ws as [| [s e] ws IH]; intros tr.
  - constructor.
  - rewrite run_windows_cons. cbn [fst]. constructor; [| apply IH].
    apply chunk_outcome_shape.
Qed.

Lemma kept_shape env symbol ws tr :
  Forall (fun df => dated df /\ empty df = false /\
                    (plain_provider env -> canonical df))
         (kept (fst (run_windows env symbol ws tr))).
Proof.
  pose proof (run_windows_shape env symbol ws tr) as H.
  induction H as [| r rs Hr _ IH]; [constructor |].
  unfold kept in *. cbn [flat_map]. apply Forall_app. split; [| exact IH].
  destruct r as [df |]; [| constructor].
  destruct (negb (empty df)); [| constructor].
  constructor; [apply Hr | constructor].
Qed.

Lemma kept_dated env symbol ws tr :
  Forall dated (kept (fst (run_windows env symbol ws tr))).
Proof.
  eapply Forall_impl; [| apply kept_shape]. intros df H. apply H.
Qed.

Lemma kept_canonical env symbol ws tr :
  plain_provider env ->
  Forall canonical (kept (fst (run_windows env symbol ws tr))).
Proof.
  intros Hp. eapply Forall_impl; [| apply kept_shape].
  intros df (_ & _ & H). exact (H Hp).
Qed.

Lemma kept_app rs1 rs2 : kept (rs1 ++ rs2) = kept rs1 ++ kept rs2.
Proof. apply flat_map_app. Qed.

Lemma append_chunk (acc : list DataFrame) r :
  match r with
  | Some df => if negb (empty df) then acc ++ [df] else acc
  | None => acc
  end = acc ++ kept [r].
Proof.
  unfold kept. cbn [flat_map]. rewrite app_nil_r.
  destruct r as [df |]; [| rewrite app_nil_r; reflexivity].
  destruct (negb (empty df)); [reflexivity | rewrite app_nil_r; reflexivity].
Qed.

(** *** The provider calls of a chunk fetch *)

Lemma requested_windows_app tr1 tr2 :
  requested_windows (tr1 ++ tr2) = requested_windows tr1 ++ requested_windows tr2.
Proof. apply flat_map_app. Qed.

Lemma requests_of_app tr1 tr2 :
  requests_of (tr1 ++ tr2) = requests_of tr1 ++ requests_of tr2.
Proof. apply flat_map_app. Qed.

(** A chunk fetch calls the provider once, with the request built from its
    arguments. *)
Lemma chunk_requests env tr symbol s e :
  requests_of (snd (chunk_outcome env tr symbol s e)) = [StockBarsRequest symbol s e].
Proof.
  unfold chunk_outcome.
  destruct (get_stock_bars env tr _) as [ex | [df |]]; cbn [snd]; try reflexivity.
  destruct (empty df); [reflexivity |].
  destruct (format_chunk env df); reflexivity.
Qed.

Lemma chunk_requested_window env tr symbol s e :
  requested_windows (snd (chunk_outcome env tr symbol s e)) = [(s, e)].
Proof.
  unfold chunk_outcome.
  destruct (get_stock_bars env tr _) as [ex | [df |]]; cbn [snd]; try reflexivity.
  destruct (empty df); [reflexivity |].
  destruct (format_chunk env df); reflexivity.
Qed.

(** *** Dates the loop can and cannot compute *)

Lemma add_timedelta_Ok t d x : add_timedelta t d = Ok x -> x = t + d.
Proof.
  unfold add_timedelta. destruct (_ && _); [| discriminate].
  intros H. injection H as <-. reflexivity.
Qed.

Lemma add_timedelta_Err t d ex :
  add_timedelta t d = Err ex -> ex = OverflowError "date value out of range".
Proof.
  unfold add_timedelta. destruct (_ && _); [discriminate |].
  intros H. injection H as <-. reflexivity.
Qed.

Lemma add_timedelta_in_range t d :
  datetime_min <= t + d <= datetime_max -> add_timedelta t d = Ok (t + d).
Proof.
  intros [Hlo Hhi]. unfold add_timedelta.
  apply Z.leb_le in Hlo, Hhi. rewrite Hlo, Hhi. reflexivity.
Qed.

(** With enough fuel, and a range whose dates can be computed, the loop
    returns: it has fetched the planned windows in order and appended the
    chunk results that bring rows. *)
Lemma fetch_loop_runs env symbol e fuel :
  e + timedelta 1000 <= datetime_max ->
  forall cs acc tr, enough fuel cs e -> datetime_min <= cs ->
  fetch_loop env fuel symbol e cs acc tr =
  (Return (acc ++ kept (fst (run_windows env symbol (plan_windows fuel cs e) tr))),
   snd (run_windows env symbol (plan_windows fuel cs e) tr)).
Proof.
  intros Hmax.
  assert (H1000 : 0 < timedelta 1000) by reflexivity.
  pose proof timedelta_1_pos as H1.
  assert (H1lt : timedelta 1 < timedelta 1000) by reflexivity.
  induction fuel as [| fuel IH]; intros cs acc tr Hfuel Hmin.
  - apply enough_0 in Hfuel. apply Z.ltb_ge in Hfuel.
    cbn [fetch_loop]. rewrite plan_windows_unfold, Hfuel.
    cbn. rewrite app_nil_r. reflexivity.
  - cbn [fetch_loop]. rewrite plan_windows_unfold.
    destruct (cs <? e) eqn:Hlt.
    + apply Z.ltb_lt in Hlt.
      rewrite run_windows_cons. cbn [fst snd].
      unfold bind at 1, lift at 1.
      rewrite add_timedelta_in_range by lia.
      unfold bind at 1. rewrite chunk_runs.
      unfold bind at 1, lift at 1.
      rewrite add_timedelta_in_range by lia.
      unfold bind at 1, sleep at 1.
      rewrite IH by (try (apply enough_next; assumption); lia).
      rewrite append_chunk, <- app_assoc. rewrite <- (app_assoc tr).
      rewrite <- kept_app. reflexivity.
    + cbn. rewrite app_nil_r. reflexivity.
Qed.

(** Of a range whose dates can be computed, [fetch_historical_data] makes a
    [pd.concat] of the chunk results that bring rows, or [None] when there
    are none. *)
Lemma fetch_historical_data_runs env symbol s e tr :
  within_range s e ->
  fetch_historical_data env symbol s e tr =
  lift (concatenated (kept (fst (run_windows env symbol (windows s e) tr))))
       (tr ++ window_events env symbol (windows s e) tr).
Proof.
  intros [Hmin Hmax]. unfold fetch_historical_data, bind.
  rewrite fetch_loop_runs by (try apply enough_loop_fuel; assumption).
  fold (windows s e). rewrite run_windows_trace. cbn [app].
  destruct (kept (fst (run_windows env symbol (windows s e) tr))) as [| df dfs] eqn:Hk.
  - reflexivity.
  - unfold lift, concatenated. destruct (concat (df :: dfs)); reflexivity.
Qed.

(** With a provider whose frames have unambiguous labels, it returns their
    rows stacked under the canonical columns. *)
Lemma fetch_historical_data_plain env symbol s e tr :
  within_range s e -> plain_provider env ->
  fetch_historical_data env symbol s e tr =
  (Return (assemble (kept (fst (run_windows env symbol (windows s e) tr)))),
   tr ++ window_events env symbol (windows s e) tr).
Proof.
  intros Hrange Hplain. rewrite fetch_historical_data_runs by exact Hrange.
  pose proof (kept_canonical env symbol (windows s e) tr Hplain) as Hc.
  destruct (kept (fst (run_windows env symbol (windows s e) tr))) as [| df dfs] eqn:Hk.
  - reflexivity.
  - unfold concatenated. rewrite concat_canonical by (congruence || assumption).
    reflexivity.
Qed.

(** A range that is no range: nothing is computed. *)
Lemma fetch_historical_data_degenerate env symbol s e tr :
  e <= s -> fetch_historical_data env symbol s e tr = (Return None, tr).
Proof.
  intros H. apply Z.ltb_ge in H. unfold fetch_historical_data, bind.
  destruct (loop_fuel s e); cbn [fetch_loop]; rewrite H; reflexivity.
Qed.

(** Whatever the range, with enough fuel the loop returns or raises the
    [OverflowError] of a date it cannot compute; it has then called the
    provider for the first of the planned windows, in order. *)
Lemma fetch_loop_general env symbol e fuel :
  forall cs acc tr, enough fuel cs e ->
  exists o em rest,
    fetch_loop env fuel symbol e cs acc tr = (o, tr ++ em) /\
    plan_windows fuel cs e = requested_windows em ++ rest /\
    List.length (requests_of em) = List.length (requested_windows em) /\
    ((exists r, o = Return r) \/ o = Raise (OverflowError "date value out of range")).
Proof.
  induction fuel as [| fuel IH]; intros cs acc tr Hfuel.
  - apply enough_0 in Hfuel. apply Z.ltb_ge in Hfuel.
    cbn [fetch_loop]. rewrite plan_windows_unfold, Hfuel.
    exists (Return acc), [], []. rewrite app_nil_r.
    repeat split. left. eexists. reflexivity.
  - cbn [fetch_loop]. rewrite plan_windows_unfold.
    destruct (cs <? e) eqn:Hlt.
    2:{ exists (Return acc), [], []. rewrite app_nil_r.
        repeat split. left. eexists. reflexivity. }
    apply Z.ltb_lt in Hlt.
    unfold bind at 1, lift at 1.
    destruct (add_timedelta cs (timedelta 1000)) as [limit | ex] eqn:Hadd.
    2:{ apply add_timedelta_Err in Hadd. subst ex.
        eexists (Raise _), [], _. rewrite app_nil_r.
        split; [reflexivity |]. split; [reflexivity |].
        split; [reflexivity |]. right. reflexivity. }
    apply add_timedelta_Ok in Hadd. subst limit.
    unfold bind at 1. rewrite chunk_runs.
    set (ce := Z.min (cs + timedelta 1000) e).
    unfold bind at 1, lift at 1.
    destruct (add_timedelta ce (timedelta 1)) as [next | ex] eqn:Hnext.
    2:{ apply add_timedelta_Err in Hnext. subst ex.
        eexists (Raise _), (snd (chunk_outcome env tr symbol cs ce)), _.
        split; [reflexivity |].
        rewrite chunk_requested_window, chunk_requests.
        split; [reflexivity |]. split; [reflexivity |]. right. reflexivity. }
    apply add_timedelta_Ok in Hnext. subst next.
    unfold bind at 1, sleep at 1.
    destruct (IH (ce + timedelta 1)
                 (match fst (chunk_outcome env tr symbol cs ce) with
                  | Some df => if negb (empty df) then acc ++ [df] else acc
                  | None => acc
                  end)
                 ((tr ++ snd (chunk_outcome env tr symbol cs ce)) ++ [ESleep 1]))
      as (o & em & rest & Hrun & Hplan & Hlen & Ho);
      [apply enough_next; assumption |].
    exists o, (snd (chunk_outcome env tr symbol cs ce) ++ [ESleep 1] ++ em), rest.
    rewrite Hrun. split; [rewrite <- !app_assoc; reflexivity |].
    unfold requested_windows, requests_of in *.
    rewrite !flat_map_app. cbn [flat_map requested_window request_of app].
    fold (requested_windows (snd (chunk_outcome env tr symbol cs ce))).
    fold (requests_of (snd (chunk_outcome env tr symbol cs ce))).
    rewrite chunk_requested_window, chunk_requests.
    cbn [app List.length]. rewrite Hlen, Hplan.
    split; [reflexivity |]. split; [reflexivity | exact Ho].
Qed.

(** With enough fuel, more fuel changes nothing. *)
Lemma fetch_loop_enough env symbol e n :
  forall m cs acc tr, enough n cs e -> (n <= m)%nat ->
  fetch_loop env m symbol e cs acc tr = fetch_loop env n symbol e cs acc tr.
Proof.
  induction n as [| n IH]; intros m cs acc tr Hn Hm.
  - apply enough_0 in Hn. apply Z.ltb_ge in Hn.
    destruct m; cbn [fetch_loop]; rewrite Hn; reflexivity.
  - destruct m as [| m]; [lia |]. cbn [fetch_loop].
    destruct (cs <? e) eqn:Hlt; [| reflexivity].
    apply Z.ltb_lt in Hlt.
    unfold bind, lift, sleep.
    destruct (add_timedelta cs (timedelta 1000)) as [limit | ex] eqn:Hadd;
      [| reflexivity].
    apply add_timedelta_Ok in Hadd. subst limit.
    rewrite chunk_runs.
    destruct (add_timedelta (Z.min (cs + timedelta 1000) e) (timedelta 1))
      as [next | ex] eqn:Hnext; [| reflexivity].
    apply add_timedelta_Ok in Hnext. subst next.
    apply IH; [apply enough_next; assumption | lia].
Qed.

(* ===================================================================== *)
(** ** Running the body of the symbol loop *)

(** The range of a symbol: the dates of its loop can be computed. *)
Lemma lookback_computed env tr :
  add_timedelta (symbol_end env tr) (- timedelta (5 * 365)) = Ok (symbol_start env tr).
Proof.
  unfold symbol_start, symbol_end.
  pose proof (clock_in_range env tr) as Hclock.
  rewrite add_timedelta_in_range; [f_equal; lia |].
  unfold clock_min, clock_max, datetime_min, datetime_max, timedelta, us_per_day in *.
  lia.
Qed.

Lemma symbol_range env tr : within_range (symbol_start env tr) (symbol_end env tr).
Proof.
  unfold within_range, symbol_start, symbol_end.
  pose proof (clock_in_range env tr) as Hclock.
  unfold clock_min, clock_max, datetime_min, datetime_max, timedelta, us_per_day in *.
  lia.
Qed.

Lemma kept_not_empty rs : Forall (fun df => empty df = false) (kept rs).
Proof.
  induction rs as [| r rs IH]; [constructor |].
  unfold kept in *. cbn [flat_map]. apply Forall_app. split; [| exact IH].
  destruct r as [df |]; [| constructor].
  destruct (empty df) eqn:He; cbn [negb]; constructor; [exact He | constructor].
Qed.

(** A frame [fetch_historical_data] returns has a first column of dates and
    is not empty. *)
Lemma concatenated_some env symbol ws tr df :
  concatenated (kept (fst (run_windows env symbol ws tr))) = Ok (Some df) ->
  dated df /\ empty df = false.
Proof.
  pose proof (kept_dated env symbol ws tr) as Hd.
  pose proof (kept_not_empty (fst (run_windows env symbol ws tr))) as Hne.
  destruct (kept (fst (run_windows env symbol ws tr))) as [| d ds]; [discriminate |].
  unfold concatenated.
  destruct (concat (d :: ds)) as [df' |] eqn:Hcat; [| discriminate].
  cbn [res_bind]. intros H. injection H as <-.
  destruct (concat_dated _ _ Hd Hcat) as [Hdated Hlen].
  split; [exact Hdated |].
  destruct Hdated as (_ & Hhd & _).
  inversion Hne as [| ? ? Hd0 _]; subst.
  unfold empty in *. apply orb_false_iff in Hd0. destruct Hd0 as [_ Hd0].
  cbn [flat_map] in Hlen. rewrite length_app in Hlen.
  destruct (columns df'); [discriminate Hhd |].
  destruct (rows d); [discriminate Hd0 |].
  destruct (rows df'); [discriminate Hlen | reflexivity].
Qed.

(** With a provider whose frames have unambiguous labels it is the stack
    of the chunk results, in the canonical shape. *)
Lemma concatenated_plain env symbol ws tr :
  plain_provider env ->
  concatenated (kept (fst (run_windows env symbol ws tr)))
  = Ok (assemble (kept (fst (run_windows env symbol ws tr)))) /\
  forall df, assemble (kept (fst (run_windows env symbol ws tr))) = Some df ->
             canonical df.
Proof.
  intros Hp. pose proof (kept_canonical env symbol ws tr Hp) as Hc.
  destruct (kept (fst (run_windows env symbol ws tr))) as [| d ds].
  - split; [reflexivity | discriminate].
  - unfold concatenated. rewrite concat_canonical by (congruence || assumption).
    split; [reflexivity |]. cbn [assemble]. intros df H. injection H as <-.
    apply stack_canonical. exact Hc.
Qed.

Lemma sorted_not_empty df sorted :
  empty df = false -> columns sorted = columns df ->
  Permutation (rows df) (rows sorted) -> rows sorted <> [].
Proof.
  intros Hne Hcols Hperm Hnil. rewrite Hnil in Hperm.
  apply Permutation_sym, Permutation_nil in Hperm.
  unfold empty in Hne. rewrite Hperm in Hne.
  rewrite orb_true_r in Hne. discriminate.
Qed.

(** The body of the symbol loop goes one of the ways of [symbol_run]. *)
Lemma process_symbol_runs env symbol tr :
  exists o em, process_symbol env symbol tr = (o, tr ++ em) /\
               symbol_run env symbol tr o em.
Proof.
  unfold process_symbol.
  unfold bind at 1, now at 1.
  fold (symbol_end env tr).
  unfold bind at 1, lift at 1. rewrite lookback_computed.
  fold (symbol_dir env tr).
  unfold bind at 1, makedirs at 1.
  destruct (os_makedirs env (tr ++ [ENow (symbol_end env tr)]) (symbol_dir env tr))
    as [ex |] eqn:Hmk.
  { exists (Raise ex), (symbol_head env tr). split.
    - unfold symbol_head. rewrite <- app_assoc. reflexivity.
    - constructor. exact Hmk. }
  assert (Hhead : (tr ++ [ENow (symbol_end env tr)]) ++ [EMakedirs (symbol_dir env tr)]
                  = tr ++ symbol_head env tr)
    by (unfold symbol_head; rewrite <- app_assoc; reflexivity).
  rewrite Hhead.
  unfold bind at 1. unfold bind at 1.
  rewrite fetch_historical_data_runs by apply symbol_range.
  fold (symbol_fetched env symbol tr). fold (symbol_chunks env symbol tr).
  fold (symbol_frame env symbol tr).
  rewrite <- (app_assoc tr).
  destruct (symbol_frame env symbol tr) as [[df |] | ex] eqn:Hframe; cbn [lift].
  3:{ exists (Raise ex), (symbol_head env tr ++ symbol_fetched env symbol tr).
      split; [reflexivity | apply concat_failed; assumption]. }
  2:{ exists (Return tt), (symbol_head env tr ++ symbol_fetched env symbol tr ++ [ESleep 1]).
      split.
      - unfold ret, sleep. rewrite <- !app_assoc. reflexivity.
      - constructor; assumption. }
  pose proof Hframe as Hshape. unfold symbol_frame, symbol_chunks in Hshape.
  apply concatenated_some in Hshape. destruct Hshape as [Hd Hne].
  rewrite Hne. cbn [negb].
  unfold bind at 1. unfold bind at 1, lift at 1.
  destruct (sort_values "Date" df) as [sorted | ex] eqn:Hsort.
  2:{ exists (Raise ex), (symbol_head env tr ++ symbol_fetched env symbol tr).
      split; [reflexivity | eapply sort_failed; eassumption]. }
  destruct (sort_values_dated df sorted Hd Hsort) as (Hds & Hcols & _ & Hperm & Hsorted).
  pose proof (sorted_not_empty df sorted Hne Hcols Hperm) as Hrows.
  destruct (column_min_max_sorted df sorted Hd Hsort Hrows)
    as (dmin & dmax & Hmin & Hmax).
  fold (symbol_file env symbol tr).
  unfold bind at 1, to_csv at 1.
  destruct (df_to_csv env (tr ++ symbol_head env tr ++ symbol_fetched env symbol tr)
              (symbol_file env symbol tr) (csv_content sorted)) as [ex |] eqn:Hcsv.
  { eexists (Raise ex), _. split.
    - rewrite <- !app_assoc. reflexivity.
    - eapply write_failed; eassumption. }
  rewrite Hmin, Hmax.
  eexists (Return tt), _. split.
  - unfold bind, lift, print, sleep. rewrite <- !app_assoc. reflexivity.
  - eapply file_written; eassumption.
Qed.

(* ===================================================================== *)
(** ** Whole runs *)

Lemma sat_for_each {A} (P : Trace -> Outcome unit -> Trace -> Prop)
  (body : A -> M unit) (l : list A) :
  sequential P -> (forall x, sat (body x) P) -> sat (for_each l body) P.
Proof.
  intros [Hnil Hseq] Hbody.
  induction l as [| x xs IH]; intros tr.
  - exists (Return tt), []. split; [| apply Hnil].
    cbn. unfold ret. rewrite app_nil_r. reflexivity.
  - cbn [for_each]. unfold bind.
    destruct (Hbody x tr) as (o & em1 & Hrun & HP). rewrite Hrun.
    destruct o as [[] | ex |].
    + destruct (IH (tr ++ em1)) as (o2 & em2 & Hrun2 & HP2).
      exists o2, (em1 ++ em2). rewrite Hrun2, app_assoc.
      split; [reflexivity | apply Hseq; assumption].
    + exists (Raise ex), em1. split; [reflexivity | exact HP].
    + exists OutOfFuel, em1. split; [reflexivity | exact HP].
Qed.

Lemma sat_then (P : Trace -> Outcome unit -> Trace -> Prop) (m k : M unit) :
  sequential P -> sat m P -> sat k P -> sat (m ;; k) P.
Proof.
  intros [Hnil Hseq] Hm Hk tr. unfold bind.
  destruct (Hm tr) as (o & em1 & Hrun & HP). rewrite Hrun.
  destruct o as [[] | ex |].
  - destruct (Hk (tr ++ em1)) as (o2 & em2 & Hrun2 & HP2).
    exists o2, (em1 ++ em2). rewrite Hrun2, app_assoc.
    split; [reflexivity | apply Hseq; assumption].
  - exists (Raise ex), em1. split; [reflexivity | exact HP].
  - exists OutOfFuel, em1. split; [reflexivity | exact HP].
Qed.

(** A property of doing nothing, of sequences, of a printed line and of the
    body of the symbol loop is a property of the whole run. *)
Lemma run_sat env (P : Trace -> Outcome unit -> Trace -> Prop) :
  sequential P ->
  (forall tr line, P tr (Return tt) [EPrint line]) ->
  (forall tr ex, P tr (Raise ex) []) ->
  (forall symbol, sat (process_symbol env symbol) P) ->
  forall symbols batch_size,
    sat (process_symbols_in_batches env symbols batch_size) P.
Proof.
  intros Hseq Hprint Hraise Hsym symbols batch_size tr.
  unfold process_symbols_in_batches, bind at 1, lift.
  destruct (py_range 0 (Z.of_nat (List.length symbols)) batch_size) as [starts | ex].
  - apply sat_for_each; [exact Hseq |]. intros i.
    apply sat_then; [exact Hseq | |].
    + intros tr'. exists (Return tt), [EPrint (batch_banner symbols batch_size i)].
      split; [reflexivity | apply Hprint].
    + apply sat_for_each; assumption.
  - exists (Raise ex), []. rewrite app_nil_r. split; [reflexivity | apply Hraise].
Qed.

(** *** The events of the chunk fetches *)

Lemma chunk_events_kinds env tr symbol s e :
  Forall fetch_event (snd (chunk_outcome env tr symbol s e)).
Proof.
  unfold chunk_outcome.
  destruct (get_stock_bars env tr _) as [ex | [df |]]; cbn [snd].
  - repeat constructor.
  - destruct (empty df); [repeat constructor |].
    destruct (format_chunk env df); repeat constructor.
  - repeat constructor.
Qed.

Lemma window_events_kinds env symbol ws :
  forall tr, Forall fetch_event (window_events env symbol ws tr).
Proof.
  induction ws as [| [s e] ws IH]; intros tr; cbn [window_events].
  - constructor.
  - apply Forall_app. split; [| apply IH].
    apply Forall_app. split; [apply chunk_events_kinds | repeat constructor].
Qed.

(** *** Written files *)

Lemma csv_ok_sequential env :
  sequential (fun (_ : Trace) (_ : Outcome unit) em => Forall (csv_ok env) em).
Proof.
  split; [constructor |]. intros _ em1 _ em2 H1 H2. apply Forall_app. split; assumption.
Qed.

Lemma fetch_event_csv_ok env em : Forall fetch_event em -> Forall (csv_ok env) em.
Proof.
  apply Forall_impl. intros [] H; try exact I; contradiction.
Qed.

(** With a provider whose frames have unambiguous labels the frame of a
    symbol, and the frame sorted, have the canonical columns. *)
Lemma symbol_frame_plain env symbol tr df sorted :
  plain_provider env ->
  symbol_frame env symbol tr = Ok (Some df) ->
  sort_values "Date" df = Ok sorted ->
  canonical df /\ columns sorted = canonical_columns.
Proof.
  intros Hp Hframe Hsort. unfold symbol_frame, symbol_chunks in Hframe.
  destruct (concatenated_plain env symbol
              (windows (symbol_start env tr) (symbol_end env tr))
              (tr ++ symbol_head env tr) Hp) as [Heq Hcanon].
  rewrite Heq in Hframe. injection Hframe as Hframe.
  pose proof (Hcanon df Hframe) as Hc. split; [exact Hc |].
  destruct (sort_values_dated df sorted (canonical_dated df Hc) Hsort)
    as (_ & -> & _). apply Hc.
Qed.

Lemma symbol_run_csv_ok env symbol tr o em :
  symbol_run env symbol tr o em -> Forall (csv_ok env) em.
Proof.
  pose proof (fetch_event_csv_ok env _ (window_events_kinds env symbol
    (windows (symbol_start env tr) (symbol_end env tr)) (tr ++ symbol_head env tr)))
    as Hf.
  fold (symbol_fetched env symbol tr) in Hf.
  assert (Hh : Forall (csv_ok env) (symbol_head env tr)) by (repeat constructor).
  intros H.
  destruct H as [ex _ | _ _ | ex _ _ | df ex _ _ _
                 | df sorted line _ Hfr Hsort _ Hs _
                 | df sorted ex _ Hfr Hsort _ Hs _];
    repeat (apply Forall_app; split); try assumption;
    repeat constructor; try exact Hs;
    intros Hp; apply (symbol_frame_plain env symbol tr df sorted Hp Hfr Hsort).
Qed.

(** *** File-system failures *)

Lemma halts_skip env em1 :
  forall tr em2 o,
  Forall (fun ev => forall b, failed_op env b ev = None) em1 ->
  halts_at_failure env (tr ++ em1) em2 o ->
  halts_at_failure env tr (em1 ++ em2) o.
Proof.
  induction em1 as [| ev em1 IH]; intros tr em2 o Hall H.
  - rewrite app_nil_r in H. exact H.
  - inversion Hall as [| ? ? Hev Hrest]; subst.
    cbn [app halts_at_failure]. rewrite Hev.
    apply IH; [exact Hrest |]. rewrite <- app_assoc. exact H.
Qed.

Lemma halts_sequential env :
  sequential (fun tr o em => halts_at_failure env tr em o).
Proof.
  split; [intros; exact I |].
  intros tr em1. revert tr.
  induction em1 as [| ev em1 IH]; intros tr o em2 H1 H2.
  - rewrite app_nil_r in H2. exact H2.
  - cbn [app halts_at_failure] in *.
    destruct (failed_op env tr ev) as [ex |].
    + destruct H1 as [_ Hneq]. discriminate Hneq.
    + apply IH; [exact H1 |]. rewrite <- app_assoc. exact H2.
Qed.

Lemma fetch_event_never_fails env em :
  Forall fetch_event em -> Forall (fun ev => forall b, failed_op env b ev = None) em.
Proof.
  apply Forall_impl. intros [] H b; try reflexivity; contradiction.
Qed.

Lemma symbol_run_halts env symbol tr o em :
  symbol_run env symbol tr o em -> halts_at_failure env tr em o.
Proof.
  pose proof (fetch_event_never_fails env _ (window_events_kinds env symbol
    (windows (symbol_start env tr) (symbol_end env tr)) (tr ++ symbol_head env tr)))
    as Hf.
  fold (symbol_fetched env symbol tr) in Hf.
  intros H.
  destruct H as [ex Hmk | Hmk _ | ex Hmk _ | df ex Hmk _ _
                 | df sorted line Hmk _ _ _ _ Hcsv
                 | df sorted ex Hmk _ _ _ _ Hcsv];
    unfold symbol_head; cbn [app halts_at_failure failed_op]; rewrite Hmk.
  - split; reflexivity.
  - rewrite <- app_assoc. apply halts_skip; [exact Hf |].
    cbn [halts_at_failure failed_op]. exact I.
  - rewrite <- (app_nil_r (symbol_fetched env symbol tr)).
    apply halts_skip; [exact Hf | exact I].
  - rewrite <- (app_nil_r (symbol_fetched env symbol tr)).
    apply halts_skip; [exact Hf | exact I].
  - rewrite <- app_assoc. apply halts_skip; [exact Hf |].
    cbn [halts_at_failure failed_op].
    unfold symbol_head in Hcsv. cbn [app] in Hcsv. rewrite <- app_assoc.
    cbn [app]. rewrite Hcsv. exact I.
  - rewrite <- app_assoc. apply halts_skip; [exact Hf |].
    cbn [halts_at_failure failed_op].
    unfold symbol_head in Hcsv. cbn [app] in Hcsv. rewrite <- app_assoc.
    cbn [app]. rewrite Hcsv. split; reflexivity.
Qed.

(** The reading of [halts_at_failure]: whatever comes before it, a
    file-system operation that fails is the last event and its exception is
    the outcome. *)
Lemma halts_at_failure_split env :
  forall pre tr ev post o ex,
  halts_at_failure env tr (pre ++ ev :: post) o ->
  failed_op env (tr ++ pre) ev = Some ex ->
  post = [] /\ o = Raise ex.
Proof.
  induction pre as [| p pre IH]; intros tr ev post o ex H Hfail.
  - rewrite app_nil_r in Hfail. cbn [app halts_at_failure] in H.
    rewrite Hfail in H. exact H.
  - cbn [app halts_at_failure] in H.
    destruct (failed_op env tr p) as [ex' |] eqn:Hp.
    + destruct H as [Hnil _]. destruct pre; discriminate Hnil.
    + apply (IH (tr ++ [p]) ev post o ex H).
      rewrite <- app_assoc. exact Hfail.
Qed.

(** *** Pacing *)

Lemma pacing_run_app q em1 em2 :
  pacing_run q (em1 ++ em2) =
  match pacing_run q em1 with
  | Some q' => pacing_run q' em2
  | None => None
  end.
Proof.
  revert q. induction em1 as [| ev em1 IH]; intros q; [reflexivity |].
  cbn [app pacing_run]. destruct (pacing_step q ev); [apply IH | reflexivity].
Qed.

Lemma pacing_chunk env tr symbol s e :
  pacing_run Fetching (snd (chunk_outcome env tr symbol s e) ++ [ESleep 1])
  = Some Fetching.
Proof.
  unfold chunk_outcome.
  destruct (get_stock_bars env tr _) as [ex | [df |]]; cbn [snd]; try reflexivity.
  destruct (empty df); [reflexivity |].
  destruct (format_chunk env df); reflexivity.
Qed.

(** Every chunk fetch is paced, whatever its outcome. *)
Lemma pacing_windows env symbol ws :
  forall tr, pacing_run Fetching (window_events env symbol ws tr) = Some Fetching.
Proof.
  induction ws as [| [s e] ws IH]; intros tr; cbn [window_events]; [reflexivity |].
  rewrite pacing_run_app, pacing_chunk. apply IH.
Qed.

Lemma pacing_sequential :
  sequential (fun (_ : Trace) o em =>
                exists q, pacing_run Idle em = Some q /\ final_phase o q).
Proof.
  split.
  - intros _. exists Idle. split; reflexivity.
  - intros _ em1 o em2 (q1 & Hq1 & Hf1) (q2 & Hq2 & Hf2).
    cbn [final_phase] in Hf1. subst q1.
    exists q2. rewrite pacing_run_app, Hq1. split; assumption.
Qed.

Lemma symbol_run_paced env symbol tr o em :
  symbol_run env symbol tr o em ->
  exists q, pacing_run Idle em = Some q /\ final_phase o q.
Proof.
  intros H.
  destruct H as [ex _ | _ _ | ex _ _ | df ex _ _ _
                 | df sorted line _ _ _ _ _ _ | df sorted ex _ _ _ _ _ _];
    unfold symbol_head, symbol_fetched; cbn [app pacing_run pacing_step];
    try rewrite pacing_run_app; try rewrite pacing_windows;
    cbn [pacing_run pacing_step];
    eexists; (split; [reflexivity |]); cbn [final_phase]; auto.
Qed.

(* ===================================================================== *)
(** ** What the events of a symbol are *)

(** The provider is asked for the windows of the loop, in order. *)
Lemma window_events_requested env symbol ws :
  forall tr, requested_windows (window_events env symbol ws tr) = ws.
Proof.
  induction ws as [| [s e] ws IH]; intros tr; cbn [window_events]; [reflexivity |].
  rewrite !requested_windows_app, chunk_requested_window, IH. reflexivity.
Qed.

Lemma window_events_requests env symbol ws :
  forall tr, List.length (requests_of (window_events env symbol ws tr)) = List.length ws.
Proof.
  induction ws as [| [s e] ws IH]; intros tr; cbn [window_events]; [reflexivity |].
  rewrite !requests_of_app, chunk_requests, !length_app, IH. reflexivity.
Qed.

Lemma plan_windows_length n : forall cs e, (List.length (plan_windows n cs e) <= n)%nat.
Proof.
  induction n as [| n IH]; intros cs e; rewrite plan_windows_unfold;
    destruct (cs <? e); cbn [List.length]; try lia.
  specialize (IH (Z.min (cs + timedelta 1000) e + timedelta 1) e). lia.
Qed.

Lemma windows_degenerate s e : e <= s -> windows s e = [].
Proof.
  intros H. unfold windows. rewrite plan_windows_unfold.
  apply Z.ltb_ge in H. rewrite H. reflexivity.
Qed.

(** What holds of the windows of any range with [s < e]: the first starts
    at [s], none spans more than 1000 days, each begins a day after the end
    of the one before, and the last ends at [e] or within the day before. *)
Lemma windows_cover_up_to_a_day s e :
  s < e ->
  option_map fst (hd_error (windows s e)) = Some s /\
  Forall (fun w => snd w - fst w <= timedelta 1000) (windows s e) /\
  contiguous (windows s e) /\
  exists w, hd_error (rev (windows s e)) = Some w /\ snd w <= e <= snd w + timedelta 1.
Proof.
  intros Hlt. unfold windows. repeat split.
  - rewrite plan_windows_unfold.
    pose proof (enough_loop_fuel s e) as Hfuel.
    destruct (loop_fuel s e) as [| n]; [apply enough_0 in Hfuel; lia |].
    apply Z.ltb_lt in Hlt. rewrite Hlt. reflexivity.
  - apply plan_windows_span.
  - apply plan_windows_contiguous.
  - destruct (plan_windows_last (loop_fuel s e) s e (enough_loop_fuel s e) Hlt)
      as (w & Hw & Hb & _).
    exists w. split; assumption.
Qed.

(** With enough fuel, the last window ends exactly at [e] when, and only
    when, what is left of the range after the full strides of 1001 days is
    between a microsecond and 1000 days. *)
Lemma plan_windows_last_exact n :
  forall cs e, enough n cs e -> cs < e ->
  exists w, hd_error (rev (plan_windows n cs e)) = Some w /\
            (snd w = e <-> 0 < (e - cs) mod timedelta 1001 <= timedelta 1000).
Proof.
  induction n as [| n IH]; intros cs e Hn Hlt.
  - apply enough_0 in Hn. lia.
  - rewrite plan_windows_unfold.
    destruct (cs <? e) eqn:Hb; [| apply Z.ltb_ge in Hb; lia].
    set (ce := Z.min (cs + timedelta 1000) e).
    pose proof timedelta_1_pos as H1.
    assert (H1000 : 0 < timedelta 1000) by reflexivity.
    pose proof timedelta_1001 as HW.
    destruct (Z_lt_le_dec (ce + timedelta 1) e) as [Hnext | Hstop].
    + destruct (IH (ce + timedelta 1) e) as (w & Hw & Hiff);
        [apply enough_next; assumption | exact Hnext |].
      exists w. split.
      * cbn [rev]. destruct (rev (plan_windows n (ce + timedelta 1) e)) as [| x xs];
          [discriminate | exact Hw].
      * rewrite Hiff.
        assert (Hce : ce = cs + timedelta 1000) by (subst ce; lia).
        replace (e - (ce + timedelta 1)) with ((e - cs) + (-1) * timedelta 1001)
          by (rewrite Hce, HW; ring).
        rewrite Z.mod_add by (rewrite HW; lia). reflexivity.
    + exists (cs, ce). split.
      * rewrite (plan_windows_unfold n).
        apply Z.ltb_ge in Hstop. rewrite Hstop. reflexivity.
      * cbn [fst snd].
        destruct (Z.eq_dec (e - cs) (timedelta 1001)) as [Heq | Hneq].
        -- rewrite Heq, Z.mod_same by (rewrite HW; lia). subst ce. lia.
        -- rewrite Z.mod_small by (subst ce; lia). subst ce. lia.
Qed.

(** The windows of a range with [s < e] cover it exactly in just that
    case. *)
Lemma windows_cover_exactly_iff s e :
  s < e ->
  (covers_exactly s e (windows s e) <->
   0 < (e - s) mod timedelta 1001 <= timedelta 1000).
Proof.
  intros Hlt.
  destruct (windows_cover_up_to_a_day s e Hlt) as (Hfirst & Hspan & Hcont & _).
  destruct (plan_windows_last_exact (loop_fuel s e) s e (enough_loop_fuel s e) Hlt)
    as (w & Hw & Hiff).
  fold (windows s e) in Hw.
  unfold covers_exactly. rewrite Hw. cbn [option_map]. rewrite <- Hiff.
  split.
  - intros (_ & Hlast & _). injection Hlast as ->. reflexivity.
  - intros <-. repeat split; assumption.
Qed.

(** The range the loader itself asks for, the 1825 days before the clock
    reading, is covered exactly, by two windows. *)
Lemma loader_range_covered t :
  covers_exactly (t - timedelta (5 * 365)) t (windows (t - timedelta (5 * 365)) t).
Proof.
  assert (Hlt : t - timedelta (5 * 365) < t) by (unfold timedelta, us_per_day; lia).
  apply (windows_cover_exactly_iff _ _ Hlt).
  replace (t - (t - timedelta (5 * 365))) with (timedelta (5 * 365)) by ring.
  vm_compute. split; [reflexivity | discriminate].
Qed.

Lemma date_of_lookback t : date_of (t - timedelta (5 * 365)) = date_of t - 5 * 365.
Proof.
  unfold date_of, timedelta.
  replace (t - 5 * 365 * us_per_day) with (t + (- (5 * 365)) * us_per_day) by ring.
  rewrite Z.div_add by (unfold us_per_day; lia). lia.
Qed.

(** The directory and file of a symbol depend on the clock reading only
    through its calendar date. *)
Lemma symbol_dir_export env tr :
  symbol_dir env tr = export_dir (date_of (symbol_end env tr)).
Proof.
  unfold symbol_dir, output_dir_name, export_dir, symbol_start, strftime_ymd.
  rewrite date_of_lookback. reflexivity.
Qed.

Lemma symbol_file_destination env symbol tr :
  symbol_file env symbol tr = destination (date_of (symbol_end env tr)) symbol.
Proof.
  unfold symbol_file, output_file_name, destination.
  rewrite symbol_dir_export. reflexivity.
Qed.

Lemma fetch_event_In em ev : Forall fetch_event em -> In ev em -> fetch_event ev.
Proof. intros H. rewrite Forall_forall in H. apply H. Qed.

Lemma symbol_fetched_kinds env symbol tr : Forall fetch_event (symbol_fetched env symbol tr).
Proof. apply window_events_kinds. Qed.

(** The only directory a symbol creates is its own. *)
Lemma symbol_run_makedirs env symbol tr o em path :
  symbol_run env symbol tr o em -> In (EMakedirs path) em -> path = symbol_dir env tr.
Proof.
  pose proof (symbol_fetched_kinds env symbol tr) as Hf.
  intros H Hin.
  destruct H; unfold symbol_head in Hin; cbn [app In] in Hin;
    repeat match goal with
           | H : _ \/ _ |- _ => destruct H
           | H : In _ (_ ++ _) |- _ => apply in_app_or in H
           | H : In _ (_ :: _) |- _ => cbn [In] in H
           | H : In _ [] |- _ => contradiction H
           | H : False |- _ => contradiction H
           | H : EMakedirs _ = EMakedirs _ |- _ => injection H as <-; reflexivity
           | H : _ = EMakedirs _ |- _ => discriminate H
           | H : In (EMakedirs _) (symbol_fetched _ _ _) |- _ =>
               apply (fetch_event_In _ _ Hf) in H; contradiction H
           end.
Qed.

(** The only file a symbol writes is its own: the rows fetched for it,
    rearranged in date order. *)
Lemma symbol_run_written env symbol tr o em path content :
  symbol_run env symbol tr o em -> In (EToCsv path content) em ->
  path = symbol_file env symbol tr /\
  sorted_by_Date content /\
  exists df, symbol_frame env symbol tr = Ok (Some df) /\
             Permutation (map snd (rows df)) (snd content).
Proof.
  pose proof (symbol_fetched_kinds env symbol tr) as Hf.
  intros H Hin.
  destruct H as [ex _ | _ _ | ex _ _ | df ex _ _ _
                 | df sorted line _ Hfr Hc Hp Hs _ | df sorted ex _ Hfr Hc Hp Hs _];
    unfold symbol_head in Hin; cbn [app In] in Hin;
    repeat match goal with
           | H : _ \/ _ |- _ => destruct H
           | H : In _ (_ ++ _) |- _ => apply in_app_or in H
           | H : In _ (_ :: _) |- _ => cbn [In] in H
           | H : In _ [] |- _ => contradiction H
           | H : False |- _ => contradiction H
           | H : EToCsv _ _ = EToCsv _ _ |- _ => injection H as <- <-
           | H : _ = EToCsv _ _ |- _ => discriminate H
           | H : In (EToCsv _ _) (symbol_fetched _ _ _) |- _ =>
               apply (fetch_event_In _ _ Hf) in H; contradiction H
           end;
    (split; [reflexivity |]); (split; [exact Hs |]);
    exists df; (split; [exact Hfr |]); apply Permutation_map; exact Hp.
Qed.

(* ===================================================================== *)
(** ** Batches *)

Lemma firstn_plus {A} (n m : nat) (l : list A) :
  firstn (n + m) l = firstn n l ++ firstn m (skipn n l).
Proof.
  revert l. induction n as [| n IH]; intros l; [reflexivity |].
  destruct l as [| x l]; cbn [Nat.add firstn skipn app].
  - rewrite firstn_nil. reflexivity.
  - rewrite IH. reflexivity.
Qed.

(** A slice between two bounds that are not negative. *)
Lemma slice_nonneg {A} (l : list A) (a b : Z) :
  0 <= a <= b ->
  slice l a b = firstn (Z.to_nat (b - a)) (skipn (Z.to_nat a) l).
Proof.
  intros Hab. unfold slice.
  replace (a <? 0) with false by (symmetry; apply Z.ltb_ge; lia).
  replace (b <? 0) with false by (symmetry; apply Z.ltb_ge; lia).
  set (len := Z.of_nat (List.length l)).
  destruct (Z_lt_le_dec a len) as [Ha | Ha].
  - replace (Z.min a len) with a by lia.
    destruct (Z_lt_le_dec b len) as [Hb | Hb].
    + replace (Z.min b len) with b by lia. reflexivity.
    + replace (Z.min b len) with len by lia.
      rewrite !firstn_all2; try reflexivity; rewrite length_skipn; subst len; lia.
  - rewrite !(skipn_all2 l) by (subst len; lia).
    rewrite !firstn_nil. reflexivity.
Qed.

Lemma py_range_positive (n step : Z) :
  0 < step ->
  py_range 0 n step
  = Ok (map (fun k => Z.of_nat k * step) (seq 0 (Z.to_nat ((n + step - 1) / step)))).
Proof.
  intros Hstep. unfold py_range.
  replace (step =? 0) with false by (symmetry; apply Z.eqb_neq; lia).
  replace (0 <? step) with true by (symmetry; apply Z.ltb_lt; lia).
  replace (n - 0 + step - 1) with (n + step - 1) by ring.
  f_equal.
Qed.

Lemma batch_slice (symbols : list string) (b : nat) (k : nat) :
  (0 < b)%nat ->
  slice symbols (Z.of_nat k * Z.of_nat b) (Z.of_nat k * Z.of_nat b + Z.of_nat b)
  = firstn b (skipn (k * b) symbols).
Proof.
  intros Hb. rewrite slice_nonneg by lia.
  replace (Z.of_nat k * Z.of_nat b + Z.of_nat b - Z.of_nat k * Z.of_nat b)
    with (Z.of_nat b) by ring.
  rewrite Nat2Z.id. rewrite <- Nat2Z.inj_mul, Nat2Z.id. reflexivity.
Qed.

Lemma concat_batches {A} (l : list A) (b count : nat) :
  List.concat (map (fun k => firstn b (skipn (k * b) l)) (seq 0 count))
  = firstn (count * b) l.
Proof.
  induction count as [| c IH]; [reflexivity |].
  rewrite seq_S, map_app, concat_app, IH. cbn [map List.concat Nat.add].
  rewrite app_nil_r. rewrite <- firstn_plus. f_equal. lia.
Qed.

(** The number of batches, as a natural number. *)
Lemma batch_count_spec (n b : nat) :
  (0 < b)%nat ->
  let count := Z.to_nat ((Z.of_nat n + Z.of_nat b - 1) / Z.of_nat b) in
  (n <= count * b)%nat /\ (count = 0 \/ (count - 1) * b < n)%nat.
Proof.
  intros Hb count.
  assert (Hq : 0 <= (Z.of_nat n + Z.of_nat b - 1) / Z.of_nat b)
    by (apply Z.div_pos; lia).
  pose proof (Z.div_mod (Z.of_nat n + Z.of_nat b - 1) (Z.of_nat b)) as Hdm.
  pose proof (Z.mod_pos_bound (Z.of_nat n + Z.of_nat b - 1) (Z.of_nat b)) as Hmod.
  assert (Hc : Z.of_nat count = (Z.of_nat n + Z.of_nat b - 1) / Z.of_nat b)
    by (subst count; rewrite Z2Nat.id; lia).
  split.
  - apply Nat2Z.inj_le. rewrite Nat2Z.inj_mul, Hc. nia.
  - destruct count as [| c]; [left; reflexivity | right].
    apply Nat2Z.inj_lt. rewrite Nat2Z.inj_mul.
    replace (S c - 1)%nat with c by lia.
    rewrite Nat2Z.inj_succ in Hc. nia.
Qed.

Lemma batches_partition (symbols : list string) (batch_size : Z) :
  0 < batch_size ->
  exists bs,
    batches symbols batch_size = Ok bs /\
    List.concat bs = symbols /\
    Forall (fun b => (0 < List.length b)%nat /\
                     Z.of_nat (List.length b) <= batch_size) bs /\
    Forall (fun b => Z.of_nat (List.length b) = batch_size) (removelast bs) /\
    Z.of_nat (List.length bs)
    = (Z.of_nat (List.length symbols) + batch_size - 1) / batch_size.
Proof.
  intros Hpos.
  set (b := Z.to_nat batch_size).
  assert (Hb : (0 < b)%nat) by (subst b; lia).
  assert (Hbz : batch_size = Z.of_nat b) by (subst b; rewrite Z2Nat.id; lia).
  set (n := List.length symbols).
  set (count := Z.to_nat ((Z.of_nat n + Z.of_nat b - 1) / Z.of_nat b)).
  destruct (batch_count_spec n b Hb) as [Hcover Hlast].
  fold count in Hcover, Hlast.
  assert (Hbatches : batches symbols batch_size
                     = Ok (map (fun k => firstn b (skipn (k * b) symbols)) (seq 0 count))).
  { unfold batches. rewrite py_range_positive by exact Hpos.
    cbn [res_bind]. rewrite map_map. f_equal. fold n. rewrite Hbz. fold count.
    apply map_ext. intros k. apply batch_slice. exact Hb. }
  eexists. split; [exact Hbatches |].
  split; [| split; [| split]].
  - rewrite concat_batches. apply firstn_all2. exact Hcover.
  - apply Forall_forall. intros x Hin. apply in_map_iff in Hin.
    destruct Hin as (k & <- & Hk). apply in_seq in Hk.
    rewrite length_firstn, length_skipn. fold n.
    assert (k * b <= (count - 1) * b)%nat by (apply Nat.mul_le_mono_r; lia).
    destruct Hlast as [H0 | Hlast]; [lia |]. lia.
  - destruct count as [| c]; [constructor |].
    rewrite seq_S, map_app. cbn [map]. rewrite removelast_last.
    apply Forall_forall. intros x Hin. apply in_map_iff in Hin.
    destruct Hin as (k & <- & Hk). apply in_seq in Hk.
    rewrite length_firstn, length_skipn. fold n.
    assert (S k * b <= c * b)%nat by (apply Nat.mul_le_mono_r; lia).
    destruct Hlast as [H0 | Hlast]; [discriminate |].
    replace (S c - 1)%nat with c in Hlast by lia. lia.
  - rewrite length_map, length_seq. subst count. rewrite Z2Nat.id.
    + rewrite Hbz. reflexivity.
    + apply Z.div_pos; lia.
Qed.

(** For a positive batch size the batches of [process_symbols_in_batches]
    split the list of symbols: one after the other they make up the list;
    none is empty or longer than the batch size; all but the last have
    exactly the batch size; and there are [len / batch_size], rounded up,
    of them. *)
Theorem batches_split_the_symbols (symbols : list string) (batch_size : Z) :
  0 < batch_size ->
  exists bs,
    batches symbols batch_size = Ok bs /\
    List.concat bs = symbols /\
    Forall (fun b => (0 < List.length b)%nat /\
                     Z.of_nat (List.length b) <= batch_size) bs /\
    Forall (fun b => Z.of_nat (List.length b) = batch_size) (removelast bs) /\
    Z.of_nat (List.length bs)
    = (Z.of_nat (List.length symbols) + batch_size - 1) / batch_size.
Proof. apply batches_partition. Qed.

Lemma batches_split_the_symbols_witness :
  0 < 50 /\
  batches (repeat "SYM" 120) 50
  = Ok [repeat "SYM" 50; repeat "SYM" 50; repeat "SYM" 20].
Proof.
  split; [reflexivity |].
  destruct (batches_split_the_symbols (repeat "SYM" 120) 50 eq_refl)
    as (bs & Hbs & _).
  rewrite Hbs. vm_compute in Hbs. injection Hbs as <-. reflexivity.
Defined.

(** With a batch size of zero [process_symbols_in_batches] raises the
    [ValueError] of [range] before doing anything; with a negative one it
    returns at once: in both cases no symbol is processed and nothing is
    printed. *)
Theorem nonpositive_batch_size_processes_nothing env symbols tr :
  process_symbols_in_batches env symbols 0 tr
  = (Raise (ValueError "range() arg 3 must not be zero"), tr) /\
  forall batch_size,
    batch_size < 0 ->
    process_symbols_in_batches env symbols batch_size tr = (Return tt, tr).
Proof.
  split; [reflexivity |].
  intros batch_size Hneg.
  unfold process_symbols_in_batches, bind, lift, py_range.
  replace (batch_size =? 0) with false by (symmetry; apply Z.eqb_neq; lia).
  replace (0 <? batch_size) with false by (symmetry; apply Z.ltb_ge; lia).
  set (n := Z.of_nat (List.length symbols)).
  assert (Hq : (0 - n - batch_size - 1) / - batch_size <= 0).
  { destruct (Z_lt_le_dec (0 - n - batch_size - 1) 0) as [Hlt | Hge].
    - assert ((0 - n - batch_size - 1) / - batch_size < 0)
        by (apply Z.div_lt_upper_bound; lia).
      lia.
    - rewrite Z.div_small by (subst n; lia). lia. }
  replace (Z.to_nat ((0 - n - batch_size - 1) / - batch_size)) with O by lia.
  reflexivity.
Qed.

Lemma nonpositive_batch_size_processes_nothing_witness :
  -50 < 0 /\
  process_symbols_in_batches (Scenario.world Scenario.noon) ["AAPL"; "MSFT"] (-50) []
  = (Return tt, []).
Proof.
  split; [reflexivity |].
  apply (proj2 (nonpositive_batch_size_processes_nothing
                  (Scenario.world Scenario.noon) ["AAPL"; "MSFT"] [])).
  reflexivity.
Defined.

(* ===================================================================== *)
(** ** What a symbol costs *)

Lemma window_events_requests_exact env symbol ws :
  forall tr,
  requests_of (window_events env symbol ws tr)
  = map (fun w => StockBarsRequest symbol (fst w) (snd w)) ws.
Proof.
  induction ws as [| [s e] ws IH]; intros tr; cbn [window_events map]; [reflexivity |].
  rewrite !requests_of_app, chunk_requests, IH. reflexivity.
Qed.

(** The two windows of the 1825 days before [t]. *)
Lemma loader_windows_two t :
  windows (t - timedelta (5 * 365)) t
  = [(t - timedelta 1825, t - timedelta 825); (t - timedelta 824, t)].
Proof.
  unfold windows.
  assert (Hfuel : loop_fuel (t - timedelta (5 * 365)) t = 2%nat).
  { unfold loop_fuel.
    replace (t - (t - timedelta (5 * 365))) with (timedelta 1825)
      by (unfold timedelta; ring).
    reflexivity. }
  rewrite Hfuel.
  rewrite plan_windows_unfold.
  replace (t - timedelta (5 * 365) <? t) with true
    by (symmetry; apply Z.ltb_lt; unfold timedelta, us_per_day; lia).
  replace (Z.min (t - timedelta (5 * 365) + timedelta 1000) t)
    with (t - timedelta 825) by (unfold timedelta, us_per_day; lia).
  rewrite plan_windows_unfold.
  replace (t - timedelta 825 + timedelta 1 <? t) with true
    by (symmetry; apply Z.ltb_lt; unfold timedelta, us_per_day; lia).
  replace (Z.min (t - timedelta 825 + timedelta 1 + timedelta 1000) t)
    with t by (unfold timedelta, us_per_day; lia).
  rewrite plan_windows_unfold.
  replace (t + timedelta 1 <? t) with false
    by (symmetry; apply Z.ltb_ge; unfold timedelta, us_per_day; lia).
  replace (t - timedelta (5 * 365)) with (t - timedelta 1825) by reflexivity.
  replace (t - timedelta 825 + timedelta 1) with (t - timedelta 824)
    by (unfold timedelta, us_per_day; lia).
  reflexivity.
Qed.

Lemma symbol_fetched_requests env symbol tr :
  requests_of (symbol_fetched env symbol tr)
  = [StockBarsRequest symbol (symbol_end env tr - timedelta 1825)
                      (symbol_end env tr - timedelta 825);
     StockBarsRequest symbol (symbol_end env tr - timedelta 824) (symbol_end env tr)].
Proof.
  unfold symbol_fetched. rewrite window_events_requests_exact.
  unfold symbol_start. rewrite loader_windows_two. reflexivity.
Qed.

(** Once its directory is made, a symbol is fetched with exactly two
    provider calls, whatever they bring: one for the 1000 days from 1825
    days before the clock reading, one from the day after those up to the
    clock reading. *)
Theorem two_requests_per_symbol env symbol tr :
  os_makedirs env (tr ++ [ENow (datetime_now env tr)])
              (output_dir_name (datetime_now env tr - timedelta (5 * 365))
                               (datetime_now env tr)) = None ->
  exists o em,
    process_symbol env symbol tr = (o, tr ++ em) /\
    requests_of em
    = [StockBarsRequest symbol (datetime_now env tr - timedelta 1825)
                        (datetime_now env tr - timedelta 825);
       StockBarsRequest symbol (datetime_now env tr - timedelta 824)
                        (datetime_now env tr)].
Proof.
  intros Hmk.
  destruct (process_symbol_runs env symbol tr) as (o & em & Hrun & Hsym).
  exists o, em. split; [exact Hrun |].
  pose proof (symbol_fetched_requests env symbol tr) as Hreq.
  unfold symbol_end in Hreq.
  destruct Hsym as [ex Hfail | _ _ | ex _ _ | df ex _ _ _
                    | df sorted line _ _ _ _ _ _ | df sorted ex _ _ _ _ _ _].
  - unfold symbol_dir, symbol_start, symbol_end in Hfail. congruence.
  - rewrite !requests_of_app, Hreq. reflexivity.
  - rewrite !requests_of_app, Hreq. reflexivity.
  - rewrite !requests_of_app, Hreq. reflexivity.
  - rewrite !requests_of_app, Hreq. reflexivity.
  - rewrite !requests_of_app, Hreq. reflexivity.
Qed.

Lemma two_requests_per_symbol_witness :
  requests_of (snd (process_symbol (Scenario.world Scenario.noon) "TEST" []))
  = [StockBarsRequest "TEST" (Scenario.noon - timedelta 1825)
                      (Scenario.noon - timedelta 825);
     StockBarsRequest "TEST" (Scenario.noon - timedelta 824) Scenario.noon].
Proof.
  destruct (two_requests_per_symbol (Scenario.world Scenario.noon) "TEST" [] eq_refl)
    as (o & em & Hrun & Hreq).
  rewrite Hrun. exact Hreq.
Defined.

(* ===================================================================== *)
(** ** What a completed run adds up to *)

Lemma for_each_appends {A} (body : A -> M unit) (l : list A) :
  (forall x tr, exists o em, body x tr = (o, tr ++ em)) ->
  forall tr, exists o em, for_each l body tr = (o, tr ++ em).
Proof.
  intros Hbody tr.
  destruct (sat_for_each (fun _ _ _ => True) body l) with (tr := tr)
    as (o & em & Hrun & _).
  - split; intros; exact I.
  - intros x tr'. destruct (Hbody x tr') as (o & em & Hrun).
    exists o, em. split; [exact Hrun | exact I].
  - exists o, em. exact Hrun.
Qed.

(** What a loop that returns has collected is what its iterations collect,
    one after the other. *)
Lemma for_each_collect {A B} (f : Event -> list B) (g : A -> list B)
  (body : A -> M unit) :
  (forall x tr, exists o em, body x tr = (o, tr ++ em)) ->
  (forall x tr em, body x tr = (Return tt, tr ++ em) -> flat_map f em = g x) ->
  forall l tr em,
    for_each l body tr = (Return tt, tr ++ em) ->
    flat_map f em = flat_map g l.
Proof.
  intros Happ Hbody.
  induction l as [| x xs IH]; intros tr em Hrun.
  - cbn in Hrun. unfold ret in Hrun. injection Hrun as Hem.
    rewrite <- (app_nil_r tr) in Hem at 1. apply app_inv_head in Hem.
    subst em. reflexivity.
  - cbn [for_each] in Hrun. unfold bind in Hrun.
    destruct (Happ x tr) as (o & em1 & Hx). rewrite Hx in Hrun.
    destruct o as [[] | ex |]; try discriminate Hrun.
    destruct (for_each_appends body xs Happ (tr ++ em1)) as (o2 & em2 & Hxs).
    rewrite Hxs in Hrun. injection Hrun as -> Hem.
    rewrite <- app_assoc in Hem. apply app_inv_head in Hem. subst em.
    rewrite flat_map_app. cbn [flat_map]. f_equal.
    + apply (Hbody x tr). exact Hx.
    + apply (IH (tr ++ em1)). exact Hxs.
Qed.

Lemma process_symbol_appends env symbol tr :
  exists o em, process_symbol env symbol tr = (o, tr ++ em).
Proof.
  destruct (process_symbol_runs env symbol tr) as (o & em & Hrun & _).
  exists o, em. exact Hrun.
Qed.

Lemma flat_map_flat_map {A B C} (f : B -> list C) (g : A -> list B) (l : list A) :
  flat_map f (flat_map g l) = flat_map (fun x => flat_map f (g x)) l.
Proof.
  induction l as [| x xs IH]; [reflexivity |].
  cbn [flat_map]. rewrite flat_map_app, IH. reflexivity.
Qed.

(** A completed run with a positive batch size has collected, apart from
    the batch banners, what its symbols collect, in the order of the
    list. *)
Lemma run_collect {B} env (f : Event -> list B) (g : string -> list B)
  symbols batch_size :
  0 < batch_size ->
  (forall line, f (EPrint line) = []) ->
  (forall symbol tr em,
      process_symbol env symbol tr = (Return tt, tr ++ em) ->
      flat_map f em = g symbol) ->
  forall tr em,
    process_symbols_in_batches env symbols batch_size tr = (Return tt, tr ++ em) ->
    flat_map f em = flat_map g symbols.
Proof.
  intros Hpos Hprint Hsym tr em Hrun.
  destruct (batches_partition symbols batch_size Hpos)
    as (bs & Hbs & Hconcat & _).
  unfold batches in Hbs.
  unfold process_symbols_in_batches, bind at 1, lift in Hrun.
  destruct (py_range 0 (Z.of_nat (List.length symbols)) batch_size) as [starts |];
    [| discriminate Hbs].
  cbn [res_bind] in Hbs. injection Hbs as <-.
  rewrite <- Hconcat.
  rewrite <- flat_map_concat_map, flat_map_flat_map.
  revert Hrun. apply for_each_collect.
  - intros i tr'. unfold bind, print.
    destruct (for_each_appends (process_symbol env)
                (slice symbols i (i + batch_size)) (process_symbol_appends env)
                (tr' ++ [EPrint (batch_banner symbols batch_size i)]))
      as (o & em' & Hinner).
    rewrite Hinner. exists o, ([EPrint (batch_banner symbols batch_size i)] ++ em').
    rewrite app_assoc. reflexivity.
  - intros i tr' em' Hbody. unfold bind, print in Hbody.
    destruct (for_each_appends (process_symbol env)
                (slice symbols i (i + batch_size)) (process_symbol_appends env)
                (tr' ++ [EPrint (batch_banner symbols batch_size i)]))
      as (o & em2 & Hinner).
    rewrite Hinner in Hbody. injection Hbody as -> Hem.
    rewrite <- app_assoc in Hem. apply app_inv_head in Hem. subst em'.
    cbn [app flat_map]. rewrite Hprint. cbn [app].
    revert Hinner. apply for_each_collect.
    + apply process_symbol_appends.
    + exact Hsym.
Qed.

Lemma flat_map_map_out {A B C} (h : B -> C) (k : A -> list B) (l : list A) :
  flat_map (fun x => map h (k x)) l = map h (flat_map k l).
Proof.
  induction l as [| x l IH]; [reflexivity |].
  cbn [flat_map]. rewrite map_app, IH. reflexivity.
Qed.

Lemma chunk_events_symbol env tr symbol s e :
  flat_map requested_symbol (snd (chunk_outcome env tr symbol s e)) = [symbol].
Proof.
  unfold chunk_outcome.
  destruct (get_stock_bars env tr _) as [ex | [df |]]; cbn [snd]; try reflexivity.
  destruct (empty df); [reflexivity |].
  destruct (format_chunk env df); reflexivity.
Qed.

Lemma chunk_events_slept env tr symbol s e :
  flat_map slept_seconds (snd (chunk_outcome env tr symbol s e)) = [].
Proof.
  unfold chunk_outcome.
  destruct (get_stock_bars env tr _) as [ex | [df |]]; cbn [snd]; try reflexivity.
  destruct (empty df); [reflexivity |].
  destruct (format_chunk env df); reflexivity.
Qed.

Lemma window_events_symbols env symbol ws :
  forall tr,
  flat_map requested_symbol (window_events env symbol ws tr) = map (fun _ => symbol) ws.
Proof.
  induction ws as [| [s e] ws IH]; intros tr; cbn [window_events map]; [reflexivity |].
  rewrite !flat_map_app, chunk_events_symbol, IH. reflexivity.
Qed.

Lemma window_events_slept env symbol ws :
  forall tr,
  flat_map slept_seconds (window_events env symbol ws tr) = map (fun _ => 1) ws.
Proof.
  induction ws as [| [s e] ws IH]; intros tr; cbn [window_events map]; [reflexivity |].
  rewrite !flat_map_app, chunk_events_slept, IH. reflexivity.
Qed.

Lemma symbol_fetched_symbols env symbol tr :
  flat_map requested_symbol (symbol_fetched env symbol tr) = [symbol; symbol].
Proof.
  unfold symbol_fetched, symbol_start.
  rewrite window_events_symbols, loader_windows_two. reflexivity.
Qed.

Lemma symbol_fetched_slept env symbol tr :
  flat_map slept_seconds (symbol_fetched env symbol tr) = [1; 1].
Proof.
  unfold symbol_fetched, symbol_start.
  rewrite window_events_slept, loader_windows_two. reflexivity.
Qed.

(** The run of a symbol that [process_symbol] made from [tr]. *)
Lemma process_symbol_returned env symbol tr em :
  process_symbol env symbol tr = (Return tt, tr ++ em) ->
  symbol_run env symbol tr (Return tt) em.
Proof.
  intros Hrun.
  destruct (process_symbol_runs env symbol tr) as (o & em' & Hrun' & Hsym).
  rewrite Hrun in Hrun'. injection Hrun' as <- Hem.
  apply app_inv_head in Hem. subst em'. exact Hsym.
Qed.


(* ===================================================================== *)
(** ** The claims *)

(** *** C1: the windows of the chunking loop *)

(** Claim C1, at a range of 1001 days.  From 2022-01-08 to 2024-10-05 the
    loop of [fetch_historical_data] asks the provider for one window, which
    ends on 2024-10-04: the next start, a day later, is not before the end
    date, so the loop stops and the windows requested do not cover the
    range up to its end.  ([windows_cover_up_to_a_day] has what holds of
    every range, [windows_cover_exactly_iff] the ranges that are covered
    exactly.) *)
Theorem window_loop_stops_a_day_short env symbol tr :
  exists r em,
    fetch_historical_data env symbol (timedelta 19000) (timedelta 20001) tr
      = (Return r, tr ++ em) /\
    requested_windows em = [(timedelta 19000, timedelta 20000)] /\
    ~ covers_exactly (timedelta 19000) (timedelta 20001) (requested_windows em).
Proof.
  assert (Hrange : within_range (timedelta 19000) (timedelta 20001))
    by (split; vm_compute; discriminate).
  assert (Hw : windows (timedelta 19000) (timedelta 20001)
               = [(timedelta 19000, timedelta 20000)])
    by (vm_compute; reflexivity).
  rewrite (fetch_historical_data_runs env symbol _ _ tr Hrange).
  rewrite Hw, run_windows_cons. cbn [run_windows fst].
  assert (Hret : exists r,
             concatenated
               (kept [fst (chunk_outcome env tr symbol (timedelta 19000)
                             (timedelta 20000))]) = Ok r).
  { unfold kept. cbn [flat_map]. rewrite app_nil_r.
    destruct (fst (chunk_outcome env tr symbol (timedelta 19000) (timedelta 20000)))
      as [df |]; [| eexists; reflexivity].
    destruct (negb (empty df)); [| eexists; reflexivity].
    unfold concatenated. rewrite concat_single. eexists. reflexivity. }
  destruct Hret as (r & ->). cbn [lift].
  eexists. eexists. split; [reflexivity |].
  rewrite window_events_requested.
  split; [reflexivity |].
  intros (_ & Hlast & _). vm_compute in Hlast. discriminate Hlast.
Qed.

(** *** C2: the request of a chunk fetch *)

(** Claim C2, as the code builds the request.  A chunk fetch calls the
    provider exactly once, with the symbol, a timeframe of one day, a limit
    of 1000 rows and the window's start under [start]; the window's end is
    passed under the keyword [end_date], and the request has no [end]. *)
Theorem chunk_request_has_no_end_bound env symbol s e tr :
  exists r em,
    fetch_historical_data_chunk env symbol s e tr = (Return r, tr ++ em) /\
    requests_of em = [StockBarsRequest symbol s e] /\
    kwarg "symbol_or_symbols" (StockBarsRequest symbol s e) = Some (ArgStr symbol) /\
    kwarg "timeframe" (StockBarsRequest symbol s e) = Some (ArgTimeFrame 1 Day) /\
    kwarg "limit" (StockBarsRequest symbol s e) = Some (ArgInt 1000) /\
    kwarg "start" (StockBarsRequest symbol s e) = Some (ArgDatetime s) /\
    kwarg "end" (StockBarsRequest symbol s e) = None /\
    kwarg "end_date" (StockBarsRequest symbol s e) = Some (ArgDatetime e).
Proof.
  eexists. eexists. split; [apply chunk_runs |].
  split; [apply chunk_requests |].
  repeat split.
Qed.

(** *** C3: failures inside a chunk fetch *)

(** Claim C3.  A chunk fetch always returns a value: no exception leaves
    it.  When the provider call or the formatting of its reply raises [ex],
    the fetch has called the provider, printed the diagnostic of [ex] and
    returned [None]. *)
Theorem chunk_failures_contained env symbol s e tr :
  (exists r em, fetch_historical_data_chunk env symbol s e tr = (Return r, tr ++ em)) /\
  (forall ex,
      raised_in_chunk env tr symbol s e = Some ex ->
      fetch_historical_data_chunk env symbol s e tr =
      (Return None,
       tr ++ [EGetStockBars (StockBarsRequest symbol s e);
              EPrint (chunk_diagnostic symbol ex)])).
Proof.
  split.
  - eexists. eexists. apply chunk_runs.
  - intros ex Hex. rewrite chunk_runs.
    unfold raised_in_chunk in Hex. unfold chunk_outcome.
    destruct (get_stock_bars env tr (StockBarsRequest symbol s e)) as [ex' | [df |]].
    + injection Hex as <-. reflexivity.
    + destruct (empty df); [discriminate |].
      destruct (format_chunk env df); [discriminate |].
      injection Hex as <-. reflexivity.
    + discriminate.
Qed.

(** An unreachable provider, and a reply without timestamps. *)
Lemma chunk_failures_contained_witness :
  fetch_historical_data_chunk Scenario.unreachable "TEST" (timedelta 19000)
    (timedelta 20000) []
  = (Return None,
     [EGetStockBars (StockBarsRequest "TEST" (timedelta 19000) (timedelta 20000));
      EPrint "Error fetching data chunk for TEST: connection refused"]) /\
  fetch_historical_data_chunk Scenario.malformed "TEST" (timedelta 19000)
    (timedelta 20000) []
  = (Return None,
     [EGetStockBars (StockBarsRequest "TEST" (timedelta 19000) (timedelta 20000));
      EPrint "Error fetching data chunk for TEST: 'timestamp'"]).
Proof.
  split.
  - apply (proj2 (chunk_failures_contained Scenario.unreachable "TEST"
                    (timedelta 19000) (timedelta 20000) [])
                 Scenario.connection_error).
    reflexivity.
  - apply (proj2 (chunk_failures_contained Scenario.malformed "TEST"
                    (timedelta 19000) (timedelta 20000) [])
                 (KeyError "timestamp")).
    vm_compute. reflexivity.
Defined.

(** *** C4: what [fetch_historical_data] returns *)

Lemma kept_nil_iff rs : kept rs = [] <-> forallb no_data rs = true.
Proof.
  induction rs as [| r rs IH]; [split; reflexivity |].
  unfold kept in *. cbn [flat_map forallb].
  rewrite andb_true_iff, <- IH. split.
  - intros H. apply app_eq_nil in H. destruct H as [Hr Hrs].
    split; [| exact Hrs].
    destruct r as [df |]; [| reflexivity].
    cbn [no_data]. destruct (empty df); [reflexivity | discriminate Hr].
  - intros [Hr Hrs]. rewrite Hrs, app_nil_r.
    destruct r as [df |]; [| reflexivity].
    cbn [no_data] in Hr. rewrite Hr. reflexivity.
Qed.

Lemma scenario_provider_plain t0 : plain_provider (Scenario.world t0).
Proof.
  intros tr req df. cbn [get_stock_bars Scenario.world]. unfold Scenario.provider.
  destruct (kwarg "symbol_or_symbols" req) as [[symbol | | |] |]; try discriminate.
  intros H. injection H as <-. unfold plain. cbn [index_names columns].
  unfold Scenario.bar_columns. cbn.
  repeat (constructor;
          [cbn; intros H; repeat (destruct H as [H | H]; try discriminate H); exact H |]).
  constructor.
Qed.

(** Claim C4 as amended.  For a range whose dates the loop can compute and
    a provider whose frames have unambiguous labels, [fetch_historical_data]
    asks for the windows of the loop in order and returns the chunk results
    that bring rows, stacked in that order; it returns [None] exactly when
    no window brings rows, never an empty frame; and when
    [end_date <= start_date] there is no window and it returns [None],
    whatever the dates. *)
Theorem fetch_historical_data_concatenates env symbol s e tr :
  (s < e -> within_range s e) ->
  plain_provider env ->
  exists result em,
    fetch_historical_data env symbol s e tr = (Return result, tr ++ em) /\
    requested_windows em = windows s e /\
    List.length (fst (run_windows env symbol (windows s e) tr))
      = List.length (windows s e) /\
    result = assemble (kept (fst (run_windows env symbol (windows s e) tr))) /\
    (result = None <->
     forallb no_data (fst (run_windows env symbol (windows s e) tr)) = true) /\
    (forall df,
        result = Some df ->
        empty df = false /\ columns df = canonical_columns /\
        rows df = flat_map rows (kept (fst (run_windows env symbol (windows s e) tr)))) /\
    (e <= s -> windows s e = [] /\ result = None).
Proof.
  intros Hrange Hplain.
  assert (Hrun : fetch_historical_data env symbol s e tr =
                 (Return (assemble (kept (fst (run_windows env symbol (windows s e) tr)))),
                  tr ++ window_events env symbol (windows s e) tr)).
  { destruct (Z_lt_le_dec s e) as [Hlt | Hle].
    - apply fetch_historical_data_plain; [exact (Hrange Hlt) | exact Hplain].
    - rewrite (fetch_historical_data_degenerate env symbol s e tr Hle).
      rewrite (windows_degenerate s e Hle). cbn. rewrite app_nil_r. reflexivity. }
  eexists. eexists. split; [exact Hrun |].
  split; [apply window_events_requested |].
  split; [apply run_windows_length |].
  split; [reflexivity |].
  split; [| split].
  - rewrite <- kept_nil_iff.
    destruct (kept (fst (run_windows env symbol (windows s e) tr)));
      split; intros H; (reflexivity || discriminate H).
  - intros df Hdf.
    pose proof (kept_not_empty (fst (run_windows env symbol (windows s e) tr))) as Hne.
    destruct (kept (fst (run_windows env symbol (windows s e) tr))) as [| d ds];
      [discriminate Hdf |].
    injection Hdf as <-. split; [| split; reflexivity].
    inversion Hne as [| ? ? Hd _]; subst.
    unfold empty, stack in *. cbn [columns rows flat_map].
    apply orb_false_iff in Hd. destruct Hd as [_ Hd].
    destruct (rows d); [discriminate Hd | reflexivity].
  - intros Hle. rewrite (windows_degenerate s e Hle). split; reflexivity.
Qed.

(** The five years before noon of 2026-11-03: two windows, the bars of
    both replies stacked. *)
Lemma fetch_historical_data_concatenates_witness :
  exists df,
    fst (fetch_historical_data (Scenario.world Scenario.noon) "TEST"
           (Scenario.noon - timedelta 1825) Scenario.noon [])
    = Return (Some df) /\
    columns df = canonical_columns /\ List.length (rows df) = 7%nat.
Proof.
  destruct (fetch_historical_data_concatenates (Scenario.world Scenario.noon) "TEST"
              (Scenario.noon - timedelta 1825) Scenario.noon [])
    as (result & em & Hrun & _ & _ & Hres & _ & Hsome & _).
  - intros _. split; vm_compute; discriminate.
  - apply scenario_provider_plain.
  - rewrite Hrun. cbn [fst]. vm_compute in Hres.
    eexists. split; [rewrite Hres; reflexivity |].
    split; reflexivity.
Defined.

(** From 9998-01-30 to 9999-12-21: the end of the first window, 1000 days
    after the start, would be in the year 10000; [fetch_historical_data]
    raises the [OverflowError] of that sum before it calls the provider. *)
Lemma fetch_historical_data_overflows :
  (datetime_min <= timedelta 2932196 /\
   timedelta 2932196 < timedelta 2932886 /\
   timedelta 2932886 <= datetime_max) /\
  fetch_historical_data (Scenario.world Scenario.noon) "TEST"
    (timedelta 2932196) (timedelta 2932886) []
  = (Raise (OverflowError "date value out of range"), []) /\
  ~ (exists result em,
        fetch_historical_data (Scenario.world Scenario.noon) "TEST"
          (timedelta 2932196) (timedelta 2932886) []
        = (Return result, [] ++ em)).
Proof.
  split; [repeat split; vm_compute; discriminate |].
  split; [vm_compute; reflexivity |].
  intros (result & em & H). vm_compute in H. discriminate H.
Qed.

(** *** C5: no rows and failure *)

(** Claim C5 as amended.  When the provider replies with a frame of no rows,
    the chunk fetch returns [None]; when the provider call raises, it
    returns [None] as well: the two returned values are the same, and only
    the diagnostic printed on failure tells the two cases apart. *)
Theorem empty_and_failed_chunks_return_None
  env env' symbol s e tr tr' df ex :
  get_stock_bars env tr (StockBarsRequest symbol s e) = Replies (Some df) ->
  empty df = true ->
  get_stock_bars env' tr' (StockBarsRequest symbol s e) = Raises ex ->
  fetch_historical_data_chunk env symbol s e tr
    = (Return None, tr ++ [EGetStockBars (StockBarsRequest symbol s e)]) /\
  fetch_historical_data_chunk env' symbol s e tr'
    = (Return None,
       tr' ++ [EGetStockBars (StockBarsRequest symbol s e);
               EPrint (chunk_diagnostic symbol ex)]).
Proof.
  intros Hreply Hempty Hraise. rewrite !chunk_runs. unfold chunk_outcome.
  rewrite Hreply, Hempty, Hraise. split; reflexivity.
Qed.

Lemma empty_and_failed_chunks_return_None_witness :
  fetch_historical_data_chunk Scenario.silent "TEST" (timedelta 19000)
    (timedelta 20000) []
  = (Return None,
     [EGetStockBars (StockBarsRequest "TEST" (timedelta 19000) (timedelta 20000))]) /\
  fetch_historical_data_chunk Scenario.unreachable "TEST" (timedelta 19000)
    (timedelta 20000) []
  = (Return None,
     [EGetStockBars (StockBarsRequest "TEST" (timedelta 19000) (timedelta 20000));
      EPrint "Error fetching data chunk for TEST: connection refused"]).
Proof.
  apply (empty_and_failed_chunks_return_None Scenario.silent Scenario.unreachable
           "TEST" (timedelta 19000) (timedelta 20000) [] []
           {| index_names := ["symbol"; "timestamp"];
              columns := Scenario.bar_columns;
              rows := [] |}
           Scenario.connection_error);
    reflexivity.
Defined.

(** A provider without bars and a provider out of reach: the first call
    succeeds with no rows, the second raises, and the two chunk fetches
    return the same value. *)
Lemma no_data_indistinguishable_from_failure :
  (exists df,
      get_stock_bars Scenario.silent []
        (StockBarsRequest "TEST" (timedelta 19000) (timedelta 20000))
      = Replies (Some df) /\ rows df = []) /\
  (exists ex,
      get_stock_bars Scenario.unreachable []
        (StockBarsRequest "TEST" (timedelta 19000) (timedelta 20000))
      = Raises ex) /\
  ~ (fst (fetch_historical_data_chunk Scenario.silent "TEST" (timedelta 19000)
            (timedelta 20000) [])
     <> fst (fetch_historical_data_chunk Scenario.unreachable "TEST"
               (timedelta 19000) (timedelta 20000) [])).
Proof.
  split; [eexists; split; reflexivity |].
  split; [eexists; reflexivity |].
  intros H. apply H. reflexivity.
Qed.

(** *** C6: the files written *)

(** Claim C6 as amended.  Every file written has its rows in ascending
    order of Date, and, when no two labels of a provider frame are the same
    after renaming, the columns Date, Symbol, Open, High, Low, Close,
    Volume, in that order; the rows are those [fetch_historical_data]
    returned for the symbol, rearranged: rows of equal date are all kept. *)
Theorem written_files_sorted_by_date env :
  (forall symbols batch_size tr,
      exists o em,
        process_symbols_in_batches env symbols batch_size tr = (o, tr ++ em) /\
        forall path content,
          In (EToCsv path content) em ->
          sorted_by_Date content /\
          (plain_provider env -> fst content = canonical_columns)) /\
  (forall symbol tr,
      exists o em,
        process_symbol env symbol tr = (o, tr ++ em) /\
        forall path content,
          In (EToCsv path content) em ->
          exists df,
            fst (fetch_historical_data env symbol (symbol_start env tr)
                   (symbol_end env tr) (tr ++ symbol_head env tr))
            = Return (Some df) /\
            Permutation (map snd (rows df)) (snd content)).
Proof.
  split.
  - intros symbols batch_size tr.
    assert (Hsat : sat (process_symbols_in_batches env symbols batch_size)
                       (fun _ _ em => Forall (csv_ok env) em)).
    { apply run_sat.
      - exact (csv_ok_sequential env).
      - intros. repeat constructor.
      - intros. constructor.
      - intros symbol tr'.
        destruct (process_symbol_runs env symbol tr') as (o & em & Hrun & Hsym).
        exists o, em. split; [exact Hrun |].
        eapply symbol_run_csv_ok. exact Hsym. }
    destruct (Hsat tr) as (o & em & Hrun & Hall).
    exists o, em. split; [exact Hrun |].
    intros path content Hin. rewrite Forall_forall in Hall.
    apply (Hall _ Hin).
  - intros symbol tr.
    destruct (process_symbol_runs env symbol tr) as (o & em & Hrun & Hsym).
    exists o, em. split; [exact Hrun |].
    intros path content Hin.
    destruct (symbol_run_written _ _ _ _ _ _ _ Hsym Hin)
      as (_ & _ & df & Hframe & Hperm).
    exists df. split; [| exact Hperm].
    rewrite fetch_historical_data_runs by apply symbol_range.
    unfold symbol_frame, symbol_chunks in Hframe. rewrite Hframe. reflexivity.
Qed.

(** The file of TEST written at noon of 2026-11-03. *)
Lemma written_files_sorted_by_date_witness :
  exists path content,
    In (EToCsv path content) (snd Scenario.noon_run) /\
    fst content = canonical_columns /\ sorted_by_Date content.
Proof.
  destruct (proj1 (written_files_sorted_by_date (Scenario.world Scenario.noon))
              ["TEST"] 50 []) as (o & em & Hrun & Hall).
  fold Scenario.noon_run in Hrun. cbn [app] in Hrun.
  assert (Hem : snd Scenario.noon_run = em) by (rewrite Hrun; reflexivity).
  rewrite Hem. clear Hrun. vm_compute in Hem. subst em.
  eexists. eexists. split.
  - do 7 right. left. reflexivity.
  - destruct (Hall "market_data_export_2021-11-04_to_2026-11-03/TEST_data.csv" _
                   ltac:(do 7 right; left; reflexivity)) as [Hsorted Hcols].
    split; [| exact Hsorted].
    apply Hcols. apply scenario_provider_plain.
Defined.

(** The provider of [Scenario] has four bars of TEST on record.  The second
    window of the run at noon of 2026-11-03 starts before the last three of
    them, and neither request has an [end]: both replies hold those three
    bars, and the file written holds each of them twice. *)
Lemma written_file_with_duplicate_dates :
  exists path content,
    In (EToCsv path content) (snd Scenario.noon_run) /\
    fst Scenario.noon_run = Return tt /\
    ~ distinct_dates content.
Proof.
  set (run := Scenario.noon_run). vm_compute in run. subst run.
  eexists. eexists. split; [| split].
  - cbn [snd]. do 7 right. left. reflexivity.
  - reflexivity.
  - intros (col & Hcol & Hnodup). vm_compute in Hcol. injection Hcol as <-.
    inversion Hnodup as [| ? ? _ Hrest]; subst.
    inversion Hrest as [| ? ? Hnotin _]; subst.
    apply Hnotin. left. reflexivity.
Qed.

(** *** C7: where the files go *)

Lemma clocked_sequential :
  sequential (fun (_ : Trace) (_ : Outcome unit) em => Forall (clocked em) em).
Proof.
  split; [constructor |].
  intros _ em1 _ em2 H1 H2. apply Forall_app. split.
  - eapply Forall_impl; [| exact H1]. intros [] H; try exact I.
    + destruct H as (t & Hin & Hp). exists t. split; [| exact Hp].
      apply in_or_app. left. exact Hin.
    + destruct H as (t & symbol & Hin & Hp). exists t, symbol. split; [| exact Hp].
      apply in_or_app. left. exact Hin.
  - eapply Forall_impl; [| exact H2]. intros [] H; try exact I.
    + destruct H as (t & Hin & Hp). exists t. split; [| exact Hp].
      apply in_or_app. right. exact Hin.
    + destruct H as (t & symbol & Hin & Hp). exists t, symbol. split; [| exact Hp].
      apply in_or_app. right. exact Hin.
Qed.

Lemma symbol_run_reads_clock env symbol tr o em :
  symbol_run env symbol tr o em -> In (ENow (symbol_end env tr)) em.
Proof. intros H. destruct H; unfold symbol_head; left; reflexivity. Qed.

Lemma symbol_run_clocked env symbol tr o em :
  symbol_run env symbol tr o em -> Forall (clocked em) em.
Proof.
  intros H. apply Forall_forall. intros ev Hin.
  pose proof (symbol_run_reads_clock _ _ _ _ _ H) as Hnow.
  destruct ev as [| | | | path | path content]; try exact I.
  - exists (symbol_end env tr). split; [exact Hnow |].
    rewrite (symbol_run_makedirs _ _ _ _ _ _ H Hin). apply symbol_dir_export.
  - exists (symbol_end env tr), symbol. split; [exact Hnow |].
    destruct (symbol_run_written _ _ _ _ _ _ _ H Hin) as (-> & _).
    apply symbol_file_destination.
Qed.

(** Claim C7 as amended.  The directory a symbol's file goes to is named
    after the date of the clock when that symbol is processed and the date
    1825 days before: directory and file are functions, [export_dir] and
    [destination], of that date and of the symbol only.  So symbols
    processed on one calendar date, in one run or several, go to one
    directory; nothing more makes the directories of a run the same. *)
Theorem destinations_follow_the_clock env :
  (forall symbol tr,
      exists o em,
        process_symbol env symbol tr = (o, tr ++ em) /\
        (forall path,
            In (EMakedirs path) em ->
            path = export_dir (date_of (datetime_now env tr))) /\
        (forall path content,
            In (EToCsv path content) em ->
            path = destination (date_of (datetime_now env tr)) symbol)) /\
  (forall symbols batch_size tr,
      exists o em,
        process_symbols_in_batches env symbols batch_size tr = (o, tr ++ em) /\
        Forall (clocked em) em).
Proof.
  split.
  - intros symbol tr.
    destruct (process_symbol_runs env symbol tr) as (o & em & Hrun & Hsym).
    exists o, em. split; [exact Hrun |]. split.
    + intros path Hin. rewrite (symbol_run_makedirs _ _ _ _ _ _ Hsym Hin).
      apply symbol_dir_export.
    + intros path content Hin.
      destruct (symbol_run_written _ _ _ _ _ _ _ Hsym Hin) as (-> & _).
      apply symbol_file_destination.
  - intros symbols batch_size tr.
    apply (run_sat env (fun _ _ em => Forall (clocked em) em)).
    + exact clocked_sequential.
    + intros. repeat constructor.
    + intros. constructor.
    + intros symbol tr'.
      destruct (process_symbol_runs env symbol tr') as (o & em & Hrun & Hsym).
      exists o, em. split; [exact Hrun |].
      eapply symbol_run_clocked. exact Hsym.
Qed.

(** AAPL processed at 23:59:59 of 2026-11-03. *)
Lemma destinations_follow_the_clock_witness :
  date_of (datetime_now (Scenario.world Scenario.late_evening) []) = 20760 /\
  "market_data_export_2021-11-04_to_2026-11-03"
  = export_dir (date_of (datetime_now (Scenario.world Scenario.late_evening) [])) /\
  "market_data_export_2021-11-04_to_2026-11-03/AAPL_data.csv"
  = destination (date_of (datetime_now (Scenario.world Scenario.late_evening) []))
                "AAPL".
Proof.
  destruct (proj1 (destinations_follow_the_clock (Scenario.world Scenario.late_evening))
              "AAPL" []) as (o & em & Hrun & Hdir & Hfile).
  vm_compute in Hrun. injection Hrun as _ <-.
  split; [reflexivity |]. split.
  - apply Hdir. do 1 right. left. reflexivity.
  - eapply Hfile. do 6 right. left. reflexivity.
Defined.

(** The run of AAPL and MSFT started at 23:59:59 of 2026-11-03 sleeps three
    seconds over AAPL, so MSFT is processed on 2026-11-04: the run makes two
    directories and writes one file into each. *)
Lemma run_across_midnight_uses_two_directories :
  fst Scenario.midnight_run = Return tt /\
  (exists c1 c2,
      In (EToCsv "market_data_export_2021-11-04_to_2026-11-03/AAPL_data.csv" c1)
         (snd Scenario.midnight_run) /\
      In (EToCsv "market_data_export_2021-11-05_to_2026-11-04/MSFT_data.csv" c2)
         (snd Scenario.midnight_run)) /\
  ~ (exists dir,
        forall path, In (EMakedirs path) (snd Scenario.midnight_run) -> path = dir).
Proof.
  set (run := Scenario.midnight_run). vm_compute in run. subst run.
  cbn [fst snd]. split; [reflexivity |]. split.
  - eexists. eexists. split.
    + do 7 right. left. reflexivity.
    + do 16 right. left. reflexivity.
  - intros (dir & Hdir).
    assert (H1 : "market_data_export_2021-11-04_to_2026-11-03" = dir)
      by (apply Hdir; do 2 right; left; reflexivity).
    assert (H2 : "market_data_export_2021-11-05_to_2026-11-04" = dir)
      by (apply Hdir; do 11 right; left; reflexivity).
    rewrite <- H2 in H1. discriminate H1.
Qed.

(** *** C8: pacing *)

Lemma final_phase_settled o q :
  final_phase o q -> q = Idle \/ q = Fetching \/ q = Written.
Proof. destruct o; cbn [final_phase]; intros H; [left; exact H | exact H | contradiction]. Qed.

(** In a trace that follows the protocol to a settled phase, what comes
    after a provider call is the sleep of one second, or the diagnostic and
    then that sleep. *)
Lemma paced_call_then_sleep q em q' :
  pacing_run q em = Some q' ->
  q' = Idle \/ q' = Fetching \/ q' = Written ->
  forall pre req post,
    em = pre ++ EGetStockBars req :: post ->
    (exists post', post = ESleep 1 :: post') \/
    (exists line post', post = EPrint line :: ESleep 1 :: post').
Proof.
  intros Hrun Hq pre req post ->.
  rewrite pacing_run_app in Hrun.
  destruct (pacing_run q pre) as [q1 |]; [| discriminate].
  cbn [pacing_run] in Hrun.
  destruct q1; cbn [pacing_step] in Hrun; try discriminate.
  assert (Hsleep : forall q0 seconds rest,
             match pacing_step q0 (ESleep seconds) with
             | Some q2 => pacing_run q2 rest
             | None => None
             end = Some q' -> seconds = 1).
  { intros q0 seconds rest H.
    destruct q0, seconds as [| [p | p |] | p]; cbn in H; try discriminate; reflexivity. }
  destruct post as [| ev post].
  { cbn in Hrun. injection Hrun as <-. destruct Hq as [Hq | [Hq | Hq]]; discriminate. }
  cbn [pacing_run] in Hrun.
  destruct ev; cbn [pacing_step] in Hrun; try discriminate.
  - destruct post as [| ev2 post].
    { cbn in Hrun. injection Hrun as <-. destruct Hq as [Hq | [Hq | Hq]]; discriminate. }
    cbn [pacing_run] in Hrun.
    destruct ev2; cbn [pacing_step] in Hrun; try discriminate.
    right. rewrite (Hsleep Diagnosed seconds post Hrun). eauto.
  - left. rewrite (Hsleep Requested seconds post Hrun). eauto.
Qed.

Lemma repeat_three {A} (x : A) (l : list string) :
  flat_map (fun _ => [x; x; x]) l = repeat x (2 * List.length l + List.length l).
Proof.
  induction l as [| s l IH]; [reflexivity |].
  cbn [flat_map List.length app]. rewrite IH.
  replace (2 * S (List.length l) + S (List.length l))%nat
    with (S (S (S (2 * List.length l + List.length l)))) by lia.
  reflexivity.
Qed.

(** A completed run with a positive batch size has slept one second for
    each of its provider calls and one second more for each symbol. *)
Lemma run_sleeps_counted env symbols batch_size tr em :
  0 < batch_size ->
  process_symbols_in_batches env symbols batch_size tr = (Return tt, tr ++ em) ->
  flat_map slept_seconds em
  = repeat 1 (List.length (requests_of em) + List.length symbols).
Proof.
  intros Hpos Hrun.
  assert (Hsleeps : flat_map slept_seconds em = flat_map (fun _ => [1; 1; 1]) symbols).
  { revert Hrun. apply run_collect; [exact Hpos | reflexivity |].
    intros symbol tr' em' Hrun. apply process_symbol_returned in Hrun.
    pose proof (symbol_fetched_slept env symbol tr') as Hf.
    inversion Hrun; subst; unfold symbol_head;
      rewrite !flat_map_app, Hf; reflexivity. }
  assert (Hcalls : flat_map (fun ev => map (fun _ => tt) (request_of ev)) em
                   = flat_map (fun _ => [tt; tt]) symbols).
  { revert Hrun. apply run_collect; [exact Hpos | reflexivity |].
    intros symbol tr' em' Hrun. apply process_symbol_returned in Hrun.
    pose proof (symbol_fetched_requests env symbol tr') as Hf.
    rewrite flat_map_map_out. fold (requests_of em').
    inversion Hrun; subst; unfold symbol_head;
      rewrite !requests_of_app, Hf; reflexivity. }
  rewrite flat_map_map_out in Hcalls. fold (requests_of em) in Hcalls.
  apply (f_equal (@List.length unit)) in Hcalls. rewrite length_map in Hcalls.
  rewrite Hsleeps, Hcalls, repeat_three. f_equal. f_equal.
  clear. induction symbols as [| s l IH]; [reflexivity |].
  cbn [flat_map app List.length]. rewrite <- IH. lia.
Qed.

(** Claim C8.  Of a range whose dates it can compute,
    [fetch_historical_data] makes one provider call and one sleep of one
    second for every window, each call followed by its sleep whatever the
    call brought.  A symbol that is processed to its end ends with one more
    sleep of one second, which comes after the last paced fetch when no
    file is written and after the report of the file when one is.  The
    events of a whole run follow the pacing protocol of [pacing_step]:
    every provider call is followed by a one-second sleep, after the
    diagnostic if the fetch failed; a run that returns ends between two
    symbols, and has then slept one second for each provider call and one
    second more for each symbol of the list. *)
Theorem run_is_paced env :
  (forall symbol s e tr,
      within_range s e ->
      exists o em,
        fetch_historical_data env symbol s e tr = (o, tr ++ em) /\
        pacing_run Fetching em = Some Fetching /\
        List.length (requests_of em) = List.length (windows s e) /\
        flat_map slept_seconds em = repeat 1 (List.length (windows s e))) /\
  (forall symbol tr,
      exists o em,
        process_symbol env symbol tr = (o, tr ++ em) /\
        (o = Return tt ->
         exists body,
           em = body ++ [ESleep 1] /\
           (pacing_run Idle body = Some Fetching \/
            pacing_run Idle body = Some Reported))) /\
  (forall symbols batch_size tr,
      exists o em q,
        process_symbols_in_batches env symbols batch_size tr = (o, tr ++ em) /\
        pacing_run Idle em = Some q /\ final_phase o q /\
        (forall pre req post,
            em = pre ++ EGetStockBars req :: post ->
            (exists post', post = ESleep 1 :: post') \/
            (exists line post', post = EPrint line :: ESleep 1 :: post')) /\
        (0 < batch_size -> o = Return tt ->
         flat_map slept_seconds em
         = repeat 1 (List.length (requests_of em) + List.length symbols))).
Proof.
  split; [| split].
  - intros symbol s e tr Hrange.
    rewrite fetch_historical_data_runs by exact Hrange.
    exists (fst (lift (concatenated
                        (kept (fst (run_windows env symbol (windows s e) tr))))
                      (tr ++ window_events env symbol (windows s e) tr))).
    eexists. split; [unfold lift; destruct (concatenated _); reflexivity |].
    split; [apply pacing_windows |].
    split; [apply window_events_requests |].
    rewrite window_events_slept. clear.
    induction (windows s e) as [| w ws IH]; [reflexivity |].
    cbn [map List.length repeat]. rewrite IH. reflexivity.
  - intros symbol tr.
    destruct (process_symbol_runs env symbol tr) as (o & em & Hrun & Hsym).
    exists o, em. split; [exact Hrun |]. intros Ho.
    destruct Hsym as [ex _ | _ _ | ex _ _ | df ex _ _ _
                      | df sorted line _ _ _ _ _ _ | df sorted ex _ _ _ _ _ _];
      try discriminate Ho.
    + exists (symbol_head env tr ++ symbol_fetched env symbol tr).
      split; [rewrite <- app_assoc; reflexivity |]. left.
      unfold symbol_head, symbol_fetched. cbn [app pacing_run pacing_step].
      apply pacing_windows.
    + eexists (symbol_head env tr ++ symbol_fetched env symbol tr
                 ++ [EToCsv _ _; EPrint line]).
      split; [rewrite <- !app_assoc; reflexivity |]. right.
      unfold symbol_head, symbol_fetched. cbn [app pacing_run pacing_step].
      rewrite pacing_run_app, pacing_windows. reflexivity.
  - intros symbols batch_size tr.
    assert (Hsat : sat (process_symbols_in_batches env symbols batch_size)
                       (fun _ o em => exists q, pacing_run Idle em = Some q /\
                                                final_phase o q)).
    { apply run_sat.
      - exact pacing_sequential.
      - intros. exists Idle. split; reflexivity.
      - intros. exists Idle. split; [reflexivity | left; reflexivity].
      - intros symbol tr'.
        destruct (process_symbol_runs env symbol tr') as (o & em & Hrun & Hsym).
        exists o, em. split; [exact Hrun |].
        eapply symbol_run_paced. exact Hsym. }
    destruct (Hsat tr) as (o & em & Hrun & q & Hq & Hfinal).
    exists o, em, q. split; [exact Hrun |]. split; [exact Hq |].
    split; [exact Hfinal |]. split.
    + apply (paced_call_then_sleep Idle em q Hq (final_phase_settled o q Hfinal)).
    + intros Hpos Ho. subst o.
      apply (run_sleeps_counted env symbols batch_size tr em Hpos Hrun).
Qed.

(** The run of TEST at noon of 2026-11-03: two provider calls, each
    followed by its sleep, and three sleeps of one second in all. *)
Lemma run_is_paced_witness :
  ((exists post', skipn 4 (snd Scenario.noon_run) = ESleep 1 :: post') \/
   (exists line post',
       skipn 4 (snd Scenario.noon_run) = EPrint line :: ESleep 1 :: post')) /\
  flat_map slept_seconds (snd Scenario.noon_run) = [1; 1; 1].
Proof.
  destruct (proj2 (proj2 (run_is_paced (Scenario.world Scenario.noon))) ["TEST"] 50 [])
    as (o & em & q & Hrun & _ & _ & Hcall & Hcount).
  fold Scenario.noon_run in Hrun. cbn [app] in Hrun.
  assert (Ho : o = Return tt) by (vm_compute in Hrun; congruence).
  specialize (Hcount eq_refl Ho).
  rewrite Hrun. cbn [snd]. split.
  - vm_compute in Hrun. injection Hrun as _ <-.
    eapply (Hcall [_; _; _] _ _). reflexivity.
  - rewrite Hcount. vm_compute in Hrun. injection Hrun as _ <-. reflexivity.
Defined.

(** *** C9: termination *)

(** Claim C9.  An iteration of the window loop moves [current_start]
    forward by at least one day.  Whatever the range,
    [fetch_historical_data] ends, by returning or by raising, after at
    most one provider call per window of the range, the windows being at
    most [(end - start) / 1001 days + 1], and more fuel than that changes
    nothing; when the dates of the range can be computed it has called the
    provider once for every window, and returns if the frames of the
    provider have unambiguous labels.  [process_symbols_in_batches] returns
    or raises: it never runs out of fuel. *)
Theorem processing_terminates env :
  (forall current_start end_date,
      current_start < end_date ->
      current_start + timedelta 1
      <= Z.min (current_start + timedelta 1000) end_date + timedelta 1) /\
  (forall symbol s e tr,
      exists o em,
        fetch_historical_data env symbol s e tr = (o, tr ++ em) /\
        ((exists r, o = Return r) \/ (exists ex, o = Raise ex)) /\
        (List.length (requests_of em) <= List.length (windows s e))%nat /\
        (within_range s e ->
         List.length (requests_of em) = List.length (windows s e)) /\
        ((s < e -> within_range s e) -> plain_provider env ->
         exists r, o = Return r) /\
        (List.length (windows s e) <= loop_fuel s e)%nat /\
        forall fuel,
          (loop_fuel s e <= fuel)%nat ->
          fetch_loop env fuel symbol e s [] tr
          = fetch_loop env (loop_fuel s e) symbol e s [] tr) /\
  (forall symbols batch_size tr,
      exists o em,
        process_symbols_in_batches env symbols batch_size tr = (o, tr ++ em) /\
        (o = Return tt \/ exists ex, o = Raise ex)).
Proof.
  split; [| split].
  - intros cs e Hlt. pose proof (next_start_advances cs e Hlt). lia.
  - intros symbol s e tr.
    destruct (fetch_loop_general env symbol e (loop_fuel s e) s [] tr
                (enough_loop_fuel s e))
      as (o & em & rest & Hloop & Hplan & Hlen & Ho).
    fold (windows s e) in Hplan.
    assert (Hrun : exists o',
               fetch_historical_data env symbol s e tr = (o', tr ++ em) /\
               ((exists r, o' = Return r) \/ (exists ex, o' = Raise ex))).
    { unfold fetch_historical_data, bind. rewrite Hloop.
      destruct Ho as [(r & ->) | ->].
      - destruct r as [| df dfs].
        + eexists. split; [reflexivity |]. left. eexists. reflexivity.
        + unfold lift. destruct (concat (df :: dfs)).
          * eexists. split; [reflexivity |]. left. eexists. reflexivity.
          * eexists. split; [reflexivity |]. right. eexists. reflexivity.
      - eexists. split; [reflexivity |]. right. eexists. reflexivity. }
    destruct Hrun as (o' & Hrun & Ho').
    exists o', em. split; [exact Hrun |]. split; [exact Ho' |].
    split; [rewrite Hlen, Hplan, length_app; lia |].
    split.
    + intros Hrange.
      rewrite (fetch_historical_data_runs env symbol s e tr Hrange) in Hrun.
      assert (Hem : tr ++ window_events env symbol (windows s e) tr = tr ++ em).
      { unfold lift in Hrun. destruct (concatenated _); congruence. }
      apply app_inv_head in Hem. subst em. apply window_events_requests.
    + split.
      { intros Hrange Hplain. destruct (Z_lt_le_dec s e) as [Hlt | Hle].
        - rewrite (fetch_historical_data_plain env symbol s e tr
                     (Hrange Hlt) Hplain) in Hrun.
          injection Hrun as <- _. eexists. reflexivity.
        - rewrite (fetch_historical_data_degenerate env symbol s e tr Hle) in Hrun.
          injection Hrun as <- _. eexists. reflexivity. }
      split; [apply plan_windows_length |].
      intros fuel Hfuel. apply fetch_loop_enough; [apply enough_loop_fuel | exact Hfuel].
  - intros symbols batch_size tr.
    assert (Hsat : sat (process_symbols_in_batches env symbols batch_size)
                       (fun _ o _ => o = Return tt \/ exists ex, o = Raise ex)).
    { apply run_sat.
      - split; [intros; left; reflexivity | intros; assumption].
      - intros. left. reflexivity.
      - intros. right. eexists. reflexivity.
      - intros symbol tr'.
        destruct (process_symbol_runs env symbol tr') as (o & em & Hrun & Hsym).
        exists o, em. split; [exact Hrun |].
        destruct Hsym; [right | left | right | right | left | right];
          try reflexivity; eexists; reflexivity. }
    exact (Hsat tr).
Qed.

(** The five years before noon of 2026-11-03, with a hundred times the
    fuel. *)
Lemma processing_terminates_witness :
  Scenario.noon - timedelta 1825 < Scenario.noon /\
  Scenario.noon - timedelta 1825 + timedelta 1
  <= Z.min (Scenario.noon - timedelta 1825 + timedelta 1000) Scenario.noon
     + timedelta 1 /\
  (loop_fuel (Scenario.noon - timedelta 1825)%Z Scenario.noon <= 200)%nat /\
  fetch_loop (Scenario.world Scenario.noon) 200 "TEST" Scenario.noon
    (Scenario.noon - timedelta 1825) [] []
  = fetch_loop (Scenario.world Scenario.noon) 2 "TEST" Scenario.noon
      (Scenario.noon - timedelta 1825) [] [].
Proof.
  assert (Hlt : Scenario.noon - timedelta 1825 < Scenario.noon)
    by (vm_compute; reflexivity).
  assert (Hfuel : (loop_fuel (Scenario.noon - timedelta 1825)%Z Scenario.noon <= 200)%nat)
    by (vm_compute; lia).
  split; [exact Hlt |].
  split; [exact (proj1 (processing_terminates (Scenario.world Scenario.noon)) _ _ Hlt) |].
  split; [exact Hfuel |].
  destruct (proj1 (proj2 (processing_terminates (Scenario.world Scenario.noon)))
              "TEST" (Scenario.noon - timedelta 1825) Scenario.noon [])
    as (o & em & _ & _ & _ & _ & _ & _ & Hany).
  exact (Hany 200%nat Hfuel).
Defined.

(** *** C10: file-system failures *)

Lemma run_halts_at_failure env symbols batch_size :
  sat (process_symbols_in_batches env symbols batch_size)
      (fun tr o em => halts_at_failure env tr em o).
Proof.
  apply run_sat.
  - apply halts_sequential.
  - intros. cbn. exact I.
  - intros. exact I.
  - intros symbol tr.
    destruct (process_symbol_runs env symbol tr) as (o & em & Hrun & Hsym).
    exists o, em. split; [exact Hrun |].
    apply symbol_run_halts with (symbol := symbol). exact Hsym.
Qed.

(** Claim C10.  In a run, a directory creation or a file write that raises
    is the last event of the run and its exception is the outcome of
    [process_symbols_in_batches]: nothing catches it, and no later symbol
    is processed. *)
Theorem write_failures_halt_the_run
  env symbols batch_size tr o em pre ev post ex :
  process_symbols_in_batches env symbols batch_size tr = (o, tr ++ em) ->
  em = pre ++ ev :: post ->
  failed_op env (tr ++ pre) ev = Some ex ->
  post = [] /\ o = Raise ex.
Proof.
  intros Hrun Hem Hfail.
  destruct (run_halts_at_failure env symbols batch_size tr)
    as (o' & em' & Hrun' & Hhalts).
  rewrite Hrun in Hrun'. injection Hrun' as -> Heq.
  apply app_inv_head in Heq. subst em'. rewrite Hem in Hhalts.
  eapply halts_at_failure_split; eassumption.
Qed.

(** A disk that is full once the file of AAPL is written: the write of
    MSFT's file fails, the run ends there with that exception, and NVDA is
    never processed. *)
Lemma write_failures_halt_the_run_witness :
  failed_op Scenario.full_disk (removelast (snd Scenario.full_disk_run))
            (last (snd Scenario.full_disk_run) (ESleep 0))
  = Some Scenario.no_space /\
  requests_of (snd Scenario.full_disk_run)
  = requests_of (snd (process_symbols_in_batches Scenario.full_disk
                        ["AAPL"; "MSFT"] 50 [])) /\
  fst Scenario.full_disk_run = Raise Scenario.no_space.
Proof.
  assert (Hfail : failed_op Scenario.full_disk
                    ([] ++ removelast (snd Scenario.full_disk_run))
                    (last (snd Scenario.full_disk_run) (ESleep 0))
                  = Some Scenario.no_space)
    by (vm_compute; reflexivity).
  split; [exact Hfail |]. split; [vm_compute; reflexivity |].
  apply (write_failures_halt_the_run Scenario.full_disk
           ["AAPL"; "MSFT"; "NVDA"] 50 []
           (fst Scenario.full_disk_run) (snd Scenario.full_disk_run)
           (removelast (snd Scenario.full_disk_run))
           (last (snd Scenario.full_disk_run) (ESleep 0)) []
           Scenario.no_space).
  - vm_compute. reflexivity.
  - vm_compute. reflexivity.
  - exact Hfail.
Defined.

(* ===================================================================== *)
(** ** Further properties of the window loop *)

Lemma plan_windows_bounds n :
  forall cs e w,
  In w (plan_windows n cs e) ->
  cs <= fst w /\ fst w < snd w /\ snd w <= e.
Proof.
  induction n as [| n IH]; intros cs e w; rewrite plan_windows_unfold;
    destruct (cs <? e) eqn:Hlt; cbn [In]; try contradiction.
  apply Z.ltb_lt in Hlt.
  pose proof timedelta_1_pos as H1.
  assert (H1000 : 0 < timedelta 1000) by reflexivity.
  intros [<- | Hin].
  - cbn [fst snd]. lia.
  - destruct (IH _ _ _ Hin) as (Ha & Hb & Hc). lia.
Qed.

Lemma plan_windows_disjoint n :
  forall cs e,
  StronglySorted (fun w1 w2 => snd w1 + timedelta 1 <= fst w2) (plan_windows n cs e).
Proof.
  induction n as [| n IH]; intros cs e; rewrite plan_windows_unfold;
    destruct (cs <? e) eqn:Hlt; try constructor.
  - apply IH.
  - apply Forall_forall. intros w Hin.
    apply plan_windows_bounds in Hin. destruct w as [a b].
    cbv beta. cbn [fst snd] in *. lia.
Qed.

Lemma StronglySorted_app_l {A} (R : A -> A -> Prop) (l1 l2 : list A) :
  StronglySorted R (l1 ++ l2) -> StronglySorted R l1.
Proof.
  induction l1 as [| x l1 IH]; [constructor |].
  cbn [app]. intros H. inversion H as [| ? ? Hs Hall]; subst.
  constructor; [apply IH; exact Hs |].
  apply Forall_app in Hall. apply Hall.
Qed.

(** Whatever the range, [fetch_historical_data] returns or raises, having
    called the provider for the first of the windows of the range, in
    order. *)
Lemma fetch_historical_data_general env symbol s e tr :
  exists o em rest,
    fetch_historical_data env symbol s e tr = (o, tr ++ em) /\
    windows s e = requested_windows em ++ rest /\
    ((exists r, o = Return r) \/ (exists ex, o = Raise ex)).
Proof.
  destruct (fetch_loop_general env symbol e (loop_fuel s e) s [] tr
              (enough_loop_fuel s e))
    as (o & em & rest & Hloop & Hplan & _ & Ho).
  fold (windows s e) in Hplan.
  unfold fetch_historical_data, bind. rewrite Hloop.
  destruct Ho as [(r & ->) | ->].
  - destruct r as [| df dfs].
    + eexists _, em, rest. split; [reflexivity |]. split; [exact Hplan |].
      left. eexists. reflexivity.
    + unfold lift. destruct (concat (df :: dfs)).
      * eexists _, em, rest. split; [reflexivity |]. split; [exact Hplan |].
        left. eexists. reflexivity.
      * eexists _, em, rest. split; [reflexivity |]. split; [exact Hplan |].
        right. eexists. reflexivity.
  - eexists _, em, rest. split; [reflexivity |]. split; [exact Hplan |].
    right. eexists. reflexivity.
Qed.

(** The windows [fetch_historical_data] asks the provider for, whether it
    returns or raises, stay inside the range asked for and are a day apart
    at least: each starts at or after [start_date], ends after it starts
    and at or before [end_date], and starts a full day or more after the
    end of every window before it. *)
Theorem windows_inside_and_disjoint env symbol s e tr :
  exists o em,
    fetch_historical_data env symbol s e tr = (o, tr ++ em) /\
    Forall (fun w => s <= fst w /\ fst w < snd w /\ snd w <= e)
           (requested_windows em) /\
    StronglySorted (fun w1 w2 => snd w1 + timedelta 1 <= fst w2)
                   (requested_windows em).
Proof.
  destruct (fetch_historical_data_general env symbol s e tr)
    as (o & em & rest & Hrun & Hws & _).
  exists o, em. split; [exact Hrun |]. split.
  - apply Forall_forall. intros w Hin.
    apply (plan_windows_bounds (loop_fuel s e) s e).
    fold (windows s e). rewrite Hws. apply in_or_app. left. exact Hin.
  - apply StronglySorted_app_l with (l2 := rest). rewrite <- Hws.
    apply plan_windows_disjoint.
Qed.

Lemma plan_windows_count n :
  forall cs e, enough n cs e ->
  List.length (plan_windows n cs e)
  = Z.to_nat ((e - cs + timedelta 1001 - 1) / timedelta 1001).
Proof.
  assert (HW : 0 < timedelta 1001) by reflexivity.
  pose proof timedelta_1001 as HW'.
  pose proof timedelta_1_pos as H1.
  induction n as [| n IH]; intros cs e Hn.
  - apply enough_0 in Hn. rewrite plan_windows_unfold.
    pose proof Hn as Hb. apply Z.ltb_ge in Hb. rewrite Hb. cbn [List.length].
    destruct (Z_lt_le_dec (e - cs + timedelta 1001 - 1) 0) as [Hneg | Hpos].
    + assert ((e - cs + timedelta 1001 - 1) / timedelta 1001 < 0)
        by (apply Z.div_lt_upper_bound; lia).
      lia.
    + rewrite Z.div_small by lia. reflexivity.
  - rewrite plan_windows_unfold. destruct (cs <? e) eqn:Hb.
    + apply Z.ltb_lt in Hb. cbn [List.length].
      rewrite IH by (apply enough_next; assumption).
      replace (e - cs + timedelta 1001 - 1) with ((e - cs - 1) + 1 * timedelta 1001)
        by ring.
      rewrite Z.div_add by lia.
      assert (0 <= (e - cs - 1) / timedelta 1001) by (apply Z.div_pos; lia).
      destruct (Z_lt_le_dec (cs + timedelta 1000) e) as [Hfull | Hlast].
      * replace (Z.min (cs + timedelta 1000) e) with (cs + timedelta 1000) by lia.
        replace (e - (cs + timedelta 1000 + timedelta 1) + timedelta 1001 - 1)
          with (e - cs - 1) by lia.
        lia.
      * replace (Z.min (cs + timedelta 1000) e) with e by lia.
        replace (e - (e + timedelta 1) + timedelta 1001 - 1)
          with (timedelta 1000 - 1) by lia.
        rewrite (Z.div_small (timedelta 1000 - 1)) by lia.
        rewrite (Z.div_small (e - cs - 1)) by lia. reflexivity.
    + apply Z.ltb_ge in Hb. cbn [List.length].
      destruct (Z_lt_le_dec (e - cs + timedelta 1001 - 1) 0) as [Hneg | Hpos].
      * assert ((e - cs + timedelta 1001 - 1) / timedelta 1001 < 0)
          by (apply Z.div_lt_upper_bound; lia).
        lia.
      * rewrite Z.div_small by lia. reflexivity.
Qed.

(** Of a range whose dates it can compute, [fetch_historical_data] calls
    the provider once for every 1001 days, a started stretch counting as
    one: the number of calls is the quotient of [end_date - start_date] by
    1001 days, rounded up; of a range that ends before it starts it makes
    no call, whatever the dates. *)
Theorem provider_calls_per_range env symbol s e tr :
  (s < e -> within_range s e) ->
  exists o em,
    fetch_historical_data env symbol s e tr = (o, tr ++ em) /\
    List.length (requests_of em)
    = Z.to_nat ((e - s + timedelta 1001 - 1) / timedelta 1001).
Proof.
  intros Hrange.
  assert (Hcount : List.length (windows s e)
                   = Z.to_nat ((e - s + timedelta 1001 - 1) / timedelta 1001))
    by (apply plan_windows_count, enough_loop_fuel).
  destruct (Z_lt_le_dec s e) as [Hlt | Hle].
  - rewrite fetch_historical_data_runs by exact (Hrange Hlt).
    exists (fst (lift (concatenated
                         (kept (fst (run_windows env symbol (windows s e) tr))))
                      (tr ++ window_events env symbol (windows s e) tr))).
    eexists. split; [unfold lift; destruct (concatenated _); reflexivity |].
    rewrite window_events_requests. exact Hcount.
  - rewrite (fetch_historical_data_degenerate env symbol s e tr Hle).
    exists (Return None), []. rewrite app_nil_r. split; [reflexivity |].
    rewrite <- Hcount, (windows_degenerate s e Hle). reflexivity.
Qed.

(** The five years before noon of 2026-11-03: two calls. *)
Lemma provider_calls_per_range_witness :
  exists o em,
    fetch_historical_data (Scenario.world Scenario.noon) "TEST"
      (Scenario.noon - timedelta 1825) Scenario.noon [] = (o, [] ++ em) /\
    List.length (requests_of em) = 2%nat.
Proof.
  apply (provider_calls_per_range (Scenario.world Scenario.noon) "TEST"
           (Scenario.noon - timedelta 1825) Scenario.noon []).
  intros _. split; vm_compute; discriminate.
Defined.

(** A completed run with a positive batch size has called the provider for
    the symbols in the order of the list, twice in a row for each, a symbol
    that occurs several times in the list being fetched each time. *)
Theorem symbols_fetched_in_list_order env symbols batch_size tr em :
  0 < batch_size ->
  process_symbols_in_batches env symbols batch_size tr = (Return tt, tr ++ em) ->
  flat_map requested_symbol em = flat_map (fun s => [s; s]) symbols.
Proof.
  intros Hpos. apply run_collect; [exact Hpos | reflexivity |].
  intros symbol tr' em' Hrun. apply process_symbol_returned in Hrun.
  pose proof (symbol_fetched_symbols env symbol tr') as Hf.
  inversion Hrun; subst; unfold symbol_head;
    rewrite !flat_map_app, Hf; reflexivity.
Qed.

Lemma symbols_fetched_in_list_order_witness :
  0 < 50 /\
  flat_map requested_symbol (snd Scenario.midnight_run)
  = ["AAPL"; "AAPL"; "MSFT"; "MSFT"].
Proof.
  split; [reflexivity |].
  apply (symbols_fetched_in_list_order (Scenario.world Scenario.late_evening)
           ["AAPL"; "MSFT"] 50 [] (snd Scenario.midnight_run) eq_refl).
  vm_compute. reflexivity.
Defined.



(* ===================================================================== *)
(** ** What the chunk fetch makes of the provider's rows *)

Lemma mem_cons name c l : mem name (c :: l) = (String.eqb name c || mem name l)%bool.
Proof. reflexivity. Qed.

Lemma nth_set_cell_before i j v cells :
  (i < j)%nat -> (i < List.length cells)%nat ->
  nth i (set_cell j v cells) VNaN = nth i cells VNaN.
Proof.
  intros Hij Hi. unfold set_cell.
  rewrite app_nth1
    by (rewrite length_firstn, length_app, repeat_length; lia).
  rewrite nth_firstn.
  replace (i <? j)%nat with true by (symmetry; apply Nat.ltb_lt; exact Hij).
  apply app_nth1. exact Hi.
Qed.

Lemma combine_map_map {A B C} (f : A -> B) (g : A -> C) (l : list A) :
  combine (map f l) (map g l) = map (fun x => (f x, g x)) l.
Proof. induction l as [| x l IH]; [reflexivity |]. cbn. rewrite IH. reflexivity. Qed.

Lemma res_map_all_ok {A B} (f : A -> Res B) (g : A -> B) (l : list A) :
  Forall (fun x => f x = Ok (g x)) l -> res_map f l = Ok (map g l).
Proof.
  induction 1 as [| x l Hx _ IH]; [reflexivity |].
  cbn [res_map map]. rewrite Hx. cbn [res_bind]. rewrite IH. reflexivity.
Qed.

Lemma Forall2_map_r {A B} (R : A -> B -> Prop) (g : A -> B) (l : list A) :
  Forall (fun x => R x (g x)) l -> Forall2 R l (map g l).
Proof. induction 1; constructor; assumption. Qed.

(** A label that does not become a canonical one has no place among the
    labels looked for. *)
Lemma positions_extras n extras :
  Forall (fun c => ~ In (renamed c) canonical_columns) extras ->
  In n canonical_columns ->
  positions n (map renamed extras) = [] /\ (n = "Date" -> positions n extras = []).
Proof.
  intros Hextras Hn. rewrite Forall_forall in Hextras. split.
  - apply positions_nil. intros Hin. apply in_map_iff in Hin.
    destruct Hin as (c & <- & Hc). exact (Hextras c Hc Hn).
  - intros ->. apply positions_nil. intros Hin.
    apply (Hextras "Date" Hin). left. reflexivity.
Qed.

(** The formatting of a frame in the provider's layout: indexed by symbol
    and timestamp, with open, high, low, close, volume and further columns
    none of which is, or becomes, one of the canonical columns. *)
Lemma format_chunk_provider_layout env df extras :
  index_names df = ["symbol"; "timestamp"] ->
  columns df = "open" :: "high" :: "low" :: "close" :: "volume" :: extras ->
  mem "timestamp" extras = false ->
  Forall (fun c => ~ In (renamed c) canonical_columns) extras ->
  Forall (fun r => exists r', normalized env r r') (rows df) ->
  exists df',
    format_chunk env df = Ok df' /\
    index_names df' = [] /\ columns df' = canonical_columns /\
    Forall2 (normalized env) (rows df) (rows df').
Proof.
  destruct df as [ix cols rs]. cbn [index_names columns rows].
  intros -> -> Hts Hextras Hrows.
  assert (Hsym : mem "symbol" extras = false).
  { apply mem_not_In. intros Hin. rewrite Forall_forall in Hextras.
    apply (Hextras "symbol" Hin). right. left. reflexivity. }
  assert (Hcanon : forall n, In n canonical_columns ->
                             positions n (map renamed extras) = []).
  { intros n Hn. apply (positions_extras n extras Hextras Hn). }
  assert (HDate : positions "Date" extras = []).
  { apply (positions_extras "Date" extras Hextras); [left |]; reflexivity. }
  assert (Htimestamp : positions "timestamp" extras = []).
  { apply positions_nil, mem_not_In. exact Hts. }
  set (cols1 := "symbol" :: "timestamp" :: "open" :: "high" :: "low" :: "close"
                  :: "volume" :: extras).
  set (R1 := fun r : list value * list value => (@nil value, fst r ++ snd r)).
  set (D := fun r : list value * list value =>
              match pd_to_datetime env (nth 1 (fst r ++ snd r) VNaN) with
              | Ok t => VDate (date_of t)
              | Err _ => VNaN
              end).
  set (j := S (S (S (S (S (S (S (List.length extras)))))))).
  unfold format_chunk.
  (* reset_index *)
  assert (Hreset : reset_index
                     {| index_names := ["symbol"; "timestamp"];
                        columns := "open" :: "high" :: "low" :: "close" :: "volume"
                                     :: extras;
                        rows := rs |}
                   = Ok {| index_names := []; columns := cols1; rows := map R1 rs |}).
  { assert (H1 : mem "timestamp" ("open" :: "high" :: "low" :: "close" :: "volume"
                                    :: extras) = false)
      by (rewrite !mem_cons, Hts; reflexivity).
    assert (H2 : mem "symbol" ("timestamp" :: "open" :: "high" :: "low" :: "close"
                                 :: "volume" :: extras) = false)
      by (rewrite !mem_cons, Hsym; reflexivity).
    unfold reset_index. cbn [index_names columns rows rev app insert_levels].
    rewrite H1, H2. reflexivity. }
  rewrite Hreset. cbn [res_bind].
  (* df['timestamp'] *)
  assert (Hcol : get_column "timestamp"
                   {| index_names := []; columns := cols1; rows := map R1 rs |}
                 = Ok [map (fun r => nth 1 (fst r ++ snd r) VNaN) rs]).
  { unfold get_column. cbn [columns rows]. subst cols1.
    cbn [positions String.eqb Ascii.eqb Bool.eqb app map].
    rewrite Htimestamp. cbn [map]. rewrite map_map. reflexivity. }
  rewrite Hcol. cbn [res_bind].
  (* pd.to_datetime(...).dt.date *)
  assert (Hdates : to_dates env [map (fun r => nth 1 (fst r ++ snd r) VNaN) rs]
                   = Ok (map D rs)).
  { unfold to_dates. rewrite <- (map_map (fun r => nth 1 (fst r ++ snd r) VNaN)
                                   (fun v => match pd_to_datetime env v with
                                             | Ok t => VDate (date_of t)
                                             | Err _ => VNaN
                                             end)).
    apply res_map_all_ok. apply Forall_map.
    eapply Forall_impl; [| exact Hrows].
    intros r (r' & sym & ts & t & o & h & l & c & v & rest & -> & Ht & _).
    cbn [fst snd app nth]. rewrite Ht. reflexivity. }
  rewrite Hdates. cbn [res_bind].
  (* df['Date'] = ... *)
  assert (Hset : set_column "Date" (map D rs)
                   {| index_names := []; columns := cols1; rows := map R1 rs |}
                 = Ok {| index_names := [];
                         columns := cols1 ++ ["Date"];
                         rows := map (fun r => (@nil value,
                                                set_cell j (D r) (fst r ++ snd r)))
                                     rs |}).
  { unfold set_column. cbn [index_names columns rows].
    rewrite !length_map, Nat.eqb_refl.
    rewrite combine_map_map. subst R1 cols1.
    cbn [positions String.eqb Ascii.eqb Bool.eqb app map].
    rewrite HDate. cbn [map]. rewrite map_map. reflexivity. }
  rewrite Hset. cbn [res_bind].
  (* rename and select *)
  eexists. split.
  { unfold select, rename. cbn [index_names columns rows]. fold renamed.
    change (fun c => renamed c) with renamed.
    subst cols1. cbn [app map]. rewrite map_app. cbn [map].
    change (renamed "symbol") with "Symbol".
    change (renamed "timestamp") with "timestamp".
    change (renamed "open") with "Open".
    change (renamed "high") with "High".
    change (renamed "low") with "Low".
    change (renamed "close") with "Close".
    change (renamed "volume") with "Volume".
    change (renamed "Date") with "Date".
    unfold canonical_columns, carriers. cbn [res_map].
    cbn [positions String.eqb Ascii.eqb Bool.eqb app map].
    rewrite !positions_app.
    rewrite !Hcanon by (cbn; tauto).
    cbn [positions String.eqb Ascii.eqb Bool.eqb app map res_bind].
    rewrite length_map, Nat.add_0_r. fold j.
    reflexivity. }
  cbn [index_names columns rows flat_map map fst snd app].
  split; [reflexivity |]. split; [reflexivity |].
  rewrite map_map. apply Forall2_map_r.
  eapply Forall_impl; [| exact Hrows].
  intros r (r' & sym & ts & t & o & h & l & c & v & rest & -> & Ht & _).
  exists sym, ts, t, o, h, l, c, v, rest.
  split; [reflexivity |]. split; [exact Ht |].
  cbn [fst snd map app]. rewrite nth_set_cell.
  rewrite !nth_set_cell_other by (subst j; lia).
  subst D. cbn [fst snd app nth]. rewrite Ht. reflexivity.
Qed.

(** When the provider replies with rows in its layout (indexed by symbol
    and timestamp; open, high, low, close, volume and further columns none
    of which is, or is renamed to, a canonical column or [timestamp]), the
    chunk fetch returns, without a diagnostic, a frame with one row for
    each of them, in the same order: the date of the timestamp, then
    symbol, open, high, low, close and volume as they came; the further
    columns are dropped. *)
Theorem chunk_keeps_provider_cells env symbol s e tr df extras :
  get_stock_bars env tr (StockBarsRequest symbol s e) = Replies (Some df) ->
  rows df <> [] ->
  index_names df = ["symbol"; "timestamp"] ->
  columns df = "open" :: "high" :: "low" :: "close" :: "volume" :: extras ->
  mem "timestamp" extras = false ->
  Forall (fun c => ~ In (renamed c) canonical_columns) extras ->
  Forall (fun r => exists r', normalized env r r') (rows df) ->
  exists df',
    fetch_historical_data_chunk env symbol s e tr
    = (Return (Some df'), tr ++ [EGetStockBars (StockBarsRequest symbol s e)]) /\
    columns df' = canonical_columns /\
    Forall2 (normalized env) (rows df) (rows df').
Proof.
  intros Hreply Hne Hix Hcols Hts Hextras Hrows.
  destruct (format_chunk_provider_layout env df extras Hix Hcols Hts Hextras Hrows)
    as (df' & Hfmt & _ & Hcols' & Hall).
  exists df'. split; [| split; assumption].
  rewrite chunk_runs. unfold chunk_outcome. rewrite Hreply.
  assert (Hempty : empty df = false).
  { unfold empty. rewrite Hcols. destruct (rows df); [contradiction | reflexivity]. }
  rewrite Hempty, Hfmt. reflexivity.
Qed.

Lemma chunk_keeps_provider_cells_witness :
  exists df',
    fetch_historical_data_chunk (Scenario.world Scenario.noon) "TEST"
      (timedelta 19000) (timedelta 20001) []
    = (Return (Some df'),
       [] ++ [EGetStockBars (StockBarsRequest "TEST" (timedelta 19000) (timedelta 20001))]) /\
    columns df' = canonical_columns /\
    Forall2 (normalized (Scenario.world Scenario.noon))
            (Scenario.history "TEST") (rows df').
Proof.
  apply (chunk_keeps_provider_cells (Scenario.world Scenario.noon) "TEST"
           (timedelta 19000) (timedelta 20001) []
           {| index_names := ["symbol"; "timestamp"];
              columns := Scenario.bar_columns;
              rows := Scenario.history "TEST" |}
           ["trade_count"; "vwap"]).
  - vm_compute. reflexivity.
  - discriminate.
  - reflexivity.
  - reflexivity.
  - reflexivity.
  - repeat constructor; cbn; intros H;
      repeat (destruct H as [H | H]; try discriminate H); exact H.
  - repeat constructor; eexists; unfold normalized;
      do 9 eexists; (split; [reflexivity |]); (split; reflexivity).
Defined.

(** A provider frame with a further column [Open]: after the renaming two
    columns carry that label, and the selection keeps both. *)
Example chunk_with_a_further_Open_column :
  format_chunk (Scenario.world Scenario.noon)
    {| index_names := ["symbol"; "timestamp"];
       columns := ["open"; "high"; "low"; "close"; "volume"; "Open"];
       rows := [([VStr "TEST"; VTimestamp (timedelta 20000)],
                 [VNum 101; VNum 103; VNum 100; VNum 102; VNum 1000; VNum 7])] |}
  = Ok {| index_names := [];
          columns := ["Date"; "Symbol"; "Open"; "Open"; "High"; "Low"; "Close"; "Volume"];
          rows := [([], [VDate 20000; VStr "TEST"; VNum 101; VNum 7; VNum 103;
                         VNum 100; VNum 102; VNum 1000])] |}.
Proof. reflexivity. Qed.

(* ===================================================================== *)
(** ** The symbol source *)

Lemma strip_prefix_length p l l' :
  strip_prefix p l = Some l' -> (List.length l = List.length p + List.length l')%nat.
Proof.
  revert l. induction p as [| a p IH]; intros l H.
  - destruct l; injection H as <-; reflexivity.
  - destruct l as [| b l]; [discriminate H |]. cbn [strip_prefix] in H.
    destruct (Ascii.eqb a b); [| discriminate H].
    apply IH in H. cbn [List.length]. lia.
Qed.

Lemma strip_prefix_app p l l' y :
  strip_prefix p l = Some l' -> strip_prefix p (l ++ y) = Some (l' ++ y).
Proof.
  revert l. induction p as [| a p IH]; intros l H.
  - destruct l; injection H as <-; reflexivity.
  - destruct l as [| b l]; [discriminate H |]. cbn [strip_prefix app] in *.
    destruct (Ascii.eqb a b); [apply IH; exact H | discriminate H].
Qed.

Lemma strip_prefix_suffix p l l' :
  strip_prefix p l = Some l' -> exists pre, l = pre ++ l'.
Proof.
  revert l. induction p as [| a p IH]; intros l H.
  - destruct l; injection H as <-; exists []; reflexivity.
  - destruct l as [| b l]; [discriminate H |]. cbn [strip_prefix] in H.
    destruct (Ascii.eqb a b); [| discriminate H].
    destruct (IH l H) as (pre & ->). exists (b :: pre). reflexivity.
Qed.

(** What is skipped is at least one byte, from the beginning. *)
Lemma skip_shorter chars l l' :
  Forall (fun c => c <> []) chars ->
  skip chars l = Some l' ->
  (List.length l' < List.length l)%nat /\ exists pre, l = pre ++ l'.
Proof.
  induction 1 as [| c chars Hc _ IH]; [discriminate |].
  cbn [skip]. destruct (strip_prefix c l) as [x |] eqn:Hx; [| exact IH].
  intros H. injection H as <-. split.
  - apply strip_prefix_length in Hx.
    destruct c; [contradiction | cbn [List.length] in Hx; lia].
  - apply (strip_prefix_suffix c). exact Hx.
Qed.

Lemma skip_app chars l y : skip chars (l ++ y) = None -> skip chars l = None.
Proof.
  induction chars as [| c chars IH]; [reflexivity |].
  cbn [skip]. destruct (strip_prefix c l) as [x |] eqn:Hx.
  - rewrite (strip_prefix_app _ _ _ y Hx). discriminate.
  - destruct (strip_prefix c (l ++ y)); [discriminate | exact IH].
Qed.

Lemma skip_nil chars : Forall (fun c => c <> []) chars -> skip chars [] = None.
Proof.
  induction 1 as [| c chars Hc _ IH]; [reflexivity |].
  cbn [skip]. destruct c; [contradiction | exact IH].
Qed.

(** With fuel for every byte, what is left begins with none of the
    characters, and is the end of the string. *)
Lemma lstrip_chars_done chars :
  Forall (fun c => c <> []) chars ->
  forall fuel l,
  (List.length l <= fuel)%nat ->
  skip chars (lstrip_chars chars fuel l) = None /\
  exists pre, l = pre ++ lstrip_chars chars fuel l.
Proof.
  intros Hchars. induction fuel as [| fuel IH]; intros l Hlen.
  - destruct l; [| cbn in Hlen; lia].
    split; [apply skip_nil; exact Hchars | exists []; reflexivity].
  - cbn [lstrip_chars]. destruct (skip chars l) as [l' |] eqn:Hskip.
    + destruct (skip_shorter chars l l' Hchars Hskip) as [Hshort (p & ->)].
      destruct (IH l' ltac:(lia)) as [Hnone (pre & Hpre)].
      split; [exact Hnone |].
      exists (p ++ pre). rewrite <- app_assoc. f_equal. exact Hpre.
    + split; [exact Hskip | exists []; reflexivity].
Qed.

Lemma lstrip_chars_fixed chars fuel l :
  skip chars l = None -> lstrip_chars chars fuel l = l.
Proof.
  intros H. destruct fuel; [reflexivity |].
  cbn [lstrip_chars]. rewrite H. reflexivity.
Qed.

Lemma whitespace_chars :
  Forall (fun c : list ascii => c <> []) whitespace /\
  Forall (fun c : list ascii => c <> []) (map (@rev ascii) whitespace).
Proof. split; repeat constructor; discriminate. Qed.

Lemma strip_stripped s : stripped (strip s).
Proof.
  unfold stripped, strip. cbv zeta. rewrite list_ascii_of_string_of_list_ascii.
  set (l := list_ascii_of_string s).
  set (m := lstrip_chars whitespace (List.length l) l).
  destruct whitespace_chars as [Hw Hrw].
  destruct (lstrip_chars_done whitespace Hw (List.length l) l (le_n _))
    as [Hhead _]. fold m in Hhead.
  destruct (lstrip_chars_done (map (@rev ascii) whitespace) Hrw
              (List.length m) (rev m)) as [Htail (pre & Hpre)];
    [rewrite length_rev; apply le_n |].
  split.
  - apply skip_app with (y := rev pre).
    rewrite <- rev_app_distr, <- Hpre, rev_involutive. exact Hhead.
  - rewrite rev_involutive. exact Htail.
Qed.

Lemma strip_fixed s : stripped s -> strip s = s.
Proof.
  unfold stripped, strip. intros [Hhead Htail]. cbv zeta.
  rewrite (lstrip_chars_fixed _ _ _ Hhead), (lstrip_chars_fixed _ _ _ Htail).
  rewrite rev_involutive. apply string_of_list_ascii_of_string.
Qed.

Lemma row_symbol_stripped row : Forall stripped (row_symbol row).
Proof.
  unfold row_symbol. destruct (Bs4.find_all "td" row) as [| col cols].
  - constructor.
  - constructor; [apply strip_stripped | constructor].
Qed.

Lemma row_symbol_length row : (List.length (row_symbol row) <= 1)%nat.
Proof. unfold row_symbol. destruct (Bs4.find_all "td" row); cbn; lia. Qed.

Lemma flat_map_length_le {A B} (f : A -> list B) (l : list A) :
  (forall x, List.length (f x) <= 1)%nat ->
  (List.length (flat_map f l) <= List.length l)%nat.
Proof.
  intros Hf. induction l as [| x l IH]; [cbn; lia |].
  cbn [flat_map]. rewrite length_app. specialize (Hf x). cbn [List.length]. lia.
Qed.

(** When the page has a table of class [wikitable], [fetch_sp500_symbols]
    returns at most one symbol for each row of it but the first; no symbol
    begins or ends with a whitespace character, of ASCII or not, so that
    stripping one again changes nothing. *)
Theorem sp500_symbols_are_stripped web soup table :
  requests_get web sp500_url = GetReturns soup ->
  Bs4.find "table" "wikitable" soup = Some table ->
  exists symbols,
    fetch_sp500_symbols web = Ok symbols /\
    (List.length symbols <= List.length (Bs4.find_all "tr" table) - 1)%nat /\
    Forall stripped symbols /\
    Forall (fun s => strip s = s) symbols.
Proof.
  intros Hget Hfind. unfold fetch_sp500_symbols. rewrite Hget, Hfind.
  eexists. split; [reflexivity |].
  assert (Hstripped : Forall stripped
                        (flat_map row_symbol (tl (Bs4.find_all "tr" table)))).
  { apply Forall_flat_map. apply Forall_forall. intros row _.
    apply row_symbol_stripped. }
  split; [| split].
  - pose proof (flat_map_length_le row_symbol (tl (Bs4.find_all "tr" table))
                  row_symbol_length) as Hlen.
    destruct (Bs4.find_all "tr" table); cbn [tl List.length] in *; lia.
  - exact Hstripped.
  - eapply Forall_impl; [| exact Hstripped]. intros s. apply strip_fixed.
Qed.

(** The page of [Page]: the cell with AOS between a space and a no-break
    space, a space and a line end gives the symbol AOS. *)
Lemma sp500_symbols_are_stripped_witness :
  exists symbols,
    fetch_sp500_symbols Page.wikipedia = Ok symbols /\
    (List.length symbols <= List.length (Bs4.find_all "tr" Page.roster) - 1)%nat /\
    Forall stripped symbols /\
    Forall (fun s => strip s = s) symbols.
Proof.
  apply (sp500_symbols_are_stripped Page.wikipedia Page.soup Page.roster);
    reflexivity.
Defined.

Example strip_no_break_space :
  strip ("BRK.B" ++ Page.nbsp) = "BRK.B" /\
  fetch_sp500_symbols Page.wikipedia = Ok ["MMM"; "AOS"].
Proof. split; reflexivity. Qed.

(* ===================================================================== *)
(** ** [main] *)

(** When the symbols cannot be had, because the request raises or because
    the page has no table of class [wikitable], [main] has printed its
    first line and raises that exception: it calls the provider for
    nothing and touches no file. *)
Theorem main_stops_without_symbols web env tr ex :
  requests_get web sp500_url = GetRaises ex \/
  (exists soup,
      requests_get web sp500_url = GetReturns soup /\
      Bs4.find "table" "wikitable" soup = None /\
      ex = AttributeError "'NoneType' object has no attribute 'find_all'") ->
  main web env tr = (Raise ex, tr ++ [EPrint "Fetching S&P 500 symbols..."]).
Proof.
  intros H. unfold main, bind, print, lift, fetch_sp500_symbols.
  destruct H as [Hget | (soup & Hget & Hfind & ->)]; rewrite Hget.
  - reflexivity.
  - rewrite Hfind. reflexivity.
Qed.

Lemma main_stops_without_symbols_witness :
  main Page.not_found (Scenario.world Scenario.noon) []
  = (Raise (AttributeError "'NoneType' object has no attribute 'find_all'"),
     [] ++ [EPrint "Fetching S&P 500 symbols..."]).
Proof.
  apply main_stops_without_symbols. right.
  eexists. split; [reflexivity |]. split; reflexivity.
Defined.

(* ===================================================================== *)
(** ** Nothing to fetch *)

(** When the end date is not after the start date [fetch_historical_data]
    returns [None] at once: it calls the provider for nothing, does not
    sleep and prints nothing. *)
Theorem empty_range_fetches_nothing env symbol s e tr :
  e <= s ->
  fetch_historical_data env symbol s e tr = (Return None, tr).
Proof.
  apply fetch_historical_data_degenerate.
Qed.

Lemma empty_range_fetches_nothing_witness :
  timedelta 20000 <= timedelta 20000 /\
  fetch_historical_data (Scenario.world Scenario.noon) "AAPL"
    (timedelta 20000) (timedelta 20000) [] = (Return None, []).
Proof.
  split; [apply Z.le_refl |].
  apply empty_range_fetches_nothing. apply Z.le_refl.
Defined.

Lemma chunk_outcome_no_rows env tr symbol s e :
  no_rows (get_stock_bars env tr (StockBarsRequest symbol s e)) ->
  fst (chunk_outcome env tr symbol s e) = None.
Proof.
  unfold no_rows, chunk_outcome.
  destruct (get_stock_bars env tr (StockBarsRequest symbol s e)) as [ex | [df |]];
    try reflexivity.
  intros ->. reflexivity.
Qed.

Lemma run_windows_no_rows env symbol ws :
  (forall tr req, no_rows (get_stock_bars env tr req)) ->
  forall tr, kept (fst (run_windows env symbol ws tr)) = [].
Proof.
  intros Hno. induction ws as [| [s e] ws IH]; intros tr; [reflexivity |].
  cbn [run_windows]. rewrite chunk_runs.
  specialize (IH ((tr ++ snd (chunk_outcome env tr symbol s e)) ++ [ESleep 1])).
  destruct (run_windows env symbol ws
              ((tr ++ snd (chunk_outcome env tr symbol s e)) ++ [ESleep 1]))
    as [rs tr2].
  cbn [fst] in *. rewrite chunk_outcome_no_rows by apply Hno.
  unfold kept in *. cbn [flat_map app]. exact IH.
Qed.

Lemma fetch_event_not_written em :
  Forall fetch_event em -> Forall (fun ev => is_write ev = false) em.
Proof.
  apply Forall_impl. intros [] H; try reflexivity; destruct H.
Qed.

Lemma py_range_nonzero a b step :
  step <> 0 -> exists starts, py_range a b step = Ok starts.
Proof.
  intros H. unfold py_range.
  replace (step =? 0) with false by (symmetry; apply Z.eqb_neq; exact H).
  eexists. reflexivity.
Qed.

(** [run_sat] for a batch size that [range] accepts. *)
Lemma run_sat_nonzero env (P : Trace -> Outcome unit -> Trace -> Prop) :
  sequential P ->
  (forall tr line, P tr (Return tt) [EPrint line]) ->
  (forall symbol, sat (process_symbol env symbol) P) ->
  forall symbols batch_size,
    batch_size <> 0 ->
    sat (process_symbols_in_batches env symbols batch_size) P.
Proof.
  intros Hseq Hprint Hsym symbols batch_size Hnz tr.
  unfold process_symbols_in_batches, bind at 1, lift.
  destruct (py_range_nonzero 0 (Z.of_nat (List.length symbols)) batch_size Hnz)
    as (starts & ->).
  apply sat_for_each; [exact Hseq |]. intros i.
  apply sat_then; [exact Hseq | |].
  - intros tr'. exists (Return tt), [EPrint (batch_banner symbols batch_size i)].
    split; [reflexivity | apply Hprint].
  - apply sat_for_each; assumption.
Qed.

(** A run whose provider never brings rows and whose directories can be
    made returns and writes nothing. *)
Lemma run_without_rows env :
  (forall tr req, no_rows (get_stock_bars env tr req)) ->
  (forall tr path, os_makedirs env tr path = None) ->
  forall symbols batch_size,
    batch_size <> 0 ->
    sat (process_symbols_in_batches env symbols batch_size)
        (fun _ o em => o = Return tt /\ Forall (fun ev => is_write ev = false) em).
Proof.
  intros Hno Hmk. apply run_sat_nonzero.
  - split.
    + intros _. split; [reflexivity | constructor].
    + intros tr em1 o em2 [_ H1] [Ho H2]. split; [exact Ho |].
      apply Forall_app. split; assumption.
  - intros tr line. split; [reflexivity | repeat constructor].
  - intros symbol tr.
    destruct (process_symbol_runs env symbol tr) as (o & em & Hrun & Hsym).
    exists o, em. split; [exact Hrun |].
    assert (Hframe : symbol_frame env symbol tr = Ok None).
    { unfold symbol_frame, symbol_chunks.
      rewrite run_windows_no_rows by exact Hno. reflexivity. }
    inversion Hsym as [ex Hfail | _ _ | ex _ Hsome | df ex _ Hsome
                       | df sorted line _ Hsome | df sorted ex _ Hsome];
      subst.
    + rewrite Hmk in Hfail. discriminate Hfail.
    + split; [reflexivity |]. unfold symbol_head.
      repeat (apply Forall_app; split); repeat constructor.
      apply fetch_event_not_written, symbol_fetched_kinds.
    + rewrite Hframe in Hsome. discriminate Hsome.
    + rewrite Hframe in Hsome. discriminate Hsome.
    + rewrite Hframe in Hsome. discriminate Hsome.
    + rewrite Hframe in Hsome. discriminate Hsome.
Qed.

(** When the provider never brings rows (it raises, replies nothing or
    replies an empty frame, whatever the request) and the directories can
    be made, the run of any symbols with a batch size other than zero
    returns and writes no file. *)
Theorem no_rows_no_files env symbols batch_size tr :
  (forall tr' req, no_rows (get_stock_bars env tr' req)) ->
  (forall tr' path, os_makedirs env tr' path = None) ->
  batch_size <> 0 ->
  exists em,
    process_symbols_in_batches env symbols batch_size tr = (Return tt, tr ++ em) /\
    Forall (fun ev => is_write ev = false) em.
Proof.
  intros Hno Hmk Hnz.
  destruct (run_without_rows env Hno Hmk symbols batch_size Hnz tr)
    as (o & em & Hrun & -> & Hall).
  exists em. split; assumption.
Qed.

Lemma no_rows_no_files_witness :
  exists em,
    process_symbols_in_batches Scenario.unreachable ["AAPL"; "MSFT"] 50 []
    = (Return tt, [] ++ em) /\
    Forall (fun ev => is_write ev = false) em.
Proof.
  apply (no_rows_no_files Scenario.unreachable ["AAPL"; "MSFT"] 50 []).
  - intros tr' req. exact I.
  - intros tr' path. reflexivity.
  - discriminate.
Defined.



(* ===================================================================== *)
(** ** Directories, banners and the line of a saved file *)

Lemma fetch_events_made_no_dir em :
  Forall fetch_event em -> flat_map made_dir em = [].
Proof.
  induction 1 as [| ev em Hev _ IH]; [reflexivity |].
  cbn [flat_map]. rewrite IH. destruct ev; try reflexivity; destruct Hev.
Qed.

(** A completed run with a positive batch size has called [os.makedirs]
    once for every symbol of the list, although the symbols of a run share
    their directory unless the date changes under way. *)
Theorem directory_made_for_every_symbol env symbols batch_size tr em :
  0 < batch_size ->
  process_symbols_in_batches env symbols batch_size tr = (Return tt, tr ++ em) ->
  List.length (flat_map made_dir em) = List.length symbols.
Proof.
  intros Hpos Hrun.
  assert (Hall : flat_map (fun ev => map (fun _ => tt) (made_dir ev)) em
                 = flat_map (fun _ => [tt]) symbols).
  { revert Hrun. apply run_collect; [exact Hpos | reflexivity |].
    intros symbol tr' em' Hrun. apply process_symbol_returned in Hrun.
    pose proof (fetch_events_made_no_dir _ (symbol_fetched_kinds env symbol tr')) as Hf.
    assert (Hf' : flat_map (fun ev => map (fun _ : string => tt) (made_dir ev))
                    (symbol_fetched env symbol tr') = []).
    { rewrite flat_map_map_out, Hf. reflexivity. }
    inversion Hrun; subst; unfold symbol_head;
      rewrite !flat_map_app, Hf'; reflexivity. }
  rewrite flat_map_map_out in Hall.
  apply (f_equal (@List.length unit)) in Hall.
  rewrite length_map in Hall. rewrite Hall. clear.
  induction symbols as [| s symbols IH]; [reflexivity |].
  cbn [flat_map app List.length]. rewrite IH. reflexivity.
Qed.

Lemma directory_made_for_every_symbol_witness :
  0 < 50 /\
  List.length (flat_map made_dir (snd Scenario.midnight_run)) = 2%nat.
Proof.
  split; [reflexivity |].
  apply (directory_made_for_every_symbol (Scenario.world Scenario.late_evening)
           ["AAPL"; "MSFT"] 50 [] (snd Scenario.midnight_run) eq_refl).
  vm_compute. reflexivity.
Defined.

(** The two ways the body of the symbol loop returns: nothing fetched, or a
    file written and reported with the least and the greatest of its
    dates. *)
Lemma process_symbol_saves env symbol tr em :
  process_symbol env symbol tr = (Return tt, tr ++ em) ->
  em = symbol_head env tr ++ symbol_fetched env symbol tr ++ [ESleep 1] \/
  exists sorted dmin dmax,
    dated sorted /\ locate "Date" (columns sorted) = Ok O /\ rows sorted <> [] /\
    sorted_by_Date (csv_content sorted) /\
    column_min "Date" sorted = Ok dmin /\
    column_max "Date" sorted = Ok dmax /\
    em = symbol_head env tr ++ symbol_fetched env symbol tr
           ++ [EToCsv (symbol_file env symbol tr) (csv_content sorted);
               EPrint ("Saved data for " ++ symbol ++ " from " ++ isoformat dmin
                         ++ " to " ++ isoformat dmax)%string;
               ESleep 1].
Proof.
  unfold process_symbol.
  unfold bind at 1, now at 1.
  fold (symbol_end env tr).
  unfold bind at 1, lift at 1. rewrite lookback_computed.
  fold (symbol_dir env tr).
  unfold bind at 1, makedirs at 1.
  destruct (os_makedirs env (tr ++ [ENow (symbol_end env tr)]) (symbol_dir env tr))
    as [ex |] eqn:Hmk; [discriminate |].
  assert (Hhead : (tr ++ [ENow (symbol_end env tr)]) ++ [EMakedirs (symbol_dir env tr)]
                  = tr ++ symbol_head env tr)
    by (unfold symbol_head; rewrite <- app_assoc; reflexivity).
  rewrite Hhead.
  unfold bind at 1. unfold bind at 1.
  rewrite fetch_historical_data_runs by apply symbol_range.
  fold (symbol_fetched env symbol tr). fold (symbol_chunks env symbol tr).
  fold (symbol_frame env symbol tr).
  rewrite <- (app_assoc tr).
  destruct (symbol_frame env symbol tr) as [[df |] | ex] eqn:Hframe; cbn [lift];
    [| | discriminate].
  2:{ unfold ret, sleep. rewrite <- !app_assoc. intros H. injection H as H.
      apply app_inv_head in H. left. symmetry. exact H. }
  pose proof Hframe as Hshape. unfold symbol_frame, symbol_chunks in Hshape.
  apply concatenated_some in Hshape. destruct Hshape as [Hd Hne].
  rewrite Hne. cbn [negb].
  unfold bind at 1. unfold bind at 1, lift at 1.
  destruct (sort_values "Date" df) as [sorted | ex] eqn:Hsort; [| discriminate].
  destruct (sort_values_dated df sorted Hd Hsort)
    as (Hds & Hcols & Hloc & Hperm & Hsorted).
  pose proof (sorted_not_empty df sorted Hne Hcols Hperm) as Hrows.
  destruct (column_min_max_sorted df sorted Hd Hsort Hrows)
    as (dmin & dmax & Hmin & Hmax).
  fold (symbol_file env symbol tr).
  unfold bind at 1, to_csv at 1.
  destruct (df_to_csv env (tr ++ symbol_head env tr ++ symbol_fetched env symbol tr)
              (symbol_file env symbol tr) (csv_content sorted)) as [ex |] eqn:Hcsv;
    [discriminate |].
  rewrite Hmin, Hmax.
  unfold bind, lift, print, sleep. rewrite <- !app_assoc.
  intros H. injection H as H. apply app_inv_head in H.
  right. exists sorted, dmin, dmax. repeat (split; [assumption |]).
  symmetry. exact H.
Qed.

(** *** The batch banners *)

Lemma chunk_events_banners env tr symbol s e :
  flat_map banner_line (snd (chunk_outcome env tr symbol s e)) = [].
Proof.
  unfold chunk_outcome.
  destruct (get_stock_bars env tr (StockBarsRequest symbol s e)) as [ex | [df |]];
    try reflexivity.
  destruct (empty df); [reflexivity |].
  destruct (format_chunk env df); reflexivity.
Qed.

Lemma window_events_banners env symbol ws :
  forall tr, flat_map banner_line (window_events env symbol ws tr) = [].
Proof.
  induction ws as [| [s e] ws IH]; intros tr; [reflexivity |].
  cbn [window_events]. rewrite !flat_map_app, chunk_events_banners, IH.
  reflexivity.
Qed.

Lemma process_symbol_banners env symbol tr em :
  process_symbol env symbol tr = (Return tt, tr ++ em) ->
  flat_map banner_line em = [].
Proof.
  intros Hrun.
  pose proof (window_events_banners env symbol
                (windows (symbol_start env tr) (symbol_end env tr))
                (tr ++ symbol_head env tr)) as Hf.
  fold (symbol_fetched env symbol tr) in Hf.
  destruct (process_symbol_saves env symbol tr em Hrun)
    as [-> | (sorted & dmin & dmax & _ & _ & _ & _ & _ & _ & ->)];
    unfold symbol_head; rewrite !flat_map_app, Hf; reflexivity.
Qed.

Lemma batch_banner_is_banner symbols batch_size i :
  banner_line (EPrint (batch_banner symbols batch_size i))
  = [batch_banner symbols batch_size i].
Proof. reflexivity. Qed.

(** In a completed run with a positive batch size the lines that begin
    with "Processing batch " are the banners of the batches and no others:
    "Processing batch k of n" for k = 1, 2, ..., n in this order, n being
    the number of symbols divided by the batch size and rounded up. *)
Theorem banners_count_the_batches env symbols batch_size tr em :
  0 < batch_size ->
  process_symbols_in_batches env symbols batch_size tr = (Return tt, tr ++ em) ->
  let n := (Z.of_nat (List.length symbols) + batch_size - 1) / batch_size in
  flat_map banner_line em
  = map (fun k => ("Processing batch " ++ str_of_Z (Z.of_nat k) ++ " of "
                     ++ str_of_Z n)%string)
        (seq 1 (Z.to_nat n)).
Proof.
  intros Hpos Hrun n.
  unfold process_symbols_in_batches, bind at 1, lift in Hrun.
  rewrite py_range_positive in Hrun by exact Hpos.
  fold n in Hrun.
  assert (Hall : flat_map banner_line em
                 = flat_map (fun i => [batch_banner symbols batch_size i])
                     (map (fun k => Z.of_nat k * batch_size) (seq 0 (Z.to_nat n)))).
  { revert Hrun. apply for_each_collect.
    - intros i tr'. unfold bind, print.
      destruct (for_each_appends (process_symbol env)
                  (slice symbols i (i + batch_size)) (process_symbol_appends env)
                  (tr' ++ [EPrint (batch_banner symbols batch_size i)]))
        as (o & em' & Hinner).
      rewrite Hinner. exists o, ([EPrint (batch_banner symbols batch_size i)] ++ em').
      rewrite app_assoc. reflexivity.
    - intros i tr' em' Hbody. unfold bind, print in Hbody.
      destruct (for_each_appends (process_symbol env)
                  (slice symbols i (i + batch_size)) (process_symbol_appends env)
                  (tr' ++ [EPrint (batch_banner symbols batch_size i)]))
        as (o & em2 & Hinner).
      rewrite Hinner in Hbody. injection Hbody as -> Hem.
      rewrite <- app_assoc in Hem. apply app_inv_head in Hem. subst em'.
      cbn [app flat_map]. rewrite batch_banner_is_banner.
      assert (Hsyms : flat_map banner_line em2
                      = flat_map (fun _ : string => @nil string)
                          (slice symbols i (i + batch_size))).
      { revert Hinner. apply for_each_collect.
        - apply process_symbol_appends.
        - apply process_symbol_banners. }
      rewrite Hsyms. clear.
      induction (slice symbols i (i + batch_size)) as [| x xs IH];
        [reflexivity | exact IH]. }
  rewrite Hall. clear Hall Hrun. rewrite <- seq_shift.
  induction (seq 0 (Z.to_nat n)) as [| k ks IH]; [reflexivity |].
  cbn [flat_map map app]. f_equal; [| exact IH].
  unfold batch_banner. fold n.
  rewrite Z.div_mul by lia.
  replace (Z.of_nat k + 1) with (Z.of_nat (S k)) by lia. reflexivity.
Qed.

Lemma banners_count_the_batches_witness :
  0 < 2 /\
  flat_map banner_line
    (snd (process_symbols_in_batches (Scenario.world Scenario.noon)
            ["AAPL"; "MSFT"; "NVDA"] 2 []))
  = ["Processing batch 1 of 2"; "Processing batch 2 of 2"].
Proof.
  split; [reflexivity |].
  apply (banners_count_the_batches (Scenario.world Scenario.noon)
           ["AAPL"; "MSFT"; "NVDA"] 2 []
           (snd (process_symbols_in_batches (Scenario.world Scenario.noon)
                   ["AAPL"; "MSFT"; "NVDA"] 2 []))
           eq_refl).
  vm_compute. reflexivity.
Defined.

(** *** The line of a saved file *)

Lemma fold_min_least d ds : Forall (Z.le d) ds -> fold_left Z.min ds d = d.
Proof.
  induction 1 as [| x xs Hx _ IH]; [reflexivity |].
  cbn [fold_left]. rewrite Z.min_l by exact Hx. exact IH.
Qed.

Lemma last_cons {A} (x d : A) (l : list A) : last (x :: l) d = last l x.
Proof.
  revert x d. induction l as [| y l IH]; intros x d; [reflexivity |].
  change (last (x :: y :: l) d) with (last (y :: l) d).
  rewrite !IH. reflexivity.
Qed.

Lemma fold_max_last ds : forall d,
  StronglySorted Z.le (d :: ds) -> fold_left Z.max ds d = last ds d.
Proof.
  induction ds as [| x xs IH]; intros d H; [reflexivity |].
  inversion H as [| ? ? Hs Hall]; subst.
  inversion Hall as [| ? ? Hx _]; subst.
  cbn [fold_left]. rewrite Z.max_r by exact Hx.
  rewrite IH by exact Hs. symmetry. apply last_cons.
Qed.

Lemma map_VDate_inj l l' : map VDate l = map VDate l' -> l = l'.
Proof.
  revert l'. induction l as [| x l IH]; intros [| y l'] H;
    try discriminate H; [reflexivity |].
  cbn [map] in H. injection H as -> H. f_equal. apply IH. exact H.
Qed.

(** Least and greatest date of a sorted frame: those of its first and last
    rows. *)
Lemma sorted_dates_ends sorted d ds :
  dated sorted -> locate "Date" (columns sorted) = Ok O ->
  csv_column "Date" (csv_content sorted) = Some (map VDate (d :: ds)) ->
  StronglySorted Z.le (d :: ds) ->
  column_min "Date" sorted = Ok d /\ column_max "Date" sorted = Ok (last ds d).
Proof.
  intros Hc Hloc Hcol Hsorted.
  destruct (keyed_rows_dated sorted Hc)
    as [(ex & Hex & _) | (_ & krs & Hk & Hsnd & Hall)];
    [rewrite Hloc in Hex; discriminate Hex |].
  assert (Hkeys : map fst krs = d :: ds).
  { apply map_VDate_inj.
    unfold csv_column, csv_content in Hcol. cbn [fst snd] in Hcol.
    rewrite (locate_position _ _ _ Hloc) in Hcol.
    injection Hcol as Hcol.
    change (map VDate (d :: ds)) with (VDate d :: map VDate ds).
    rewrite <- Hcol, <- Hsnd, !map_map.
    clear - Hall. induction Hall as [| kr krs Hkr _ IH]; [reflexivity |].
    cbn [map]. f_equal; [symmetry; exact Hkr | exact IH]. }
  unfold column_min, column_max. rewrite Hk. cbn [res_bind]. rewrite Hkeys.
  split; f_equal.
  - apply fold_min_least. inversion Hsorted; assumption.
  - apply fold_max_last. exact Hsorted.
Qed.

(** When the body of the symbol loop writes a file and returns, the write
    is followed at once by the line "Saved data for <symbol> from <first>
    to <last>" and by the pacing sleep, <first> and <last> being the dates
    of the first and of the last row of the file. *)
Theorem saved_line_reports_the_file_dates env symbol tr em path content :
  process_symbol env symbol tr = (Return tt, tr ++ em) ->
  In (EToCsv path content) em ->
  exists first ds pre,
    csv_column "Date" content = Some (map VDate (first :: ds)) /\
    em = pre ++ [EToCsv path content;
                 EPrint ("Saved data for " ++ symbol ++ " from " ++ isoformat first
                           ++ " to " ++ isoformat (last ds first))%string;
                 ESleep 1].
Proof.
  intros Hrun Hin.
  pose proof (symbol_fetched_kinds env symbol tr) as Hkinds.
  assert (Hnot : forall p c,
             ~ In (EToCsv p c) (symbol_head env tr ++ symbol_fetched env symbol tr)).
  { intros p c H. apply in_app_or in H. destruct H as [H | H].
    - destruct H as [H | [H | []]]; discriminate H.
    - apply (fetch_event_In _ _ Hkinds) in H. exact H. }
  destruct (process_symbol_saves env symbol tr em Hrun)
    as [-> | (sorted & dmin & dmax & Hc & Hloc & Hrows & (ds & Hcol & Hsorted)
              & Hmin & Hmax & ->)].
  - exfalso. rewrite app_assoc in Hin. apply in_app_or in Hin.
    destruct Hin as [Hin | [Hin | []]]; [| discriminate Hin].
    exact (Hnot _ _ Hin).
  - rewrite app_assoc in Hin. apply in_app_or in Hin.
    destruct Hin as [Hin | [Hin | [Hin | [Hin | []]]]];
      [exfalso; exact (Hnot _ _ Hin) | | discriminate Hin | discriminate Hin].
    injection Hin as <- <-.
    destruct ds as [| d ds].
    { exfalso. apply Hrows.
      unfold csv_column, csv_content in Hcol. cbn [fst snd] in Hcol.
      destruct (position "Date" (columns sorted)); [| discriminate Hcol].
      injection Hcol as Hcol. destruct (rows sorted); [reflexivity | discriminate Hcol]. }
    destruct (sorted_dates_ends sorted d ds Hc Hloc Hcol Hsorted) as [Hmin' Hmax'].
    rewrite Hmin' in Hmin. rewrite Hmax' in Hmax.
    injection Hmin as <-. injection Hmax as <-.
    exists d, ds, (symbol_head env tr ++ symbol_fetched env symbol tr).
    split; [exact Hcol |]. rewrite <- app_assoc. reflexivity.
Qed.

Lemma saved_line_reports_the_file_dates_witness :
  exists first ds pre,
    csv_column "Date"
      (canonical_columns,
       [[VDate 19500; VStr "TEST"; VNum 105; VNum 107; VNum 104; VNum 106; VNum 1000];
        [VDate 20000; VStr "TEST"; VNum 101; VNum 103; VNum 100; VNum 102; VNum 1000];
        [VDate 20000; VStr "TEST"; VNum 101; VNum 103; VNum 100; VNum 102; VNum 1000];
        [VDate 20700; VStr "TEST"; VNum 101; VNum 103; VNum 100; VNum 102; VNum 1000];
        [VDate 20700; VStr "TEST"; VNum 101; VNum 103; VNum 100; VNum 102; VNum 1000];
        [VDate 20759; VStr "TEST"; VNum 104; VNum 106; VNum 103; VNum 105; VNum 1000];
        [VDate 20759; VStr "TEST"; VNum 104; VNum 106; VNum 103; VNum 105; VNum 1000]])
    = Some (map VDate (first :: ds)) /\
    snd (process_symbol (Scenario.world Scenario.noon) "TEST" [])
    = pre ++ [EToCsv "market_data_export_2021-11-04_to_2026-11-03/TEST_data.csv"
                (canonical_columns,
                 [[VDate 19500; VStr "TEST"; VNum 105; VNum 107; VNum 104; VNum 106; VNum 1000];
                  [VDate 20000; VStr "TEST"; VNum 101; VNum 103; VNum 100; VNum 102; VNum 1000];
                  [VDate 20000; VStr "TEST"; VNum 101; VNum 103; VNum 100; VNum 102; VNum 1000];
                  [VDate 20700; VStr "TEST"; VNum 101; VNum 103; VNum 100; VNum 102; VNum 1000];
                  [VDate 20700; VStr "TEST"; VNum 101; VNum 103; VNum 100; VNum 102; VNum 1000];
                  [VDate 20759; VStr "TEST"; VNum 104; VNum 106; VNum 103; VNum 105; VNum 1000];
                  [VDate 20759; VStr "TEST"; VNum 104; VNum 106; VNum 103; VNum 105; VNum 1000]]);
              EPrint ("Saved data for " ++ "TEST" ++ " from " ++ isoformat first
                        ++ " to " ++ isoformat (last ds first))%string;
              ESleep 1].
Proof.
  apply (saved_line_reports_the_file_dates (Scenario.world Scenario.noon) "TEST" []).
  - vm_compute. reflexivity.
  - vm_compute. do 6 right. left. reflexivity.
Defined.
